(** * ethersrv: the EtherDFS server, request dispatcher and filesystem layer

    A shallow embedding of [src/fs.c] and [src/ethersrv.c].

    Conventions of the embedding.
    - A C [char], [unsigned char] or frame byte is a [Z] in [0, 256).
    - A C string is the [list Z] of its bytes, the terminating NUL left
      out; a read at the index of the terminator gives 0, and a read
      past it is undefined.
    - Undefined behaviour of the C program (a read past a terminator, a
      [memcpy] with a negative length, a failed [assert]) is the [None]
      of the [option] monad; ordinary failures are the return codes the
      C functions use.
    - Multi-byte frame fields are little endian, and the host is little
      endian too ([htole16] and [le16toh] are the identity), so that
      [*ax = v] stores [v] as the two bytes at offsets 58 and 59.
    - The sizes of the path buffers ([DIR_MAX] and the like) are not
      tracked: strings are lists of any length. The 1520 bytes of an
      answer frame are tracked where a request can make the server
      write past them, which is in READFILE; no other handler writes
      beyond offset 85.
    - Diagnostic output ([fprintf], [DBG]) has no effect on the state
      and is left out. *)

From Stdlib Require Import ZArith Lia Sorted.
From stdpp Require Import base option list gmap strings.

Local Open Scope Z_scope.

(** ** Bytes and C strings *)

Module Bytes.

(** The bytes of a string literal. *)
Definition of_string (s : string) : list Z :=
  (λ a, Z.of_nat (Ascii.nat_of_ascii a)) <$> String.list_ascii_of_string s.

(** [buf[i]] inside a buffer that is known to be large enough (the
    receive buffer, an answer frame, an 11-byte FCB block). *)
Definition get (buf : list Z) (i : Z) : Z :=
  if i <? 0 then 0 else default 0 (buf !! Z.to_nat i).

(** [buf[i] = v], the buffer extended when it was modelled too short. *)
Definition set (buf : list Z) (i : Z) (v : Z) : list Z :=
  let n := Z.to_nat i in
  if decide (n < length buf)%nat then <[n := v]> buf
  else buf ++ replicate (n - length buf) 0 ++ [v].

(** [memcpy(buf + off, data, length data)]. *)
Definition write (buf : list Z) (off : Z) (data : list Z) : list Z :=
  let n := Z.to_nat off in
  take n (buf ++ replicate (n - length buf) 0) ++ data ++ drop (n + length data) buf.

(** The [len] bytes at [buf + off], read as zero where the model of the
    buffer ends. *)
Definition sub (buf : list Z) (off len : Z) : list Z :=
  (λ k, get buf (off + Z.of_nat k)) <$> seq 0 (Z.to_nat len).

(** The C string that starts a buffer: the bytes before the first NUL. *)
Fixpoint cstr (buf : list Z) : list Z :=
  match buf with
  | [] => []
  | c :: r => if c =? 0 then [] else c :: cstr r
  end.

(** [s[j]] of a C string: the terminator at index [length s], nothing
    beyond it. *)
Definition rd (s : list Z) (j : nat) : option Z := (s ++ [0]) !! j.

(** A 16-bit and a 32-bit little-endian field. *)
Definition le16 (buf : list Z) (off : Z) : Z :=
  get buf off + 256 * get buf (off + 1).

Definition le32 (buf : list Z) (off : Z) : Z :=
  get buf off + 256 * get buf (off + 1)
  + 65536 * get buf (off + 2) + 16777216 * get buf (off + 3).

Definition put16 (v : Z) : list Z :=
  [Z.land v 255; Z.land (Z.shiftr v 8) 255].

Definition put32 (v : Z) : list Z :=
  [Z.land v 255; Z.land (Z.shiftr v 8) 255;
   Z.land (Z.shiftr v 16) 255; Z.land (Z.shiftr v 24) 255].

End Bytes.

Import Bytes.

(** The conversion to a 32-bit and to a 64-bit unsigned integer (the
    value modulo 2^32 and 2^64), and to a 32-bit signed one. *)
Definition u32 (x : Z) : Z := Z.land x 4294967295.
Definition u64 (x : Z) : Z := Z.land x 18446744073709551615.
Definition int32 (x : Z) : Z := u32 (x + 2147483648) - 2147483648.

(** ** Characters ([fs.c], [ethersrv.c]) *)

Definition ch_dot : Z := 46.
Definition ch_space : Z := 32.
Definition ch_slash : Z := 47.
Definition ch_backslash : Z := 92.
Definition ch_question : Z := 63.
Definition ch_colon : Z := 58.

(** [upchar]: turns a character into its upper-case variant. *)
Definition upchar (c : Z) : Z :=
  if (97 <=? c) && (c <=? 122) then c - 32 else c.

(** [lochar]: turns a character into its low-case variant. *)
Definition lochar (c : Z) : Z :=
  if (65 <=? c) && (c <=? 90) then c + 32 else c.

(** [lostring(s, -1)]: the count runs out only after 2^32 characters, so
    the whole string is lowered. *)
Definition lostring (s : list Z) : list Z := lochar <$> s.

(** [charreplace]: replaces all [rep] chars in string [s] by [repby]. *)
Definition charreplace (s : list Z) (rep repby : Z) : list Z :=
  (λ c, if c =? rep then repby else c) <$> s.

(** ** FCB names ([fs.c]) *)

(** First loop of [filename2fcb]: [for (i = 0; i < 8; i++) { if (s[i] !=
    '.') break; d[i] = '.'; }]. [fuel] is [8 - i]. *)
Fixpoint fcb_dots (fuel : nat) (s : list Z) (i : nat) (d : list Z)
  : option (nat * list Z) :=
  match fuel with
  | O => Some (i, d)
  | S fuel' =>
      c ← rd s i;
      if c =? ch_dot then fcb_dots fuel' s (S i) (<[i := ch_dot]> d)
      else Some (i, d)
  end.

(** [while (s[j] == ' ') j++;] The loop stops at the terminator at the
    latest; [fuel] bounds the characters left. *)
Fixpoint skip_spaces (fuel : nat) (s : list Z) (j : nat) : option nat :=
  match fuel with
  | O => None
  | S fuel' =>
      c ← rd s j;
      if c =? ch_space then skip_spaces fuel' s (S j) else Some j
  end.

(** Second loop of [filename2fcb]: the base name, up to 8 characters or
    the first dot. A space is skipped, and the character after the
    spaces is stored whatever it is: when it is the terminator, [j]
    moves past the end of the string and the next test of [s[j]] is a
    read out of the string. [fuel] is [8 - i]. *)
Fixpoint fcb_base (fuel : nat) (s : list Z) (i j : nat) (d : list Z)
  : option (nat * list Z) :=
  match fuel with
  | O => Some (i, d)
  | S fuel' =>
      c ← rd s j;
      if (c =? ch_dot) || (c =? 0) then Some (i, d)
      else
        j' ← skip_spaces (S (length s)) s j;
        c' ← rd s j';
        fcb_base fuel' s (S i) (S j') (<[i := upchar c']> d)
  end.

(** The fast forward "to either the first dot or NULL-terminator" of the
    string that starts at [s + i]: what is left from there on. *)
Fixpoint fcb_forward (s : list Z) : list Z :=
  match s with
  | [] => []
  | c :: r => if (c =? ch_dot) || (c =? 0) then s else fcb_forward r
  end.

(** Last loop of [filename2fcb]: the extension, up to 3 characters.
    [fuel] is [3 - j], [k] the index written in [d]. *)
Fixpoint fcb_ext (fuel : nat) (s : list Z) (k : nat) (d : list Z) : list Z :=
  match fuel with
  | O => d
  | S fuel' =>
      match s with
      | [] => d
      | c :: r =>
          if (c =? ch_dot) || (c =? 0) || (c =? ch_space) then d
          else fcb_ext fuel' r (S k) (<[k := upchar c]> d)
      end
  end.

(** [filename2fcb]: translates a filename string into a fcb-style block
    ("FILE0001TXT"). The result is the 11-byte block [d]. *)
Definition filename2fcb (s : list Z) : option (list Z) :=
  let d := replicate 11 ch_space in
  '(i, d) ← fcb_dots 8 s 0 d;
  '(i, d) ← fcb_base (8 - i) s i i d;
  match fcb_forward (drop i s) with
  | [] => Some d
  | c :: r => if c =? 0 then Some d else Some (fcb_ext 3 r 8 d)
  end.

(** [matchfile2mask]: match FCB-style filename to a FCB-style mask
    ("FILE0001???"), returns 0 if matching, non-zero otherwise. *)
Definition matchfile2mask (msk fil : list Z) : Z :=
  if forallb (λ i, negb (negb (upchar (get fil i) =? upchar (get msk i))
                         && negb (get msk i =? ch_question)))
             (Z.of_nat <$> seq 0 11)
  then 0 else -1.


(** ** The host operating system

    The C library and system calls the server uses, as an interface.
    The state of the host filesystem is [hostfs]; a call that only
    observes it is a function of it, a call that changes it returns the
    new state with its result. Paths are C strings. *)

(** What [stat] reports and the server reads. *)
Record stat_t := Stat { st_isdir : bool; st_size : Z; st_mtime : Z }.

(** What [localtime] returns ([struct tm]). *)
Record tm_t := Tm {
  tm_year : Z; tm_mon : Z; tm_mday : Z; tm_hour : Z; tm_min : Z; tm_sec : Z }.

(** A directory entry ([struct dirent]). *)
Record dirent := Dirent { d_name : list Z; d_type : Z }.

Definition DT_DIR : Z := 4.
Definition DT_REG : Z := 8.

Class Host := {
  hostfs : Type;
  (** [stat(path, &statbuf)]: [None] when it fails. *)
  h_stat : hostfs → list Z → option stat_t;
  (** [opendir(path)] and the sequence of [readdir] results: [None] when
      [opendir] returns NULL. *)
  h_readdir : hostfs → list Z → option (list dirent);
  (** [open(path, O_RDONLY)] then [ioctl(fd, FAT_IOCTL_GET_ATTRIBUTES)]:
      [None] when [open] fails, [Some None] when the ioctl fails. *)
  h_fat_get : hostfs → list Z → option (option Z);
  (** [open] then [ioctl(fd, FAT_IOCTL_SET_ATTRIBUTES)]: [None] when
      [open] fails, else the result of the ioctl. *)
  h_fat_set : list Z → Z → hostfs → option Z * hostfs;
  h_localtime : Z → tm_t;
  (** [statvfs]: [f_blocks], [f_frsize], [f_bfree], [f_bsize]. *)
  h_statvfs : hostfs → list Z → option (Z * Z * Z * Z);
  h_mkdir : list Z → hostfs → Z * hostfs;
  h_rmdir : list Z → hostfs → Z * hostfs;
  h_chdir : list Z → hostfs → Z * hostfs;
  h_unlink : list Z → hostfs → Z * hostfs;
  h_rename : list Z → list Z → hostfs → Z * hostfs;
  h_truncate : list Z → Z → hostfs → Z * hostfs;
  (** [fopen(path, "wb")] and [fclose]: [false] when [fopen] fails. *)
  h_create : list Z → hostfs → bool * hostfs;
  (** [fopen(path, "rb")], [fseek(offset)], [fread(len)]: [None] when
      [fopen] or [fseek] fails, else the bytes read. *)
  h_read : hostfs → list Z → Z → Z → option (list Z);
  (** [fopen(path, "r+b")], [fseek(offset)], [fwrite(data)]: [None] when
      [fopen] or [fseek] fails, else the count [fwrite] returns. *)
  h_write : list Z → Z → list Z → hostfs → option Z * hostfs;
}.

(** What a request finds in its environment besides the filesystem:
    the clock, whether the allocator delivers, and the contents of the
    variables the C code reads without having set them. *)
Record env := Env {
  env_now : Z;                 (* time(NULL) *)
  env_strdup_ok : bool;        (* strdup returns non-NULL *)
  env_calloc : nat;            (* list nodes calloc can still deliver *)
  env_uninit : Z;              (* an unset unsigned long long *)
  env_uninit_props : list Z * Z * Z * Z;  (* an unset struct fileprops *)
}.

(** ** The file database ([fs.c]) *)

(** Modelled from the spec: [fs.h] is not among the sources. The file
    properties record has the fields [fattr] (DOS attribute byte),
    [fsize] (32-bit byte count), [ftime] (32-bit DOS packed time) and
    [fcbname] (11-byte FCB). *)
Record fileprops := Fileprops {
  fcbname : list Z; fsize : Z; ftime : Z; fattr : Z }.

(** A local [struct fileprops] that was declared and not set. *)
Definition uninit_props (E : env) : fileprops :=
  let '(n, s, t, a) := env_uninit_props E in Fileprops n s t a.

(** A record after [memset(.., 0, ..)] or [calloc]. *)
Definition fileprops_zero : fileprops :=
  Fileprops (replicate 11 0) 0 0 0.

(** Modelled from the spec: the DOS attribute bits (bit 0 RO, 1 HIDDEN,
    2 SYSTEM, 3 VOLUME, 4 DIR, 5 ARCHIVE, 6 DEVICE) and the two flags of
    [findfile], declared in the absent [fs.h]; the spec names the flags
    IS_ROOT and IS_FAT, two distinct bits. *)
Definition FAT_RO : Z := 1.
Definition FAT_HID : Z := 2.
Definition FAT_SYS : Z := 4.
Definition FAT_VOL : Z := 8.
Definition FAT_DIR : Z := 16.
Definition FAT_ARC : Z := 32.
Definition FFILE_ISROOT : Z := 1.
Definition FFILE_ISFAT : Z := 2.

(** The [dirlist] pointer of a slot: NULL, the head of a linked list of
    at least one node, or a pointer to nodes that were freed. *)
Inductive dirptr :=
  | DirNull
  | DirNodes (l : list fileprops)
  | DirFreed.

(** [d == NULL]. *)
Definition dirptr_null (d : dirptr) : bool :=
  match d with
  | DirNull => true
  | _ => false
  end.

(** [struct sfsdb]. [name = None] is the NULL pointer. *)
Record sfsdb := Sfsdb {
  name : option (list Z); lastused : Z; dirlist : dirptr }.

Definition sfsdb_zero : sfsdb := Sfsdb None 0 DirNull.

(** [fsdb[65536]], zero-initialised: a slot that was never written is
    absent from the map. *)
Definition fsdb_get (db : gmap Z sfsdb) (i : Z) : sfsdb :=
  default sfsdb_zero (db !! i).

(** [freedirlist]: NULL and a list are fine, freed nodes are not. *)
Definition freedirlist (d : dirptr) : option unit :=
  match d with
  | DirFreed => None
  | _ => Some ()
  end.

(** The scan of [getitemss] on a slot that is not the one looked for:
    its last usage is checked and the slot removed if older than one
    hour. *)
Definition getitemss_age (now i : Z) (db : gmap Z sfsdb)
  : option (gmap Z sfsdb) :=
  let e := fsdb_get db i in
  if now - lastused e >? 3600
  then _ ← freedirlist (dirlist e); Some (<[i := sfsdb_zero]> db)
  else Some db.

(** Then the slot is remembered if it is the first free one, otherwise
    if it is the oldest entry so far. *)
Definition getitemss_pick (i : Z) (db : gmap Z sfsdb) (firstfree oldest : Z)
  : Z * Z :=
  let e := fsdb_get db i in
  if (firstfree =? 65535) && bool_decide (name e = None) then (i, oldest)
  else if lastused (fsdb_get db oldest) >? lastused e then (firstfree, i)
  else (firstfree, oldest).

(** The loop of [getitemss], for [i] up to [0xffff]: the result is
    [inl i] at the [return(i)], else the state after the loop. [fuel]
    is [0xffff - i]. *)
Fixpoint getitemss_scan (fuel : nat) (now : Z) (f : list Z) (i : Z)
    (db : gmap Z sfsdb) (firstfree oldest : Z)
  : option (Z * gmap Z sfsdb + gmap Z sfsdb * Z * Z) :=
  match fuel with
  | O => Some (inr (db, firstfree, oldest))
  | S fuel' =>
      let e := fsdb_get db i in
      if decide (name e = Some f)
      then Some (inl (i, <[i := Sfsdb (name e) now (dirlist e)]> db))
      else
        db ← getitemss_age now i db;
        let '(firstfree, oldest) := getitemss_pick i db firstfree oldest in
        getitemss_scan fuel' now f (i + 1) db firstfree oldest
  end.

(** [getitemss]: registers the item into the file cache and returns its
    id, or [0xffff] on error. *)
Definition getitemss (E : env) (f : list Z) (db : gmap Z sfsdb)
  : option (Z * gmap Z sfsdb) :=
  let now := env_now E in
  r ← getitemss_scan (Z.to_nat 65535) now f 0 db 65535 0;
  match r with
  | inl found => Some found
  | inr (db, firstfree, oldest) =>
      '(db, firstfree) ←
        (if firstfree =? 65535
         then _ ← freedirlist (dirlist (fsdb_get db oldest));
              Some (<[oldest := sfsdb_zero]> db, oldest)
         else Some (db, firstfree));
      let e := fsdb_get db firstfree in
      if env_strdup_ok E
      then Some (firstfree, <[firstfree := Sfsdb (Some f) now (dirlist e)]> db)
      else Some (65535, <[firstfree := Sfsdb None (lastused e) (dirlist e)]> db)
  end.

(** [sstoitem]: the name of slot [ss], [None] for the NULL pointer. *)
Definition sstoitem (db : gmap Z sfsdb) (ss : Z) : option (list Z) :=
  name (fsdb_get db ss).

Section WithHost.
Context `{H : Host}.

(** [time2dos]: converts a [time_t] into a DWORD with DOS (FAT-style)
    timestamp bits; [res] is an [unsigned long] of 64 bits. *)
Definition time2dos (t : Z) : Z :=
  let w := u64 in
  let lt := h_localtime t in
  let res := w (tm_year lt - 80) in
  let res := w (Z.shiftl res 4) in
  let res := Z.lor res (w (tm_mon lt + 1)) in
  let res := w (Z.shiftl res 5) in
  let res := Z.lor res (w (tm_mday lt)) in
  let res := w (Z.shiftl res 5) in
  let res := Z.lor res (w (tm_hour lt)) in
  let res := w (Z.shiftl res 6) in
  let res := Z.lor res (w (tm_min lt)) in
  let res := w (Z.shiftl res 5) in
  Z.lor res (w (Z.shiftr (tm_sec lt) 1)).

(** The file part of a path, as [getitemattr] finds it: what follows the
    last slash or backslash that is not the last character. *)
Fixpoint fname_of (i fname : list Z) : list Z :=
  match i with
  | [] => fname
  | c :: r =>
      let more := match r with [] => false | c' :: _ => negb (c' =? 0) end in
      fname_of r (if ((c =? ch_slash) || (c =? ch_backslash)) && more
                  then r else fname)
  end.

(** An assignment to a field of [*fprops], when [fprops != NULL]. *)
Definition with_props (g : fileprops → fileprops) (fprops : option fileprops)
  : option fileprops :=
  match fprops with
  | Some p => Some (g p)
  | None => None
  end.

(** [getitemattr]: provides DOS-like attributes for item [i], as well as
    size, filling [fprops] accordingly; returns the item's attributes or
    [0xff] on error. [fprops = None] is the NULL pointer, otherwise it
    holds what the caller's record contains. The Linux variant. *)
Definition getitemattr (fs : hostfs) (i : list Z) (fprops : option fileprops)
    (fatflag : Z) : option (Z * option fileprops) :=
  match h_stat fs i with
  | None => Some (255, fprops)
  | Some sb =>
      match (match fprops with
             | None => Some None
             | Some _ =>
                 match filename2fcb (fname_of i i) with
                 | None => None
                 | Some fcb =>
                     Some (Some (Fileprops fcb 0
                                   (u32 (time2dos (st_mtime sb))) 0))
                 end
             end) with
      | None => None
      | Some fprops =>
          if st_isdir sb
          then Some (16, with_props (λ p, Fileprops (fcbname p) (fsize p) (ftime p) 16) fprops)
          else
            let fprops :=
              with_props (λ p, Fileprops (fcbname p) (u32 (st_size sb))
                                 (ftime p) (fattr p)) fprops in
            if fatflag =? 0 then Some (32, fprops)
            else match h_fat_get fs i with
                 | None => Some (255, fprops)
                 | Some None => Some (0, fprops)
                 | Some (Some attr) =>
                     Some (attr mod 256,
                           with_props (λ p, Fileprops (fcbname p) (fsize p)
                                              (ftime p) (attr mod 256)) fprops)
                 end
      end
  end.

(** [setitemattr]: set attributes [fattr] on file [i]; returns 0 on
    success, non-zero otherwise. *)
Definition setitemattr (i : list Z) (fattr : Z) (fs : hostfs) : Z * hostfs :=
  match h_fat_set i fattr fs with
  | (None, fs) => (-1, fs)
  | (Some res, fs) => (if res <? 0 then -1 else 0, fs)
  end.

(** [gendirlist]: generates a directory listing for [root] and returns
    the number of entries, or a negative value on error. The old list is
    freed first and the pointer is only overwritten by the first new
    node, so it is left dangling when no node is made. *)
Definition gendirlist (E : env) (fs : hostfs) (root : sfsdb) (fatflag : Z)
  : option (Z * sfsdb) :=
  _ ← freedirlist (dirlist root);
  nm ← name root;
  let stale := match dirlist root with DirNodes _ => DirFreed | d => d end in
  match h_readdir fs nm with
  | None => Some (-1, Sfsdb (name root) (lastused root) stale)
  | Some ents =>
      nodes ← mapM (λ de,
                 r ← getitemattr fs (nm ++ [ch_slash] ++ d_name de)
                       (Some fileprops_zero) fatflag;
                 r.2)
               (take (env_calloc E) ents);
      Some (Z.of_nat (length nodes),
            Sfsdb (name root) (lastused root)
                  (match nodes with [] => stale | _ => DirNodes nodes end))
  end.

(** The tests of the loop of [findfile] on one entry of the listing,
    after the forward to the start position. *)
Definition attr_match (attr fattr : Z) : bool :=
  if attr =? 8 then negb (Z.land fattr 8 =? 0)
  else Z.lor attr (Z.land fattr 22) =? attr.

Definition entry_match (fcbtmpl : list Z) (attr flags : Z) (e : fileprops)
  : bool :=
  negb ((get (fcbname e) 0 =? ch_dot) && negb (Z.land flags FFILE_ISROOT =? 0))
  && (matchfile2mask fcbtmpl (fcbname e) =? 0)
  && attr_match attr (fattr e).

(** The loop of [findfile] over the linked list, [n] counting the nodes
    passed: the first node after position [nth] that passes the tests,
    with its position. *)
Fixpoint findfile_walk (fcbtmpl : list Z) (attr flags : Z)
    (l : list fileprops) (n nth : Z) : option (Z * fileprops) :=
  match l with
  | [] => None
  | e :: r =>
      let n := n + 1 in
      if n <=? nth then findfile_walk fcbtmpl attr flags r n nth
      else if entry_match fcbtmpl attr flags e then Some (n, e)
      else findfile_walk fcbtmpl attr flags r n nth
  end.

(** [findfile]: searches for a file matching the FCB-style template in
    directory [dss] with at most attributes [attr]. The result is the
    return value, the record copied to [f] (if any), the new [*nth] (an
    [unsigned short]) and the file database. *)
Definition findfile (E : env) (fs : hostfs) (db : gmap Z sfsdb) (dss : Z)
    (fcbtmpl : list Z) (attr : Z) (nth : Z) (flags : Z)
  : option (Z * option fileprops * Z * gmap Z sfsdb) :=
  '(count, db) ←
    (if (nth =? 0) || dirptr_null (dirlist (fsdb_get db dss))
     then '(count, e) ← gendirlist E fs (fsdb_get db dss)
                          (Z.land flags FFILE_ISFAT mod 256);
          Some (count, <[dss := e]> db)
     else Some (0, db));
  if count <? 0 then Some (-1, None, nth, db)
  else
    match dirlist (fsdb_get db dss) with
    | DirFreed => None
    | DirNull => Some (-1, None, nth, db)
    | DirNodes l =>
        match findfile_walk fcbtmpl attr flags l 0 nth with
        | Some (n, e) => Some (0, Some e, n mod 65536, db)
        | None => Some (-1, None, nth, db)
        end
    end.

(** [createfile]: creates or truncates a file [fn] in directory [d] with
    attributes [attr]; returns 0 on success (and [f] filled), non-zero
    otherwise. *)
Definition createfile (f : fileprops) (d fn : list Z) (attr fatflag : Z)
    (fs : hostfs) : option (Z * fileprops * hostfs) :=
  let fullpath := d ++ [ch_slash] ++ fn in
  match h_create fullpath fs with
  | (false, fs) => Some (-1, f, fs)
  | (true, fs) =>
      let fs := if fatflag =? 0 then fs else (setitemattr fullpath attr fs).2 in
      r ← getitemattr fs fullpath (Some f) fatflag;
      Some (0, default f r.2, fs)
  end.

(** [diskinfo]: returns the disk's total size in bytes, or 0 on error,
    and sets [dfree], which keeps what it held on error. *)
Definition diskinfo (fs : hostfs) (path : list Z) (dfree : Z) : Z * Z :=
  match h_statvfs fs path with
  | None => (0, dfree)
  | Some (f_blocks, f_frsize, f_bfree, f_bsize) =>
      (u64 (f_blocks * f_frsize), u64 (f_bfree * f_bsize))
  end.

Definition makedir (d : list Z) (fs : hostfs) : Z * hostfs := h_mkdir d fs.
Definition remdir (d : list Z) (fs : hostfs) : Z * hostfs := h_rmdir d fs.
Definition changedir (d : list Z) (fs : hostfs) : Z * hostfs := h_chdir d fs.
Definition renfile (fn1 fn2 : list Z) (fs : hostfs) : Z * hostfs :=
  h_rename fn1 fn2 fs.

(** [readfile]: reads [len] bytes from file [fss], from [offset];
    returns the amount of bytes read, with the bytes, or a negative
    value on error. *)
Definition readfile (fs : hostfs) (db : gmap Z sfsdb) (fss offset len : Z)
  : Z * list Z :=
  match name (fsdb_get db fss) with
  | None => (-1, [])
  | Some fname =>
      match h_read fs fname offset len with
      | None => (-1, [])
      | Some bytes => (Z.of_nat (length bytes), bytes)
      end
  end.

(** [writefile]: writes [len] bytes from [buff] to file [fss], starting
    at [offset]; returns the amount of bytes written or a negative value
    on error. A length of 0 means truncate or extend; the result of
    [truncate] is only reported on [stderr]. *)
Definition writefile (buff : list Z) (db : gmap Z sfsdb) (fss offset len : Z)
    (fs : hostfs) : Z * hostfs :=
  match name (fsdb_get db fss) with
  | None => (-1, fs)
  | Some fname =>
      if len =? 0 then (0, (h_truncate fname offset fs).2)
      else match h_write fname offset buff fs with
           | (None, fs) => (-1, fs)
           | (Some res, fs) => (res, fs)
           end
  end.

(** The first loop of [delfiles]: whether the pattern holds a '?', and
    the index of its last '/' (0 if there is none). *)
Fixpoint delfiles_scan (pattern : list Z) (i : Z) (ispattern : bool)
    (fileoffset : Z) : bool * Z :=
  match pattern with
  | [] => (ispattern, fileoffset)
  | c :: r =>
      delfiles_scan r (i + 1) (ispattern || (c =? ch_question))
                    (if c =? ch_slash then i else fileoffset)
  end.

(** The directory loop of [delfiles]: directories are skipped, an entry
    whose FCB matches the mask is unlinked. *)
Fixpoint delfiles_loop (dir filfcb : list Z) (ents : list dirent)
    (fs : hostfs) : option hostfs :=
  match ents with
  | [] => Some fs
  | de :: r =>
      if d_type de =? DT_DIR then delfiles_loop dir filfcb r fs
      else
        dirnamefcb ← filename2fcb (d_name de);
        if matchfile2mask filfcb dirnamefcb =? 0
        then delfiles_loop dir filfcb r
               (h_unlink (dir ++ [ch_slash] ++ d_name de) fs).2
        else delfiles_loop dir filfcb r fs
  end.

(** [delfiles]: remove all files matching the pattern; returns the
    number of removed files if any found, or -1 on error or if no
    matching file found. *)
Definition delfiles (pattern : list Z) (fs : hostfs) : option (Z * hostfs) :=
  let '(ispattern, fileoffset) := delfiles_scan pattern 0 false 0 in
  if negb ispattern then
    match h_unlink pattern fs with
    | (r, fs) => Some (if r =? 0 then 1 else -1, fs)
    end
  else
    let dir := take (Z.to_nat fileoffset) pattern in
    let fil := drop (Z.to_nat fileoffset + 1) pattern in
    filfcb ← filename2fcb fil;
    match h_readdir fs dir with
    | None => Some (-1, fs)
    | Some ents => fs ← delfiles_loop dir filfcb ents fs; Some (0, fs)
    end.

(** [getfopsize]: returns the size of an open file (or -1 on error). *)
Definition getfopsize (fs : hostfs) (db : gmap Z sfsdb) (fss : Z)
    (fprops : fileprops) : option Z :=
  match name (fsdb_get db fss) with
  | None => Some (-1)
  | Some fname =>
      r ← getitemattr fs fname (Some fprops) 0;
      if r.1 =? 255 then Some (-1) else Some (fsize (default fprops r.2))
  end.

(** [strtok(src, "/")] and the calls [strtok(NULL, "/")] that follow: the
    non-empty pieces between slashes. *)
Fixpoint strtok_slash (s cur : list Z) : list (list Z) :=
  match s with
  | [] => match cur with [] => [] | _ => [reverse cur] end
  | c :: r =>
      if c =? ch_slash
      then match cur with
           | [] => strtok_slash r []
           | _ => reverse cur :: strtok_slash r []
           end
      else strtok_slash r (c :: cur)
  end.

(** The [readdir] loop of [shorttolong] for one component: the name of
    the first entry, "." and ".." apart, whose FCB block equals the one
    searched under [strcmp], and that is a directory unless the
    component is the last. *)
Fixpoint shorttolong_find (to_find_fcb : list Z) (last : bool)
    (ents : list dirent) : option (option (list Z)) :=
  match ents with
  | [] => Some None
  | de :: r =>
      if bool_decide (d_name de = [ch_dot])
         || bool_decide (d_name de = [ch_dot; ch_dot])
      then shorttolong_find to_find_fcb last r
      else
        tmp_fcb ← filename2fcb (d_name de);
        if bool_decide (cstr tmp_fcb = cstr to_find_fcb)
        then if negb last && negb (d_type de =? DT_DIR)
             then shorttolong_find to_find_fcb last r
             else Some (Some (d_name de))
        else shorttolong_find to_find_fcb last r
  end.

(** The token loop of [shorttolong]. *)
Fixpoint shorttolong_walk (fs : hostfs) (toks : list (list Z)) (dst : list Z)
  : option (Z * list Z) :=
  match toks with
  | [] => Some (0, dst)
  | tmpdir :: next =>
      to_find_fcb ← filename2fcb tmpdir;
      match h_readdir fs dst with
      | None => Some (-1, dst)
      | Some ents =>
          let last := match next with [] => true | _ => false end in
          r ← shorttolong_find to_find_fcb last ents;
          match r with
          | Some nm =>
              shorttolong_walk fs next
                (dst ++ nm ++ (if last then [] else [ch_slash]))
          | None => Some (-1, dst ++ tmpdir)
          end
      end
  end.

(** [shorttolong]: the host path of the DOS path [src], which starts
    with [root]; the result is the return value and the string written
    to [dst]. *)
Definition shorttolong (fs : hostfs) (src root : list Z)
  : option (Z * list Z) :=
  if negb (bool_decide (take (length root) src = root)) then None
  else
    let src := drop (length root) src in
    let dst := root ++ [ch_slash] in
    if negb (default 0 (rd src 0) =? ch_slash) then Some (-1, dst)
    else shorttolong_walk fs (strtok_slash (drop 1 src) []) dst.

(** ** The dispatcher ([ethersrv.c]) *)

(** An entry of the answer cache: the entire frame that was sent (its
    first 6 bytes are the client's MAC), the time of the answer and the
    frame's length. *)
Record struct_answcache := Answ {
  frame : list Z; timestamp : Z; len : Z }.

Definition answ_zero : struct_answcache := Answ (replicate 1520 0) 0 0.

Definition ANSWCACHESZ : nat := 16.

(** The opcodes ([enum AL_SUBFUNCTIONS]). *)
Definition AL_RMDIR : Z := 1.
Definition AL_MKDIR : Z := 3.
Definition AL_CHDIR : Z := 5.
Definition AL_CLSFIL : Z := 6.
Definition AL_READFIL : Z := 8.
Definition AL_WRITEFIL : Z := 9.
Definition AL_LOCKFIL : Z := 10.
Definition AL_UNLOCKFIL : Z := 11.
Definition AL_DISKSPACE : Z := 12.
Definition AL_SETATTR : Z := 14.
Definition AL_GETATTR : Z := 15.
Definition AL_RENAME : Z := 17.
Definition AL_DELETE : Z := 19.
Definition AL_OPEN : Z := 22.
Definition AL_CREATE : Z := 23.
Definition AL_FINDFIRST : Z := 27.
Definition AL_FINDNEXT : Z := 28.
Definition AL_SKFMEND : Z := 33.
Definition AL_SPOPNFIL : Z := 46.

(** [findcacheentry]: finds the cache entry related to the given
    client, as an index of [answcache]. [fuel] is [ANSWCACHESZ - i]. *)
Fixpoint findcacheentry_loop (fuel : nat) (cache : list struct_answcache)
    (clientmac : list Z) (i oldest : nat) : nat :=
  match fuel with
  | O => oldest
  | S fuel' =>
      let e := default answ_zero (cache !! i) in
      if bool_decide (sub (frame e) 0 6 = sub clientmac 0 6) then i
      else findcacheentry_loop fuel' cache clientmac (S i)
             (if timestamp e <? timestamp (default answ_zero (cache !! oldest))
              then i else oldest)
  end.

Definition findcacheentry (cache : list struct_answcache) (clientmac : list Z)
  : nat :=
  findcacheentry_loop ANSWCACHESZ cache clientmac 0 0.

(** [isroot]: checks whether [dir] belongs to the root directory; the
    code returns 1 if so and 0 otherwise. [dir = None] is NULL. *)
Fixpoint skip_slashes (dir : list Z) : list Z :=
  match dir with
  | c :: r => if c =? ch_slash then skip_slashes r else dir
  | [] => []
  end.

Definition isroot (root : list Z) (dir : option (list Z)) : option Z :=
  dir ← dir;
  let dir := skip_slashes (drop (length root) dir) in
  Some (if bool_decide (ch_slash ∈ dir) then 0 else 1).

(** The loop of [explodepath] that finds the last slash or backslash. *)
Fixpoint explodepath_last (fuel : nat) (buf : list Z) (off i last : Z) : Z :=
  match fuel with
  | O => last
  | S fuel' =>
      let c := get buf (off + i) in
      explodepath_last fuel' buf off (i + 1)
        (if (c =? ch_backslash) || (c =? ch_slash) then i else last)
  end.

(** [explodepath]: explode a full X:\DIR\FILE????.??? search path, the
    [sourcelen] bytes at [buf + off], into directory and mask, both as
    the C strings the two buffers then hold. *)
Definition explodepath (buf : list Z) (off sourcelen : Z)
  : option (list Z * list Z) :=
  let '(off, sourcelen) :=
    if get buf (off + 1) =? ch_colon then (off + 2, sourcelen - 2)
    else (off, sourcelen) in
  let lastbackslash := explodepath_last (Z.to_nat sourcelen) buf off 0 0 in
  if sourcelen - (lastbackslash + 1) <? 0 then None
  else Some (cstr (sub buf off (lastbackslash + 1)),
             cstr (sub buf (off + lastbackslash + 1)
                       (sourcelen - (lastbackslash + 1)))).

(** [copy_after_last_slash]: copies everything after the last slash of
    [src] into [dst], which is left alone when there is no slash. *)
Fixpoint copy_after_last_slash (dst src : list Z) : list Z :=
  match src with
  | [] => dst
  | c :: r => copy_after_last_slash (if c =? ch_slash then r else dst) r
  end.

(** The path a handler composes: [sprintf(path, "%s/", root)], the [n]
    bytes at [buf + off] copied behind it and terminated, [lostring] on
    the copied part and [charreplace] of backslashes on all of it.
    [None] for a negative [n]. *)
Definition dospath (root buf : list Z) (off n : Z) : option (list Z) :=
  if n <? 0 then None
  else Some (charreplace (root ++ [ch_slash] ++ lostring (cstr (sub buf off n)))
                         ch_backslash ch_slash).

(** The test of [process] on the cache entry: same seq, same mac and a
    length above 0. *)
Definition cache_hit (answer : struct_answcache) (reqbuff : list Z) : bool :=
  (get (frame answer) 57 =? get reqbuff 57)
  && bool_decide (sub (frame answer) 0 6 = sub reqbuff 6 6)
  && (len answer >? 0).

(** The state the dispatcher works on, its answer frame apart. *)
Record server := Server { fsdb : gmap Z sfsdb; fs : hostfs }.

(** [*ax = v]. *)
Definition set_ax (answ : list Z) (v : Z) : list Z := write answ 58 (put16 v).

(** The serialised directory entry of FINDFIRST, FINDNEXT and OPEN. *)
Definition put_props (p : fileprops) : list Z :=
  [fattr p mod 256] ++ sub (fcbname p) 0 11 ++ put32 (ftime p) ++ put32 (fsize p).

Section Process.
Variables (E : env) (mymac : list Z) (rootarray : Z → option (list Z))
          (drivesfat : Z → Z).

(** The handlers. Each gets the frame [answ] with its header ready and
    AX = 0, the receive buffer [reqbuff] (not yet advanced: the payload
    starts at index 60), the payload length [reqbufflen] and the state,
    and gives the value [process] returns, the frame and the state. *)
Definition result : Type := option (Z * list Z * server).

Definition ret (reslen : Z) (answ : list Z) (st : server) : result :=
  Some (reslen + 60, answ, st).

Definition do_diskspace (root : list Z) (answ : list Z) (st : server)
  : result :=
  let '(diskspace, freespace) := diskinfo (fs st) root (u64 (env_uninit E)) in
  let diskspace := if diskspace >=? 2 * 1024 * 1024 * 1024
                   then 2 * 1024 * 1024 * 1024 - 1 else diskspace in
  let freespace := if freespace >=? 2 * 1024 * 1024 * 1024
                   then 2 * 1024 * 1024 * 1024 - 1 else freespace in
  let answ := set_ax answ 1 in
  let answ := write answ 62 (put16 32768) in
  let diskspace := Z.shiftr diskspace 15 in
  let freespace := Z.shiftr freespace 15 in
  let answ := write answ 60 (put16 diskspace) in
  let answ := write answ 64 (put16 freespace) in
  ret 6 answ st.

(** READFILE. [readfile] reads up to [len] bytes, a 16-bit number of
    the request, to [frame + 60] of the 1520-byte frame of the cache
    entry, and nothing compares [len] with the 1460 bytes that are left
    there: a read of more bytes writes past the frame, which is
    undefined. *)
Definition do_readfil (reqbuff answ : list Z) (st : server) : result :=
  let offset := le32 reqbuff 60 in
  let fileid := le16 reqbuff 64 in
  let len := le16 reqbuff 66 in
  let '(readlen, bytes) := readfile (fs st) (fsdb st) fileid offset len in
  if readlen <? 0 then ret 0 (set_ax answ 5) st
  else if readlen >? 1520 - 60 then None
  else ret readlen (write answ 60 bytes) st.

Definition do_writefil (reqbuff : list Z) (reqbufflen : Z) (answ : list Z)
    (st : server) : result :=
  let offset := le32 reqbuff 60 in
  let fileid := le16 reqbuff 64 in
  let len := (reqbufflen - 6) mod 65536 in
  let '(writelen, fs') :=
    writefile (sub reqbuff 66 len) (fsdb st) fileid offset len (fs st) in
  let st := Server (fsdb st) fs' in
  if writelen <? 0 then ret 0 (set_ax answ 5) st
  else ret 2 (write answ 60 (put16 writelen)) st.

(** The flags FINDFIRST and FINDNEXT give to [findfile]. *)
Definition find_flags (isroot_res : Z) (reqdrv : Z) : Z :=
  Z.lor (if isroot_res =? 0 then 0 else FFILE_ISROOT)
        (if drivesfat reqdrv =? 0 then 0 else FFILE_ISFAT).

Definition do_findfirst (reqdrv : Z) (root reqbuff : list Z) (reqbufflen : Z)
    (answ : list Z) (st : server) : result :=
  let fattr := get reqbuff 60 in
  '(dir, filemask) ← explodepath reqbuff 61 (reqbufflen - 1);
  let filemask := lostring filemask in
  let directory :=
    charreplace (root ++ [ch_slash] ++ lostring dir) ch_backslash ch_slash in
  filemaskfcb ← filename2fcb filemask;
  r ← isroot root (Some directory);
  let flags := find_flags r reqdrv in
  '(_, host_directory) ← shorttolong (fs st) directory root;
  '(dirss, db) ← getitemss E host_directory (fsdb st);
  if dirss =? 65535 then ret 0 (set_ax answ 18) (Server db (fs st))
  else
    '(res, fprops, fpos, db) ←
      findfile E (fs st) db dirss filemaskfcb fattr 0 flags;
    let st := Server db (fs st) in
    if negb (res =? 0) then ret 0 (set_ax answ 18) st
    else
      let fprops := default (uninit_props E) fprops in
      ret 24 (write answ 60 (put_props fprops ++ put16 dirss ++ put16 fpos)) st.

Definition do_findnext (reqdrv : Z) (root reqbuff : list Z) (answ : list Z)
    (st : server) : result :=
  let dirss := le16 reqbuff 60 in
  let fpos := le16 reqbuff 62 in
  let fattr := get reqbuff 64 in
  let fcbmask := sub reqbuff 65 11 in
  r ← isroot root (sstoitem (fsdb st) dirss);
  let flags := find_flags r reqdrv in
  '(res, fprops, fpos, db) ←
    findfile E (fs st) (fsdb st) dirss fcbmask fattr fpos flags;
  let st := Server db (fs st) in
  if negb (res =? 0) then ret 0 (set_ax answ 18) st
  else
    let fprops := default (uninit_props E) fprops in
    ret 24 (write answ 60 (put_props fprops ++ put16 dirss ++ put16 fpos)) st.

Definition do_mkrmdir (query : Z) (root reqbuff : list Z) (reqbufflen : Z)
    (answ : list Z) (st : server) : result :=
  directory ← dospath root reqbuff 60 reqbufflen;
  '(_, host_directory) ← shorttolong (fs st) directory root;
  let '(r, fs') := if query =? AL_MKDIR then makedir host_directory (fs st)
                   else remdir host_directory (fs st) in
  ret 0 (if r =? 0 then answ else set_ax answ 29) (Server (fsdb st) fs').

Definition do_chdir (root reqbuff : list Z) (reqbufflen : Z) (answ : list Z)
    (st : server) : result :=
  directory ← dospath root reqbuff 60 reqbufflen;
  '(r, host_directory) ← shorttolong (fs st) directory root;
  if negb (r =? 0) then ret 0 (set_ax answ 3) st
  else
    let '(r, fs') := changedir host_directory (fs st) in
    ret 0 (if r =? 0 then answ else set_ax answ 3) (Server (fsdb st) fs').

Definition do_setattr (reqdrv : Z) (root reqbuff : list Z) (reqbufflen : Z)
    (answ : list Z) (st : server) : result :=
  let fattr := get reqbuff 60 in
  fullpathname ← dospath root reqbuff 61 (reqbufflen - 1);
  '(r, host_fullpathname) ← shorttolong (fs st) fullpathname root;
  if negb (r =? 0) then ret 0 (set_ax answ 2) st
  else if negb (drivesfat reqdrv =? 0) then
    let '(r, fs') := setitemattr host_fullpathname fattr (fs st) in
    ret 0 (if r =? 0 then answ else set_ax answ 2) (Server (fsdb st) fs')
  else ret 0 answ st.

Definition do_getattr (reqdrv : Z) (root reqbuff : list Z) (reqbufflen : Z)
    (answ : list Z) (st : server) : result :=
  fullpathname ← dospath root reqbuff 60 reqbufflen;
  '(r, host_fullpathname) ← shorttolong (fs st) fullpathname root;
  if negb (r =? 0) then ret 0 (set_ax answ 2) st
  else
    '(attr, fprops) ← getitemattr (fs st) host_fullpathname
                        (Some (uninit_props E)) (drivesfat reqdrv);
    if attr =? 255 then ret 0 (set_ax answ 2) st
    else
      let fprops := default (uninit_props E) fprops in
      ret 9 (write answ 60 (put32 (ftime fprops) ++ put32 (fsize fprops)
                             ++ [fattr fprops mod 256])) st.

Definition do_rename (root reqbuff : list Z) (reqbufflen : Z) (answ : list Z)
    (st : server) : result :=
  let fn1len := get reqbuff 60 in
  let fn2len := reqbufflen - (1 + fn1len) in
  if reqbufflen >? fn1len then
    fn1 ← dospath root reqbuff 61 fn1len;
    fn2 ← dospath root reqbuff (61 + fn1len) fn2len;
    '(r, host_fn1) ← shorttolong (fs st) fn1 root;
    if negb (r =? 0) then ret 0 answ st
    else
      '(attr, _) ← getitemattr (fs st) fn2 None 0;
      if negb (attr =? 255) then ret 0 (set_ax answ 5) st
      else
        let '(r, fs') := renfile host_fn1 fn2 (fs st) in
        ret 0 (if r =? 0 then answ else set_ax answ 5) (Server (fsdb st) fs')
  else ret 0 (set_ax answ 2) st.

Definition do_delete (reqdrv : Z) (root reqbuff : list Z) (reqbufflen : Z)
    (answ : list Z) (st : server) : result :=
  fullpathname ← dospath root reqbuff 60 reqbufflen;
  '(r, host_fullpathname) ← shorttolong (fs st) fullpathname root;
  if negb (r =? 0) then ret 0 (set_ax answ 2) st
  else
    '(attr, _) ← getitemattr (fs st) host_fullpathname None (drivesfat reqdrv);
    if negb (Z.land attr 1 =? 0) then ret 0 (set_ax answ 5) st
    else
      '(r, fs') ← delfiles host_fullpathname (fs st);
      ret 0 (if r <? 0 then set_ax answ 2 else answ) (Server (fsdb st) fs').

(** OPEN is only about "does this file exist", CREATE "please create or
    truncate this file", SPOPNFIL is a combination of both with extra
    flags. The result of the three branches is [fileres], the record,
    [spopres], [resopenmode] and the filesystem. *)
Definition open_action (query : Z) (reqdrv : Z)
    (stackattr actioncode spopen_openmode : Z)
    (host_directory fname host_fullpathname : list Z) (fs0 : hostfs)
  : option (Z * fileprops * Z * Z * hostfs) :=
  let fprops := uninit_props E in
  let create fprops spopres :=
    '(fileres, fprops, fs') ← createfile fprops host_directory fname
                                (Z.land stackattr 255) (drivesfat reqdrv) fs0;
    Some (fileres, fprops, if fileres =? 0 then spopres else 0, fs') in
  if query =? AL_CREATE then
    '(fileres, fprops, _, fs') ← create fprops 0;
    Some (fileres, fprops, 0, 2, fs')
  else if query =? AL_SPOPNFIL then
    '(attr, fp) ← getitemattr fs0 host_fullpathname (Some fprops) (drivesfat reqdrv);
    let fprops := default fprops fp in
    let resopenmode := Z.land spopen_openmode 127 in
    if attr =? 255 then
      if Z.land actioncode 240 =? 16 then
        '(fileres, fprops, spopres, fs') ← create fprops 2;
        Some (fileres, fprops, spopres, resopenmode, fs')
      else Some (1, fprops, 0, resopenmode, fs0)
    else if negb (Z.land attr (Z.lor FAT_VOL FAT_DIR) =? 0) then
      Some (1, fprops, 0, resopenmode, fs0)
    else if Z.land actioncode 15 =? 1 then Some (0, fprops, 1, resopenmode, fs0)
    else if Z.land actioncode 15 =? 2 then
      '(fileres, fprops, spopres, fs') ← create fprops 3;
      Some (fileres, fprops, spopres, resopenmode, fs')
    else Some (1, fprops, 0, resopenmode, fs0)
  else
    let resopenmode := Z.land stackattr 255 in
    '(attr, fp) ← getitemattr fs0 host_fullpathname (Some fprops) (drivesfat reqdrv);
    let fprops := default fprops fp in
    if negb (attr =? 255) && (Z.land attr (Z.lor FAT_VOL FAT_DIR) =? 0)
    then Some (0, fprops, 0, resopenmode, fs0)
    else Some (1, fprops, 0, resopenmode, fs0).

Definition do_open (query : Z) (reqdrv : Z) (root reqbuff : list Z)
    (reqbufflen : Z) (answ : list Z) (st : server) : result :=
  let stackattr := le16 reqbuff 60 in
  let actioncode := le16 reqbuff 62 in
  let spopen_openmode := le16 reqbuff 64 in
  fullpathname ← dospath root reqbuff 66 (reqbufflen - 6);
  '(dir, fname) ← explodepath reqbuff 66 (reqbufflen - 6);
  let directory :=
    charreplace (root ++ [ch_slash] ++ lostring dir) ch_backslash ch_slash in
  '(r, host_directory) ← shorttolong (fs st) directory root;
  let '(r, fs') := if r =? 0 then changedir host_directory (fs st)
                   else (r, fs st) in
  if negb (r =? 0) then ret 0 (set_ax answ 3) (Server (fsdb st) fs')
  else
    '(r, host_fullpathname) ← shorttolong fs' fullpathname root;
    let fname := if r =? 0 then copy_after_last_slash fname host_fullpathname
                 else fname in
    let host_fullpathname :=
      if r =? 0 then host_fullpathname
      else host_directory ++ [ch_slash] ++ fname in
    _ ← filename2fcb fname;
    '(fileres, fprops, spopres, resopenmode, fs') ←
      open_action query reqdrv stackattr actioncode spopen_openmode
                  host_directory fname host_fullpathname fs';
    if negb (fileres =? 0) then ret 0 (set_ax answ 2) (Server (fsdb st) fs')
    else
      '(fileid, db) ← getitemss E host_fullpathname (fsdb st);
      if fileid =? 65535 then Some (-1, answ, Server db fs')
      else
        ret 25 (write answ 60
                  (put_props fprops ++ put16 fileid ++ put16 spopres
                   ++ [resopenmode mod 256]))
            (Server db fs').

Definition do_skfmend (reqbuff : list Z) (answ : list Z) (st : server)
  : result :=
  let offs := int32 (le32 reqbuff 60) in
  let fss := le16 reqbuff 64 in
  let offs := if offs >? 0 then 0 else offs in
  fsize ← getfopsize (fs st) (fsdb st) fss (uninit_props E);
  if fsize <? 0 then ret 0 (set_ax answ 2) st
  else
    let offs := int32 (offs + fsize) in
    let offs := if offs <? 0 then 0 else offs in
    ret 4 (write answ 60 (put32 offs)) st.

(** The header of the answer: all headers copied as-is, then source and
    destination addresses switched. *)
Definition reply_header (answ reqbuff : list Z) : list Z :=
  let answ := write answ 0 (sub reqbuff 0 60) in
  let answ := write answ 0 (sub answ 6 6) in
  write answ 6 (sub mymac 0 6).

(** The chain of tests of [process] on the exact query; [reqbufflen] is
    the length of the payload. *)
Definition handle_query (query reqdrv : Z) (root reqbuff : list Z)
    (reqbufflen : Z) (answ : list Z) (st : server) : result :=
  if query =? AL_DISKSPACE then do_diskspace root answ st
  else if (query =? AL_READFIL) && (reqbufflen =? 8)
  then do_readfil reqbuff answ st
  else if (query =? AL_WRITEFIL) && (reqbufflen >=? 6)
  then do_writefil reqbuff reqbufflen answ st
  else if (query =? AL_LOCKFIL) || (query =? AL_UNLOCKFIL)
  then ret 0 answ st
  else if query =? AL_FINDFIRST
  then do_findfirst reqdrv root reqbuff reqbufflen answ st
  else if query =? AL_FINDNEXT
  then do_findnext reqdrv root reqbuff answ st
  else if (query =? AL_MKDIR) || (query =? AL_RMDIR)
  then do_mkrmdir query root reqbuff reqbufflen answ st
  else if query =? AL_CHDIR
  then do_chdir root reqbuff reqbufflen answ st
  else if query =? AL_CLSFIL then ret 0 (set_ax answ 0) st
  else if (query =? AL_SETATTR) && (reqbufflen >? 1)
  then do_setattr reqdrv root reqbuff reqbufflen answ st
  else if (query =? AL_GETATTR) && (reqbufflen >? 0)
  then do_getattr reqdrv root reqbuff reqbufflen answ st
  else if (query =? AL_RENAME) && (reqbufflen >? 2)
  then do_rename root reqbuff reqbufflen answ st
  else if query =? AL_DELETE
  then do_delete reqdrv root reqbuff reqbufflen answ st
  else if (query =? AL_OPEN) || (query =? AL_CREATE)
          || (query =? AL_SPOPNFIL)
  then do_open query reqdrv root reqbuff reqbufflen answ st
  else if (query =? AL_SKFMEND) && (reqbufflen =? 6)
  then do_skfmend reqbuff answ st
  else Some (-1, answ, st).

(** [process]: the dispatcher. The result is the returned length (or a
    negative code), the answer frame and the state; [answer] is the
    cache entry of the client. *)
Definition process (answer : struct_answcache) (reqbuff : list Z)
    (reqbufflen : Z) (st : server) : result :=
  let answ := frame answer in
  if reqbufflen <? 60 then Some (-1, answ, st)
  else if cache_hit answer reqbuff then Some (len answer, answ, st)
  else
    let answ := reply_header answ reqbuff in
    let reqdrv := Z.land (get reqbuff 58) 31 in
    let query := get reqbuff 59 in
    let reqbufflen := reqbufflen - 60 in
    if (reqdrv <? 2) || (reqdrv >? 25) then Some (-3, answ, st)
    else
      match rootarray reqdrv with
      | None => Some (-3, answ, st)
      | Some root =>
          handle_query query reqdrv root reqbuff reqbufflen (set_ax answ 0) st
      end.

(** [bsdsum]: compute the BSD checksum of the bytes, in an [unsigned
    short]. *)
Definition bsdsum (bytes : list Z) : Z :=
  fold_left (λ res b,
               (Z.lor (Z.shiftl res 15) (Z.shiftr res 1) mod 65536 + b) mod 65536)
            bytes 0.

(** What the main loop does to a frame that passed the checks, from
    [findcacheentry] to the update of the cache entry: the value
    [process] returned, the index of the entry, the cache and the
    state. *)
Definition dispatch (cache : list struct_answcache) (buff : list Z) (len : Z)
    (st : server) : option (Z * nat * list struct_answcache * server) :=
  let cacheptr := findcacheentry cache (sub buff 6 6) in
  let answer := default answ_zero (cache !! cacheptr) in
  '(len, answ, st) ← process answer buff len st;
  let answer :=
    if len >=? 0 then Answ answ (env_now E) (len mod 65536)
    else Answ answ (timestamp answer) 0 in
  Some (len, cacheptr, <[cacheptr := answer]> cache, st).

(** What the main loop then does to the answer before it sends it: the
    frame's length and the checksum are filled in; nothing is sent for a
    result that is not positive. The result is the frame left in the
    cache entry and the bytes sent. *)
Definition finalize (cksumflag : Z) (len : Z) (answ : list Z)
  : list Z * option (list Z) :=
  if len >? 0 then
    let answ := set answ 52 (Z.land len 255) in
    let answ := set answ 53 (Z.land (Z.shiftr len 8) 255) in
    let answ :=
      if negb (cksumflag =? 0) then
        let newcksum := bsdsum (sub answ 56 ((len - 56) mod 65536)) in
        let answ := set answ 54 (Z.land newcksum 255) in
        let answ := set answ 55 (Z.land (Z.shiftr newcksum 8) 255) in
        set answ 56 (Z.lor (get answ 56) 128)
      else
        let answ := set answ 54 0 in
        let answ := set answ 55 0 in
        set answ 56 (Z.land (get answ 56) 127) in
    (answ, Some (sub answ 0 len))
  else (answ, None).

(** One turn of the main loop on a received frame of [buflen] bytes in
    [buff]: the cache, the state and the frame sent, if any. *)
Definition serve (cache : list struct_answcache) (buff : list Z) (buflen : Z)
    (st : server)
  : option (list struct_answcache * server * option (list Z)) :=
  let ignored := Some (cache, st, None) in
  if buflen <? 60 then ignored
  else if negb (bool_decide (sub mymac 0 6 = sub buff 0 6))
          && negb (bool_decide (replicate 6 255 = sub buff 0 6)) then ignored
  else if negb ((get buff 12 =? 237) && (get buff 13 =? 245)) then ignored
  else if negb (Z.land (get buff 56) 127 =? 2) then ignored
  else
    let cksumflag := Z.shiftr (get buff 56) 7 in
    let edf5framelen := le16 buff 52 in
    if negb (edf5framelen =? 0)
       && ((edf5framelen >? buflen) || (edf5framelen <? 60)) then ignored
    else
      let buflen := if edf5framelen =? 0 then buflen else edf5framelen in
      if negb (cksumflag =? 0)
         && negb (bsdsum (sub buff 56 ((buflen - 56) mod 65536)) =? le16 buff 54)
      then ignored
      else
        '(res, cacheptr, cache, st) ← dispatch cache buff buflen st;
        let answer := default answ_zero (cache !! cacheptr) in
        let '(answ, sent) := finalize cksumflag res (frame answer) in
        Some (<[cacheptr := Answ answ (timestamp answer) (len answer)]> cache,
              st, sent).

End Process.

End WithHost.

(** ** A host to run the server on

    A small POSIX-like filesystem that implements the interface, for the
    worked examples: a map from absolute paths (lists of components) to
    nodes, each directory with its entries in [readdir] order. *)

Module SimHost.

Inductive node :=
  | NFile (attr : Z) (mtime : Z) (data : list Z)
  | NDir (mtime : Z) (entries : list (list Z)).

Record simfs := SimFs {
  nodes : gmap (list (list Z)) node;
  is_fat : bool;            (* whether the FAT ioctls work *)
  vfs : Z * Z * Z * Z;      (* what statvfs reports *)
}.

(** The components of an absolute path: empty components and "." are
    dropped, ".." leaves the directory entered last. [None] for a path
    that does not start with a slash. *)
Fixpoint canon_walk (toks : list (list Z)) (acc : list (list Z))
  : list (list Z) :=
  match toks with
  | [] => reverse acc
  | t :: r =>
      if bool_decide (t = [ch_dot]) then canon_walk r acc
      else if bool_decide (t = [ch_dot; ch_dot]) then canon_walk r (tail acc)
      else canon_walk r (t :: acc)
  end.

Definition canon (path : list Z) : option (list (list Z)) :=
  match path with
  | c :: _ => if c =? ch_slash then Some (canon_walk (strtok_slash path []) [])
              else None
  | [] => None
  end.

Definition lookup (fs : simfs) (path : list Z) : option (list (list Z) * node) :=
  p ← canon path; n ← nodes fs !! p; Some (p, n).

Definition parent (p : list (list Z)) : list (list Z) := take (length p - 1) p.
Definition leaf (p : list (list Z)) : list Z := default [] (last p).

Definition with_nodes (fs : simfs) (m : gmap (list (list Z)) node) : simfs :=
  SimFs m (is_fat fs) (vfs fs).

(** Add or remove the entry [nm] of the directory [dir]. *)
Definition link (dir : list (list Z)) (nm : list Z)
    (m : gmap (list (list Z)) node) : gmap (list (list Z)) node :=
  match m !! dir with
  | Some (NDir t es) =>
      if bool_decide (nm ∈ es) then m else <[dir := NDir t (es ++ [nm])]> m
  | _ => m
  end.

Definition unlink_entry (dir : list (list Z)) (nm : list Z)
    (m : gmap (list (list Z)) node) : gmap (list (list Z)) node :=
  match m !! dir with
  | Some (NDir t es) =>
      <[dir := NDir t (filter (λ e, e ≠ nm) es)]> m
  | _ => m
  end.

Definition is_dir (m : gmap (list (list Z)) node) (p : list (list Z)) : bool :=
  match m !! p with
  | Some (NDir _ _) => true
  | _ => false
  end.

Definition stat (fs : simfs) (path : list Z) : option stat_t :=
  '(_, n) ← lookup fs path;
  Some (match n with
        | NFile _ t data => Stat false (Z.of_nat (length data)) t
        | NDir t _ => Stat true 4096 t
        end).

Definition readdir (fs : simfs) (path : list Z) : option (list dirent) :=
  '(p, n) ← lookup fs path;
  match n with
  | NFile _ _ _ => None
  | NDir _ es =>
      Some ([Dirent [ch_dot] DT_DIR; Dirent [ch_dot; ch_dot] DT_DIR]
            ++ ((λ nm, Dirent nm (if is_dir (nodes fs) (p ++ [nm])
                                  then DT_DIR else DT_REG)) <$> es))
  end.

Definition fat_get (fs : simfs) (path : list Z) : option (option Z) :=
  '(_, n) ← lookup fs path;
  Some (if is_fat fs
        then Some (match n with NFile a _ _ => a | NDir _ _ => FAT_DIR end)
        else None).

Definition fat_set (path : list Z) (attr : Z) (fs : simfs)
  : option Z * simfs :=
  match lookup fs path with
  | None => (None, fs)
  | Some (p, n) =>
      if is_fat fs then
        match n with
        | NFile _ t data => (Some 0, with_nodes fs (<[p := NFile attr t data]> (nodes fs)))
        | NDir _ _ => (Some 0, fs)
        end
      else (Some (-1), fs)
  end.

(** A calendar of months of 28 days, enough for a clock. *)
Definition localtime (t : Z) : tm_t :=
  let days := t / 86400 in
  Tm (70 + days / 336) ((days / 28) mod 12) (days mod 28 + 1)
     ((t / 3600) mod 24) ((t / 60) mod 60) (t mod 60).

Definition statvfs (fs : simfs) (path : list Z) : option (Z * Z * Z * Z) :=
  _ ← lookup fs path; Some (vfs fs).

Definition mkdir (path : list Z) (fs : simfs) : Z * simfs :=
  match canon path with
  | None => (-1, fs)
  | Some p =>
      match p, nodes fs !! p with
      | _ :: _, None =>
          if is_dir (nodes fs) (parent p)
          then (0, with_nodes fs (<[p := NDir 0 []]> (link (parent p) (leaf p) (nodes fs))))
          else (-1, fs)
      | _, _ => (-1, fs)
      end
  end.

Definition rmdir (path : list Z) (fs : simfs) : Z * simfs :=
  match lookup fs path with
  | Some ((_ :: _) as p, NDir _ []) =>
      (0, with_nodes fs (delete p (unlink_entry (parent p) (leaf p) (nodes fs))))
  | _ => (-1, fs)
  end.

Definition chdir (path : list Z) (fs : simfs) : Z * simfs :=
  match lookup fs path with
  | Some (_, NDir _ _) => (0, fs)
  | _ => (-1, fs)
  end.

Definition unlink (path : list Z) (fs : simfs) : Z * simfs :=
  match lookup fs path with
  | Some (p, NFile _ _ _) =>
      (0, with_nodes fs (delete p (unlink_entry (parent p) (leaf p) (nodes fs))))
  | _ => (-1, fs)
  end.

(** [rename] of a file, onto nothing or onto a file. *)
Definition rename (old new : list Z) (fs : simfs) : Z * simfs :=
  match lookup fs old, canon new with
  | Some (p, NFile a t data), Some ((_ :: _) as q) =>
      if is_dir (nodes fs) (parent q) && negb (is_dir (nodes fs) q) then
        let m := delete p (unlink_entry (parent p) (leaf p) (nodes fs)) in
        (0, with_nodes fs (<[q := NFile a t data]> (link (parent q) (leaf q) m)))
      else (-1, fs)
  | _, _ => (-1, fs)
  end.

Definition resize (n : nat) (data : list Z) : list Z :=
  take n data ++ replicate (n - length data) 0.

Definition truncate (path : list Z) (size : Z) (fs : simfs) : Z * simfs :=
  match lookup fs path with
  | Some (p, NFile a t data) =>
      if size <? 0 then (-1, fs)
      else (0, with_nodes fs (<[p := NFile a t (resize (Z.to_nat size) data)]> (nodes fs)))
  | _ => (-1, fs)
  end.

Definition create (path : list Z) (fs : simfs) : bool * simfs :=
  match canon path with
  | Some ((_ :: _) as p) =>
      match nodes fs !! p with
      | Some (NDir _ _) => (false, fs)
      | Some (NFile a t _) => (true, with_nodes fs (<[p := NFile a t []]> (nodes fs)))
      | None =>
          if is_dir (nodes fs) (parent p)
          then (true, with_nodes fs (<[p := NFile FAT_ARC 0 []]>
                                       (link (parent p) (leaf p) (nodes fs))))
          else (false, fs)
      end
  | _ => (false, fs)
  end.

Definition read (fs : simfs) (path : list Z) (offset len : Z)
  : option (list Z) :=
  match lookup fs path with
  | Some (_, NFile _ _ data) =>
      if offset <? 0 then None
      else Some (take (Z.to_nat len) (drop (Z.to_nat offset) data))
  | _ => None
  end.

Definition write (path : list Z) (offset : Z) (buff : list Z) (fs : simfs)
  : option Z * simfs :=
  match lookup fs path with
  | Some (p, NFile a t data) =>
      if offset <? 0 then (None, fs)
      else
        let o := Z.to_nat offset in
        let data := resize o data ++ buff ++ drop (o + length buff) data in
        (Some (Z.of_nat (length buff)),
         with_nodes fs (<[p := NFile a t data]> (nodes fs)))
  | _ => (None, fs)
  end.

#[export] Instance host : Host := {|
  hostfs := simfs;
  h_stat := stat;
  h_readdir := readdir;
  h_fat_get := fat_get;
  h_fat_set := fat_set;
  h_localtime := localtime;
  h_statvfs := statvfs;
  h_mkdir := mkdir;
  h_rmdir := rmdir;
  h_chdir := chdir;
  h_unlink := unlink;
  h_rename := rename;
  h_truncate := truncate;
  h_create := create;
  h_read := read;
  h_write := write;
|}.

(** A filesystem from a list of absolute paths: a path that ends in a
    slash is a directory, any other a file with the given bytes. The
    parent of each path is to come before it. *)
Definition add (path : string) (data : string) (fs : simfs) : simfs :=
  let path := of_string path in
  match canon path with
  | Some ((_ :: _) as p) =>
      let m := link (parent p) (leaf p) (nodes fs) in
      with_nodes fs
        (<[p := if bool_decide (last path = Some ch_slash) then NDir 0 []
                else NFile FAT_ARC 0 (of_string data)]> m)
  | _ => fs
  end.

Definition empty : simfs :=
  SimFs {[ [] := NDir 0 [] ]} false (0, 0, 0, 0).

End SimHost.

(** ** Frames and a server to try them on *)

Module Sample.
Import SimHost.

(** Equality of states is decidable, so that a run can be checked by
    computation. *)
#[export] Instance stat_eq_dec : EqDecision stat_t.
Proof. solve_decision. Defined.
#[export] Instance fileprops_eq_dec : EqDecision fileprops.
Proof. solve_decision. Defined.
#[export] Instance dirptr_eq_dec : EqDecision dirptr.
Proof. solve_decision. Defined.
#[export] Instance sfsdb_eq_dec : EqDecision sfsdb.
Proof. solve_decision. Defined.
#[export] Instance node_eq_dec : EqDecision node.
Proof. solve_decision. Defined.
#[export] Instance simfs_eq_dec : EqDecision simfs.
Proof. solve_decision. Defined.
#[export] Instance server_eq_dec : EqDecision (@server host).
Proof.
  intros [a b] [c d].
  destruct (decide (a = c)), (decide (b = d));
    [left; congruence | right; congruence ..].
Defined.
#[export] Instance answcache_eq_dec : EqDecision struct_answcache.
Proof. solve_decision. Defined.

(** A request frame: the two MACs, the ethertype, the padding, no frame
    length and no checksum, protocol version 2, then the sequence byte,
    the drive, the opcode and the payload. *)
Definition mkframe (dst src : list Z) (seq drv op : Z) (payload : list Z)
  : list Z :=
  dst ++ src ++ [237; 245] ++ replicate 38 0 ++ [0; 0; 0; 0; 2; seq; drv; op]
  ++ payload.

Definition server_mac : list Z := [2; 0; 0; 0; 0; 9].
Definition client_mac : list Z := [2; 0; 0; 0; 0; 1].

(** Drive C: is mapped to /srv, which is not on a FAT filesystem. *)
Definition rootarray (drv : Z) : option (list Z) :=
  if drv =? 2 then Some (of_string "/srv") else None.
Definition drivesfat (drv : Z) : Z := 0.

Definition E0 : env := Env 1000 true (Z.to_nat 100000) 0 ([], 0, 0, 0).

(** /srv holds the files a1.txt and b.txt and the directory Dir, with
    x.txt in it. *)
Definition fs0 : simfs :=
  add "/srv/Dir/x.txt" "hello"
    (add "/srv/Dir/" ""
       (add "/srv/b.txt" "b" (add "/srv/a1.txt" "abc" (add "/srv/" "" empty)))).

Definition st0 : server := Server ∅ fs0.

(** A request of the client on drive C: with sequence byte [seq]. *)
Definition request (seq op : Z) (payload : list Z) : list Z :=
  mkframe server_mac client_mac seq 2 op payload.

Definition run (answer : struct_answcache) (req : list Z) (st : server)
  : result :=
  process E0 server_mac rootarray drivesfat answer req (Z.of_nat (length req)) st.

(** One turn of the main loop of that server. *)
Definition turn `{H : Host} (roots : Z → option (list Z))
    (cache : list struct_answcache) (req : list Z) (st : server)
  : option (list struct_answcache * server * option (list Z)) :=
  serve E0 server_mac roots drivesfat cache req (Z.of_nat (length req)) st.

Definition cache0 : list struct_answcache := replicate ANSWCACHESZ answ_zero.

(** FINDFIRST for a path, and the FINDNEXT a client sends after the
    reply [prev]: it feeds the directory id and the position of the
    reply (its bytes 80..83) back, with the attribute byte and the FCB
    mask. *)
Definition findfirst_req (seq attr : Z) (path : string) : list Z :=
  request seq AL_FINDFIRST (attr :: of_string path).

Definition findnext_req (seq : Z) (prev : option (list Z)) (attr : Z)
    (mask : string) : list Z :=
  request seq AL_FINDNEXT (sub (default [] prev) 80 4 ++ [attr] ++ of_string mask).

(** What a reply to FINDFIRST or FINDNEXT says: AX, and for a reply of
    84 bytes the FCB name of the entry and the position. *)
Definition find_reply (r : option (list Z)) : Z * list Z * Z :=
  let f := default [] r in
  if Z.of_nat (length f) =? 84 then (le16 f 58, sub f 61 11, le16 f 82)
  else (le16 f 58, [], 0).

(** A FINDFIRST and the two FINDNEXT that follow it. *)
Definition find_three `{H : Host} (roots : Z → option (list Z)) (st : server)
    (attr : Z) (path mask : string) : option (list (Z * list Z * Z)) :=
  '(c1, st1, r1) ← turn roots cache0 (findfirst_req 1 attr path) st;
  '(c2, st2, r2) ← turn roots c1 (findnext_req 2 r1 attr mask) st1;
  '(c3, st3, r3) ← turn roots c2 (findnext_req 3 r2 attr mask) st2;
  Some [find_reply r1; find_reply r2; find_reply r3].

(** A second host, with a filesystem that cannot be written to and is
    given by one number [n]: its directory /big holds z1, then the [n]
    empty files f00000, f00001, ..., then z2, and nothing else exists.
    With the entries "." and ".." first, z1 is entry 3 of the directory
    and for [n = 65535] z2 is entry 65539. *)
Definition numbered_name (z : Z) : list Z :=
  [102; 48 + z / 10000 mod 10; 48 + z / 1000 mod 10; 48 + z / 100 mod 10;
   48 + z / 10 mod 10; 48 + z mod 10].

Fixpoint numbered (fuel : nat) (z : Z) : list (list Z) :=
  match fuel with
  | O => []
  | S fuel' => numbered_name z :: numbered fuel' (z + 1)
  end.

Definition big_names (n : Z) : list (list Z) :=
  [of_string "z1"] ++ numbered (Z.to_nat n) 0 ++ [of_string "z2"].

Definition big_is_name (n : Z) (nm : list Z) : bool :=
  bool_decide (nm = of_string "z1") || bool_decide (nm = of_string "z2")
  || match nm with
     | [_; a; b; c; d; e] =>
         let v := (((a - 48) * 10 + (b - 48)) * 10 + (c - 48)) * 10 + (d - 48) in
         let v := v * 10 + (e - 48) in
         (0 <=? v) && (v <? n) && bool_decide (nm = numbered_name v)
     | _ => false
     end.

(** What a path names: a directory ([true]), a file, or nothing. *)
Definition big_kind (n : Z) (path : list Z) : option bool :=
  p ← canon path;
  match p with
  | [] => Some true
  | [d] => if bool_decide (d = of_string "big") then Some true else None
  | [d; nm] =>
      if bool_decide (d = of_string "big") && big_is_name n nm
      then Some false else None
  | _ => None
  end.

Definition big_readdir (n : Z) (path : list Z) : option (list dirent) :=
  p ← canon path;
  let dots := [Dirent [ch_dot] DT_DIR; Dirent [ch_dot; ch_dot] DT_DIR] in
  match p with
  | [] => Some (dots ++ [Dirent (of_string "big") DT_DIR])
  | [d] =>
      if bool_decide (d = of_string "big")
      then Some (dots ++ ((λ nm, Dirent nm DT_REG) <$> big_names n))
      else None
  | _ => None
  end.

Definition big_host : Host := {|
  hostfs := Z;
  h_stat n path :=
    k ← big_kind n path;
    Some (if k : bool then Stat true 4096 0 else Stat false 0 0);
  h_readdir := big_readdir;
  h_fat_get n path := _ ← big_kind n path; Some None;
  h_fat_set path attr n :=
    (match big_kind n path with Some _ => Some (-1) | None => None end, n);
  h_localtime := localtime;
  h_statvfs n path := _ ← big_kind n path; Some (0, 0, 0, 0);
  h_mkdir path n := (-1, n);
  h_rmdir path n := (-1, n);
  h_chdir path n :=
    (match big_kind n path with Some true => 0 | _ => -1 end, n);
  h_unlink path n := (-1, n);
  h_rename old new n := (-1, n);
  h_truncate path size n := (-1, n);
  h_create path n := (false, n);
  h_read n path offset len :=
    match big_kind n path with
    | Some false => if offset <? 0 then None else Some []
    | _ => None
    end;
  h_write path offset buff n := (None, n);
|}.

Definition big_rootarray (drv : Z) : option (list Z) :=
  if drv =? 2 then Some (of_string "/big") else None.

Definition big_st (n : Z) : @server big_host := @Server big_host ∅ n.

(** The cache and the state after a DELETE of \A1.TXT with sequence byte
    0x42 was served. *)
Definition delete_req : list Z := request 66 AL_DELETE (of_string "\A1.TXT").

Definition after_delete : list struct_answcache * server :=
  match turn rootarray cache0 delete_req st0 with
  | Some (cache, st, _) => (cache, st)
  | None => (cache0, st0)
  end.

(** A filesystem of 1 GiB with 256 MiB free, in blocks of 4096 bytes. *)
Definition st_disk : server :=
  Server ∅ (SimFs (nodes fs0) false (262144, 4096, 65536, 4096)).

(** A file database whose slot 0 names a file that is no longer there. *)
Definition st_gone : server :=
  Server (<[0 := Sfsdb (Some (of_string "/srv/gone.txt")) 1000 DirNull]> ∅) fs0.

(** The first search of the root directory through [findfile], for every
    name, directories admitted, and what it leaves. *)
Definition db_root : gmap Z sfsdb :=
  <[0 := Sfsdb (Some (of_string "/srv/")) 1000 DirNull]> ∅.

(** The file database after [getitemss] put /srv/Dir into slot 1. *)
Definition db_dir : gmap Z sfsdb :=
  <[1 := Sfsdb (Some (of_string "/srv/Dir")) 1000 DirNull]> db_root.

Definition mask_all : list Z := of_string "???????????".

Definition root_first : option (Z * option fileprops * Z * gmap Z sfsdb) :=
  findfile E0 fs0 db_root 0 mask_all 16 0 FFILE_ISROOT.

Definition root_db1 : gmap Z sfsdb :=
  match root_first with
  | Some (_, _, _, db) => db
  | None => ∅
  end.

Definition root_listing : list fileprops :=
  match dirlist (fsdb_get root_db1 0) with
  | DirNodes l => l
  | _ => []
  end.

Definition root_e1 : fileprops :=
  match root_first with
  | Some (_, Some e, _, _) => e
  | _ => fileprops_zero
  end.

End Sample.

(** ** Notions the properties are stated with *)

(** No slot of the file database holds a pointer to freed list nodes. *)
Definition no_dangling (db : gmap Z sfsdb) : Prop :=
  ∀ j, dirlist (fsdb_get db j) ≠ DirFreed.

(** The entries of a listing that pass the tests of [findfile], each
    with its position, in the order of the listing; the first entry has
    position [n + 1]. *)
Fixpoint matching_from (fcbtmpl : list Z) (attr flags : Z)
    (l : list fileprops) (n : Z) : list (Z * fileprops) :=
  match l with
  | [] => []
  | e :: r =>
      (if entry_match fcbtmpl attr flags e then [(n + 1, e)] else [])
      ++ matching_from fcbtmpl attr flags r (n + 1)
  end.

(** The 8.3 name an FCB block is rendered as: the base bytes before the
    padding, then, when the extension is not empty, a dot and the
    extension bytes before the padding. *)
Fixpoint until_space (s : list Z) : list Z :=
  match s with
  | [] => []
  | c :: r => if c =? ch_space then [] else c :: until_space r
  end.

Definition fcb_render (b : list Z) : list Z :=
  until_space (take 8 b)
  ++ match until_space (drop 8 b) with
     | [] => []
     | ext => ch_dot :: ext
     end.

(** A character that is neither a dot, nor a NUL, nor a space; the
    longest prefix of such characters, and what follows it. *)
Definition plain (c : Z) : bool :=
  negb ((c =? ch_dot) || (c =? 0) || (c =? ch_space)).

Fixpoint while_plain (s : list Z) : list Z :=
  match s with
  | [] => []
  | c :: r => if plain c then c :: while_plain r else []
  end.

Fixpoint after_plain (s : list Z) : list Z :=
  match s with
  | [] => []
  | c :: r => if plain c then after_plain r else s
  end.

(** The number of leading dots of a string, up to [fuel]. *)
Fixpoint count_dots (fuel : nat) (s : list Z) : nat :=
  match fuel, s with
  | S fuel', c :: r => if c =? ch_dot then S (count_dots fuel' r) else 0%nat
  | _, _ => 0%nat
  end.

(** A field of [n] bytes, padded with spaces. *)
Definition pad (n : nat) (l : list Z) : list Z := take n (l ++ replicate n ch_space).

(** The extension field for what follows the base name. *)
Definition ext_of (tl : list Z) : list Z :=
  match tl with
  | c :: r => if c =? ch_dot then upchar <$> take 3 (while_plain r) else []
  | [] => []
  end.

(** The block of a name of [k] dots, a run [body] of plain characters
    and a rest [tl]. *)
Definition fcb_block (k : nat) (body tl : list Z) : list Z :=
  pad 8 (replicate k ch_dot ++ (upchar <$> take (8 - k) body)) ++ pad 3 (ext_of tl).

(** Case analysis on the integer comparisons of the goal. *)
Ltac zcase x :=
  lazymatch x with
  | (?u >? ?v) => rewrite (Z.gtb_ltb u v)
  | (?u >=? ?v) => rewrite (Z.geb_leb u v)
  | (?u =? ?v) => destruct (Z.eqb_spec u v)
  | (?u <? ?v) => destruct (Z.ltb_spec u v)
  | (?u <=? ?v) => destruct (Z.leb_spec u v)
  end.

Ltac zbool :=
  repeat (match goal with
          | |- context [Z.leb ?u ?v] => zcase (u <=? v)
          | |- context [Z.ltb ?u ?v] => zcase (u <? v)
          | |- context [Z.eqb ?u ?v] => zcase (u =? v)
          | |- context [Z.gtb ?u ?v] => zcase (u >? v)
          | |- context [Z.geb ?u ?v] => zcase (u >=? v)
          end);
  cbn [andb orb negb] in *; simpl; try lia.

(** The characters that end the base name, the base part of a string
    (what comes before the first of them) and the rest. *)
Definition stopc (c : Z) : bool := (c =? ch_dot) || (c =? 0).

Fixpoint base_part (s : list Z) : list Z :=
  match s with
  | [] => []
  | c :: r => if stopc c then [] else c :: base_part r
  end.

Fixpoint base_rest (s : list Z) : list Z :=
  match s with
  | [] => []
  | c :: r => if stopc c then s else base_rest r
  end.

(** A string without its spaces. *)
Definition unspaced (s : list Z) : list Z := filter (λ c, c ≠ ch_space) s.

(** The directory a list of names leads to: each name followed by a
    slash. *)
Fixpoint dir_of (names : list (list Z)) : list Z :=
  match names with
  | [] => []
  | n :: r => n ++ [ch_slash] ++ dir_of r
  end.

(** A byte that is not a lower-case letter. *)
Definition fcb_byte (b : Z) : Prop := ¬ (97 ≤ b ≤ 122).

(** Entry [j] of the answer cache, and the six bytes its frame starts
    with, which [findcacheentry] compares with the MAC of the client. *)
Definition cache_entry (cache : list struct_answcache) (j : nat)
  : struct_answcache :=
  default answ_zero (cache !! j).

Definition mac_of (cache : list struct_answcache) (j : nat) : list Z :=
  sub (frame (cache_entry cache j)) 0 6.

(** The two separators [explodepath] looks for. *)
Definition is_sep (c : Z) : bool := (c =? ch_backslash) || (c =? ch_slash).

(** What [gendirlist] stores for the directory entry [nm], found at
    [path]. *)
Definition listed `{H : Host} (fs0 : hostfs) (fatflag : Z) (path nm : list Z)
    (e : fileprops) : Prop :=
  match h_stat fs0 path with
  | None => e = fileprops_zero
  | Some sb =>
      Some (fcbname e) = filename2fcb nm
      ∧ ftime e = u32 (time2dos (st_mtime sb))
      ∧ if st_isdir sb then fattr e = 16 ∧ fsize e = 0
        else fsize e = u32 (st_size sb) ∧ (fatflag = 0 → fattr e = 0)
  end.

(** The directory entries the wildcard branch of [delfiles] unlinks:
    those that are no directories and whose FCB name matches the mask. *)
Definition delfiles_victim (filfcb : list Z) (de : dirent) : bool :=
  negb (d_type de =? DT_DIR)
  && match filename2fcb (d_name de) with
     | Some b => matchfile2mask filfcb b =? 0
     | None => false
     end.

(** Names joined by single slashes. *)
Fixpoint join_slash (names : list (list Z)) : list Z :=
  match names with
  | [] => []
  | [n] => n
  | n :: r => n ++ [ch_slash] ++ join_slash r
  end.

(** Two names with the same FCB block, compared as C strings, which is
    the comparison of [shorttolong]. *)
Definition same_fcb (tok nm : list Z) : Prop :=
  ∃ a b, filename2fcb tok = Some a ∧ filename2fcb nm = Some b
         ∧ cstr a = cstr b.

(** What every handler of [process] keeps: the 58 bytes of the header,
    and a result that is a length of at least 60, or -1 with the state
    as it was unless [strdup] failed. *)
Definition handled `{H : Host} (E : env) (answ : list Z) (st : server)
    (r : option (Z * list Z * server)) : Prop :=
  ∀ code answ' st', r = Some (code, answ', st') →
    (∀ i, 0 ≤ i < 58 → get answ' i = get answ i)
    ∧ (60 ≤ code ∨ (code = -1 ∧ (st' = st ∨ env_strdup_ok E = false))).

(** The powers of two of the DOS time stamp, as literals. *)
Ltac pow2 :=
  change (2 ^ 1) with 2 in *; change (2 ^ 4) with 16 in *;
  change (2 ^ 5) with 32 in *; change (2 ^ 6) with 64 in *;
  change (2 ^ 11) with 2048 in *; change (2 ^ 16) with 65536 in *;
  change (2 ^ 21) with 2097152 in *; change (2 ^ 25) with 33554432 in *;
  change (2 ^ 32) with 4294967296 in *;
  change (2 ^ 64) with 18446744073709551616 in *.

(** The tests of [handle_query] on a known opcode, evaluated. *)
Ltac query_tests :=
  repeat match goal with
    | |- context [(?a =? ?b)] =>
        let v := eval vm_compute in (a =? b) in
        match v with
        | true => change (a =? b) with true
        | false => change (a =? b) with false
        end
    end;
  cbn [andb orb negb].

(** * Properties *)

(** ** Bytes *)

Section BytesFacts.

Lemma get_lookup (buf : list Z) (i : Z) :
  0 ≤ i → get buf i = default 0 (buf !! Z.to_nat i).
Proof. intros Hi. unfold get. destruct (Z.ltb_spec i 0); [lia | done]. Qed.

Lemma get_write (buf data : list Z) (off i : Z) :
  0 ≤ off → 0 ≤ i →
  get (write buf off data) i =
    if (off <=? i) && (i <? off + Z.of_nat (length data))
    then get data (i - off) else get buf i.
Proof.
  intros Hoff Hi. rewrite (get_lookup (write _ _ _)) by lia. unfold write.
  set (n := Z.to_nat off). set (k := Z.to_nat i).
  assert (Hn : Z.of_nat n = off) by (unfold n; lia).
  assert (Hk : Z.of_nat k = i) by (unfold k; lia).
  assert (Hget : get buf i = default 0 (buf !! k)) by (by rewrite get_lookup).
  assert (Hdat : off ≤ i → get data (i - off) = default 0 (data !! (k - n)%nat)).
  { intros. rewrite get_lookup by lia. do 2 f_equal. lia. }
  clearbody n k.
  assert (Hlen : length (take n (buf ++ replicate (n - length buf) 0)) = n).
  { rewrite length_take, length_app, length_replicate. lia. }
  destruct (Z.leb_spec off i) as [Hle | Hlt]; simpl.
  - destruct (Z.ltb_spec i (off + Z.of_nat (length data))) as [Hin | Hout].
    + rewrite lookup_app_r by lia. rewrite Hlen.
      rewrite lookup_app_l by lia. by rewrite Hdat.
    + rewrite lookup_app_r by lia. rewrite Hlen.
      rewrite lookup_app_r by lia. rewrite lookup_drop, Hget.
      do 2 f_equal. lia.
  - rewrite lookup_app_l by lia.
    rewrite lookup_take_lt by lia. rewrite Hget.
    destruct (decide (k < length buf)%nat) as [Hkb | Hkb].
    + by rewrite lookup_app_l by lia.
    + rewrite lookup_app_r by lia.
      rewrite lookup_replicate_2 by lia.
      by rewrite lookup_ge_None_2 by lia.
Qed.

Lemma land_255 (v : Z) : Z.land v 255 = v mod 256.
Proof. change 255 with (Z.ones 8). by rewrite Z.land_ones by lia. Qed.

Lemma le16_bytes (v : Z) :
  0 ≤ v < 65536 → Z.land v 255 + 256 * Z.land (Z.shiftr v 8) 255 = v.
Proof.
  intros Hv. rewrite !land_255, Z.shiftr_div_pow2 by lia.
  change (2 ^ 8) with 256.
  rewrite (Z.mod_small (v / 256))
    by (split; [apply Z.div_pos; lia | apply Z.div_lt_upper_bound; lia]).
  pose proof (Z.div_mod v 256). lia.
Qed.

Lemma le16_put16 (buf : list Z) (off v : Z) :
  0 ≤ off → 0 ≤ v < 65536 → le16 (write buf off (put16 v)) off = v.
Proof.
  intros Hoff Hv. unfold le16. rewrite !get_write by lia.
  change (Z.of_nat (length (put16 v))) with 2.
  zbool. replace (off - off) with 0 by lia. replace (off + 1 - off) with 1 by lia.
  by apply le16_bytes.
Qed.

(** A 16-bit field is not touched by a write that lies beside it. *)
Lemma le16_write_other (buf data : list Z) (off o : Z) :
  0 ≤ off → 0 ≤ o →
  o + 2 ≤ off ∨ off + Z.of_nat (length data) ≤ o →
  le16 (write buf off data) o = le16 buf o.
Proof.
  intros Hoff Ho Hd. unfold le16. rewrite !get_write by lia.
  zbool; reflexivity.
Qed.

End BytesFacts.


Example filename2fcb_ex1 :
  filename2fcb (of_string "file0001.txt") = Some (of_string "FILE0001TXT").
Proof. reflexivity. Qed.

Example filename2fcb_ex2 :
  filename2fcb (of_string "a .txt") = Some (of_string "A.TXT      ").
Proof. reflexivity. Qed.

Example filename2fcb_ex3 : filename2fcb (of_string "a ") = None.
Proof. reflexivity. Qed.

Example filename2fcb_ex4 :
  filename2fcb (of_string "..") = Some (of_string "..         ").
Proof. reflexivity. Qed.

Example filename2fcb_ex5 :
  filename2fcb (of_string "A       TXT") = Some (of_string "ATXT       ").
Proof. reflexivity. Qed.

(** ** The attribute filter of [findfile] *)

Lemma testbit_22 (b : Z) : Z.testbit 22 b = true ↔ b = 1 ∨ b = 2 ∨ b = 4.
Proof.
  split.
  - intros Hb. destruct (Z.ltb_spec b 0) as [Hneg | Hpos].
    { by rewrite Z.testbit_neg_r in Hb. }
    destruct (Z.ltb_spec b 5) as [Hlt | Hge].
    + assert (Hc : b = 0 ∨ b = 1 ∨ b = 2 ∨ b = 3 ∨ b = 4) by lia.
      destruct Hc as [-> | [-> | [-> | [-> | ->]]]]; try discriminate; auto.
    + rewrite Z.bits_above_log2 in Hb; [done | lia |].
      change (Z.log2 22) with 4. lia.
  - by intros [-> | [-> | ->]].
Qed.

Lemma lor_land_at_most (attr fattr m : Z) :
  Z.lor attr (Z.land fattr m) = attr ↔
  ∀ b, Z.testbit m b = true → Z.testbit fattr b = true → Z.testbit attr b = true.
Proof.
  split.
  - intros Heq b Hm Hf. apply (f_equal (λ x, Z.testbit x b)) in Heq.
    rewrite Z.lor_spec, Z.land_spec, Hm, Hf in Heq.
    by destruct (Z.testbit attr b).
  - intros Hbits. apply Z.bits_inj. intros b.
    rewrite Z.lor_spec, Z.land_spec.
    destruct (Z.testbit m b) eqn:Hm, (Z.testbit fattr b) eqn:Hf;
      rewrite ?orb_false_r; try done.
    by rewrite (Hbits b Hm Hf).
Qed.

Lemma land_lxor_outside (f m c : Z) :
  Z.land m c = 0 → Z.land (Z.lxor f m) c = Z.land f c.
Proof.
  intros Hm. apply Z.bits_inj. intros b.
  apply (f_equal (λ x, Z.testbit x b)) in Hm.
  rewrite Z.land_spec, Z.bits_0 in Hm.
  rewrite !Z.land_spec, Z.lxor_spec.
  by destruct (Z.testbit f b), (Z.testbit m b), (Z.testbit c b).
Qed.

(** C4. In [findfile], an entry that reached the attribute test (it was
    not skipped as a dot entry of the root and its name matches the
    mask) is the one found exactly when [attr_match] holds. For the mask
    0x08 that is when the VOLUME bit (bit 3) of the entry is set. For
    any other mask it is when [(attr | (fattr & 0x16)) == attr], that is
    when every bit of the entry selected by 0x16 (bits 1, 2 and 4) is
    set in the mask too; flipping the RO bit (1) or the ARCHIVE bit
    (32) of the entry never changes the outcome. The loop stops at the
    first entry after the start position that passes. *)
Theorem findfile_attribute_filter (fcbtmpl : list Z) (attr flags : Z)
    (e : fileprops) :
  (∀ r n nth, nth < n + 1 →
     findfile_walk fcbtmpl attr flags (e :: r) n nth =
       if entry_match fcbtmpl attr flags e then Some (n + 1, e)
       else findfile_walk fcbtmpl attr flags r (n + 1) nth)
  ∧ (entry_match fcbtmpl attr flags e =
     negb ((get (fcbname e) 0 =? ch_dot)
           && negb (Z.land flags FFILE_ISROOT =? 0))
     && (matchfile2mask fcbtmpl (fcbname e) =? 0)
     && attr_match attr (fattr e))
  ∧ (attr = 8 →
       (attr_match attr (fattr e) = true ↔ Z.testbit (fattr e) 3 = true))
  ∧ (attr ≠ 8 →
       (attr_match attr (fattr e) = true ↔
          Z.lor attr (Z.land (fattr e) 22) = attr)
       ∧ (attr_match attr (fattr e) = true ↔
            ∀ b, b = 1 ∨ b = 2 ∨ b = 4 →
                 Z.testbit (fattr e) b = true → Z.testbit attr b = true))
  ∧ (∀ m, m = 1 ∨ m = 32 ∨ m = 33 →
       attr_match attr (Z.lxor (fattr e) m) = attr_match attr (fattr e)).
Proof.
  split.
  { intros r n nth Hn. cbn [findfile_walk].
    by destruct (Z.leb_spec (n + 1) nth); [lia |]. }
  split; [reflexivity |]. split; [| split].
  - intros ->. unfold attr_match. rewrite Z.eqb_refl.
    rewrite negb_true_iff, Z.eqb_neq.
    change 8 with (2 ^ 3). rewrite Z.land_comm.
    destruct (Z.testbit (fattr e) 3) eqn:Hb.
    + split; [done | intros _ Hz].
      apply (f_equal (λ x, Z.testbit x 3)) in Hz.
      rewrite Z.land_spec, Z.pow2_bits_true, Hb in Hz by lia. done.
    + split; [intros Hz; exfalso; apply Hz | done].
      apply Z.bits_inj. intros b. rewrite Z.land_spec, Z.bits_0.
      destruct (decide (b = 3)) as [-> | Hne]; [by rewrite Hb, andb_false_r |].
      destruct (Z.ltb_spec b 0); [by rewrite Z.testbit_neg_r by lia |].
      by rewrite Z.pow2_bits_false by lia.
  - intros Hne. unfold attr_match.
    destruct (Z.eqb_spec attr 8); [done |].
    rewrite Z.eqb_eq. split; [done |].
    rewrite lor_land_at_most. split.
    + intros Hb b Hsel. apply Hb. by apply testbit_22.
    + intros Hb b Hsel. apply Hb. by apply testbit_22.
  - intros m Hm. unfold attr_match.
    by destruct Hm as [-> | [-> | ->]]; rewrite !land_lxor_outside.
Qed.

(** The filter on a file that is read-only, hidden and archived, against
    the mask that allows hidden and system files. *)
Lemma findfile_attribute_filter_witness :
  attr_match 6 35 = true ↔
    ∀ b, b = 1 ∨ b = 2 ∨ b = 4 → Z.testbit 35 b = true → Z.testbit 6 b = true.
Proof.
  pose proof (findfile_attribute_filter [] 6 0 (Fileprops [] 0 0 35)) as Hf.
  destruct Hf as (_ & _ & _ & Hf & _). apply Hf. discriminate.
Defined.

(** ** The dispatcher *)

Section Dispatcher.
Context `{H : Host}.
Variables (E : env) (mymac : list Z) (rootarray : Z → option (list Z))
          (drivesfat : Z → Z).

(** A request that is not answered from the cache and names a mapped
    drive reaches the chain of tests on the query. *)
Lemma process_reaches_query (answer : struct_answcache) (reqbuff : list Z)
    (reqbufflen : Z) (st : server) (root : list Z) :
  60 ≤ reqbufflen →
  cache_hit answer reqbuff = false →
  2 ≤ Z.land (get reqbuff 58) 31 ≤ 25 →
  rootarray (Z.land (get reqbuff 58) 31) = Some root →
  process E mymac rootarray drivesfat answer reqbuff reqbufflen st =
    handle_query E drivesfat (get reqbuff 59) (Z.land (get reqbuff 58) 31)
      root reqbuff (reqbufflen - 60)
      (set_ax (reply_header mymac (frame answer) reqbuff) 0) st.
Proof.
  intros Hlen Hmiss Hdrv Hroot. unfold process.
  destruct (Z.ltb_spec reqbufflen 60); [lia |].
  rewrite Hmiss, Hroot.
  destruct (Z.ltb_spec (Z.land (get reqbuff 58) 31) 2); [lia |].
  rewrite Z.gtb_ltb.
  destruct (Z.ltb_spec 25 (Z.land (get reqbuff 58) 31)); [lia |].
  reflexivity.
Qed.

Lemma u64_nonneg (x : Z) : 0 ≤ u64 x.
Proof. unfold u64. apply Z.land_nonneg. right. done. Qed.

Lemma diskinfo_range (fs0 : hostfs) (path : list Z) (dfree : Z) :
  0 ≤ dfree →
  0 ≤ (diskinfo fs0 path dfree).1 ∧ 0 ≤ (diskinfo fs0 path dfree).2.
Proof.
  intros Hd. unfold diskinfo.
  destruct (h_statvfs fs0 path) as [[[[b fr] bf] bs] |]; simpl.
  - split; apply u64_nonneg.
  - lia.
Qed.

Lemma clamp_clusters (x : Z) :
  0 ≤ x →
  0 ≤ Z.shiftr (Z.min x (2 ^ 31 - 1)) 15 < 65536
  ∧ Z.shiftr (Z.min x (2 ^ 31 - 1)) 15 * 32768 ≤ 2 ^ 31 - 1.
Proof.
  intros Hx. rewrite Z.shiftr_div_pow2 by lia.
  change (2 ^ 15) with 32768.
  assert (Hm : 0 ≤ Z.min x (2 ^ 31 - 1) ≤ 2 ^ 31 - 1) by lia.
  pose proof (Z.div_mod (Z.min x (2 ^ 31 - 1)) 32768) as Hdm.
  pose proof (Z.mod_pos_bound (Z.min x (2 ^ 31 - 1)) 32768) as Hmb.
  split; [split |].
  - apply Z.div_pos; lia.
  - apply Z.div_lt_upper_bound; lia.
  - lia.
Qed.

(** C8. A DISKSPACE request that is dispatched on a mapped drive is
    answered with 66 bytes: AX = 1, BX = the total byte count clamped to
    2 GiB - 1 and shifted right by 15 bits, CX = 32768, DX = the free
    byte count clamped and shifted the same way; BX * 32768 and
    DX * 32768 do not exceed 2 GiB - 1. *)
Theorem diskspace_reply_clamped (answer : struct_answcache)
    (reqbuff : list Z) (reqbufflen : Z) (st : server) (root : list Z) :
  60 ≤ reqbufflen →
  cache_hit answer reqbuff = false →
  2 ≤ Z.land (get reqbuff 58) 31 ≤ 25 →
  rootarray (Z.land (get reqbuff 58) 31) = Some root →
  get reqbuff 59 = AL_DISKSPACE →
  let total := (diskinfo (fs st) root (u64 (env_uninit E))).1 in
  let free := (diskinfo (fs st) root (u64 (env_uninit E))).2 in
  ∃ answ,
    process E mymac rootarray drivesfat answer reqbuff reqbufflen st
      = Some (66, answ, st)
    ∧ le16 answ 58 = 1
    ∧ le16 answ 60 = Z.shiftr (Z.min total (2 ^ 31 - 1)) 15
    ∧ le16 answ 62 = 32768
    ∧ le16 answ 64 = Z.shiftr (Z.min free (2 ^ 31 - 1)) 15
    ∧ le16 answ 60 * 32768 ≤ 2 ^ 31 - 1
    ∧ le16 answ 64 * 32768 ≤ 2 ^ 31 - 1.
Proof.
  intros Hlen Hmiss Hdrv Hroot Hq total free.
  rewrite (process_reaches_query _ _ _ _ root) by done.
  rewrite Hq. unfold handle_query. rewrite Z.eqb_refl.
  unfold do_diskspace, ret.
  assert (Hu : 0 ≤ u64 (env_uninit E)) by apply u64_nonneg.
  destruct (diskinfo_range (fs st) root _ Hu) as [Ht Hf].
  fold total in Ht. fold free in Hf.
  destruct (diskinfo (fs st) root (u64 (env_uninit E))) as [d f] eqn:Hdi.
  simpl in total, free. subst total free.
  change (2 * 1024 * 1024 * 1024) with (2 ^ 31).
  replace (if d >=? 2 ^ 31 then 2 ^ 31 - 1 else d) with (Z.min d (2 ^ 31 - 1))
    by (rewrite Z.geb_leb; destruct (Z.leb_spec (2 ^ 31) d); lia).
  replace (if f >=? 2 ^ 31 then 2 ^ 31 - 1 else f) with (Z.min f (2 ^ 31 - 1))
    by (rewrite Z.geb_leb; destruct (Z.leb_spec (2 ^ 31) f); lia).
  destruct (clamp_clusters d Ht) as [Hd1 Hd2].
  destruct (clamp_clusters f Hf) as [Hf1 Hf2].
  eexists. split; [reflexivity |].
  unfold set_ax.
  assert (H58 : ∀ b x y z, le16 (write (write (write (write b 58 (put16 1)) 62
                 (put16 x)) 60 (put16 y)) 64 (put16 z)) 58 = 1).
  { intros. rewrite !le16_write_other by (simpl; lia).
    apply le16_put16; lia. }
  assert (H60 : ∀ b z, le16 (write (write b 60 (put16 (Z.shiftr (Z.min d (2 ^ 31 - 1)) 15)))
                 64 (put16 z)) 60 = Z.shiftr (Z.min d (2 ^ 31 - 1)) 15).
  { intros. rewrite le16_write_other by (simpl; lia).
    apply le16_put16; lia. }
  assert (H62 : ∀ b y z, le16 (write (write (write b 62 (put16 32768)) 60 (put16 y))
                 64 (put16 z)) 62 = 32768).
  { intros. rewrite !le16_write_other by (simpl; lia).
    apply le16_put16; lia. }
  assert (H64 : ∀ b, le16 (write b 64 (put16 (Z.shiftr (Z.min f (2 ^ 31 - 1)) 15))) 64
                 = Z.shiftr (Z.min f (2 ^ 31 - 1)) 15).
  { intros. apply le16_put16; lia. }
  rewrite H58, H60, H62, H64. lia.
Qed.

(** C9. A READFILE request (opcode 0x08) that is dispatched with a
    payload that is not exactly 8 bytes long returns a negative code and
    leaves the state alone: -3 before the chain of tests when the drive
    is not mapped, else -1 from the unknown-query branch at its end.
    The main loop then stores the length 0 in the cache entry and sends
    no frame. *)
Theorem readfile_bad_length_ignored (cache : list struct_answcache)
    (reqbuff : list Z) (reqbufflen : Z) (st : server) (cksumflag : Z) :
  let cacheptr := findcacheentry cache (sub reqbuff 6 6) in
  let answer := default answ_zero (cache !! cacheptr) in
  60 ≤ reqbufflen →
  cache_hit answer reqbuff = false →
  get reqbuff 59 = AL_READFIL →
  reqbufflen - 60 ≠ 8 →
  ∃ code answ,
    process E mymac rootarray drivesfat answer reqbuff reqbufflen st
      = Some (code, answ, st)
    ∧ code < 0
    ∧ (2 ≤ Z.land (get reqbuff 58) 31 ≤ 25 →
       is_Some (rootarray (Z.land (get reqbuff 58) 31)) →
       code = -1
       ∧ answ = set_ax (reply_header mymac (frame answer) reqbuff) 0)
    ∧ dispatch E mymac rootarray drivesfat cache reqbuff reqbufflen st
      = Some (code, cacheptr,
              <[cacheptr := Answ answ (timestamp answer) 0]> cache, st)
    ∧ (finalize cksumflag code answ).2 = None.
Proof.
  intros cacheptr answer Hlen Hmiss Hq Hpl.
  assert (Hp : ∃ code answ,
             process E mymac rootarray drivesfat answer reqbuff reqbufflen st
               = Some (code, answ, st)
             ∧ code < 0
             ∧ (2 ≤ Z.land (get reqbuff 58) 31 ≤ 25 →
                is_Some (rootarray (Z.land (get reqbuff 58) 31)) →
                code = -1
                ∧ answ = set_ax (reply_header mymac (frame answer) reqbuff) 0)).
  { destruct (decide (2 ≤ Z.land (get reqbuff 58) 31 ≤ 25)) as [Hdrv | Hdrv].
    - destruct (rootarray (Z.land (get reqbuff 58) 31)) as [root |] eqn:Hroot.
      + rewrite (process_reaches_query _ _ _ _ root) by done.
        rewrite Hq. unfold handle_query.
        destruct (Z.eqb_spec (reqbufflen - 60) 8); [done |].
        eexists _, _. split; [reflexivity |]. split; [lia | done].
      + unfold process. destruct (Z.ltb_spec reqbufflen 60); [lia |].
        rewrite Hmiss, Hroot.
        destruct (_ || _); eexists _, _; (split; [reflexivity |]);
          (split; [lia |]); by intros _ [? ?].
    - unfold process. destruct (Z.ltb_spec reqbufflen 60); [lia |].
      rewrite Hmiss, Z.gtb_ltb.
      destruct (Z.ltb_spec (Z.land (get reqbuff 58) 31) 2);
        destruct (Z.ltb_spec 25 (Z.land (get reqbuff 58) 31)); try lia;
        eexists _, _; (split; [reflexivity |]); (split; [lia |]); intros; lia. }
  destruct Hp as (code & answ & Hp & Hneg & Hdrv).
  exists code, answ. split; [done |]. split; [done |]. split; [done |]. split.
  - unfold dispatch. fold cacheptr. fold answer. rewrite Hp. simpl.
    rewrite Z.geb_leb. destruct (Z.leb_spec 0 code); [lia | done].
  - unfold finalize. rewrite Z.gtb_ltb.
    destruct (Z.ltb_spec 0 code); [lia | done].
Qed.

(** C10. A WRITEFILE request that is dispatched with no data bytes (a
    payload of 6 bytes) on a handle whose slot has a name: [writefile]
    returns 0 and the reply has 62 bytes, AX = 0 and bytes-written = 0,
    whatever [truncate] returned; the host is left as [truncate] left
    it. *)
Theorem writefile_truncate_result_dropped (answer : struct_answcache)
    (reqbuff : list Z) (st : server) (root fname : list Z) :
  cache_hit answer reqbuff = false →
  2 ≤ Z.land (get reqbuff 58) 31 ≤ 25 →
  rootarray (Z.land (get reqbuff 58) 31) = Some root →
  get reqbuff 59 = AL_WRITEFIL →
  name (fsdb_get (fsdb st) (le16 reqbuff 64)) = Some fname →
  let offset := le32 reqbuff 60 in
  let after := (h_truncate fname offset (fs st)).2 in
  writefile (sub reqbuff 66 0) (fsdb st) (le16 reqbuff 64) offset 0 (fs st)
    = (0, after)
  ∧ ∃ answ,
      process E mymac rootarray drivesfat answer reqbuff 66 st
        = Some (62, answ, Server (fsdb st) after)
      ∧ le16 answ 58 = 0
      ∧ le16 answ 60 = 0.
Proof.
  intros Hmiss Hdrv Hroot Hq Hname offset after.
  assert (Hw : writefile (sub reqbuff 66 0) (fsdb st) (le16 reqbuff 64)
                 offset 0 (fs st) = (0, after)).
  { unfold writefile. by rewrite Hname. }
  split; [exact Hw |].
  rewrite (process_reaches_query _ _ _ _ root) by (done || lia).
  rewrite Hq. unfold handle_query.
  change (AL_WRITEFIL =? AL_DISKSPACE) with false.
  change (AL_WRITEFIL =? AL_READFIL) with false.
  change (AL_WRITEFIL =? AL_WRITEFIL) with true.
  change (66 - 60 >=? 6) with true. cbv iota beta. simpl andb. cbv iota.
  unfold do_writefil.
  change ((66 - 60 - 6) mod 65536) with 0.
  fold offset. rewrite Hw. cbv iota beta.
  change (0 <? 0) with false. cbv iota. unfold ret.
  eexists. split; [reflexivity |]. unfold set_ax. split.
  - rewrite le16_write_other by (simpl; lia). apply le16_put16; lia.
  - apply le16_put16; lia.
Qed.

(** C1. When the cache entry of the client (the one [findcacheentry]
    selects for the source MAC, bytes 6..11 of the frame) holds a reply
    of length above 0 whose first six bytes are that MAC and whose
    sequence byte (offset 57) is the one of the frame, and the frame has
    at least 60 bytes, [process] returns the length of the cached frame
    and leaves the frame and the state (file database with its
    directory listings, host filesystem) as they are; the main loop
    then only renews the time stamp of the entry. *)
Theorem cached_reply_returned_as_is (cache : list struct_answcache)
    (reqbuff : list Z) (reqbufflen : Z) (st : server) :
  let cacheptr := findcacheentry cache (sub reqbuff 6 6) in
  let answer := default answ_zero (cache !! cacheptr) in
  60 ≤ reqbufflen →
  0 < len answer < 65536 →
  sub (frame answer) 0 6 = sub reqbuff 6 6 →
  get (frame answer) 57 = get reqbuff 57 →
  process E mymac rootarray drivesfat answer reqbuff reqbufflen st
    = Some (len answer, frame answer, st)
  ∧ dispatch E mymac rootarray drivesfat cache reqbuff reqbufflen st
    = Some (len answer, cacheptr,
            <[cacheptr := Answ (frame answer) (env_now E) (len answer)]> cache,
            st).
Proof.
  intros cacheptr answer Hlen Hpos Hmac Hseq.
  assert (Hp : process E mymac rootarray drivesfat answer reqbuff reqbufflen st
               = Some (len answer, frame answer, st)).
  { unfold process, cache_hit.
    destruct (Z.ltb_spec reqbufflen 60); [lia |].
    rewrite Hseq, Z.eqb_refl, bool_decide_eq_true_2 by done.
    rewrite Z.gtb_ltb. destruct (Z.ltb_spec 0 (len answer)); [done | lia]. }
  split; [exact Hp |].
  unfold dispatch. fold cacheptr. fold answer. rewrite Hp. simpl.
  rewrite Z.geb_leb. destruct (Z.leb_spec 0 (len answer)); [| lia].
  by rewrite Z.mod_small by lia.
Qed.

End Dispatcher.

(** ** The file database *)

Section FileDatabase.

Lemma fsdb_get_insert (db : gmap Z sfsdb) (i j : Z) (x : sfsdb) :
  fsdb_get (<[i := x]> db) j = if decide (i = j) then x else fsdb_get db j.
Proof.
  unfold fsdb_get. destruct (decide (i = j)) as [-> | Hne].
  - by rewrite lookup_insert_eq.
  - by rewrite lookup_insert_ne.
Qed.

Lemma no_dangling_insert (db : gmap Z sfsdb) (i : Z) (x : sfsdb) :
  no_dangling db → dirlist x ≠ DirFreed → no_dangling (<[i := x]> db).
Proof.
  intros Hdb Hx j. rewrite fsdb_get_insert. by destruct (decide (i = j)).
Qed.

(** The aging step is defined on a slot without dangling pointer, and
    leaves the slot as it is or zeroed. *)
Lemma getitemss_age_spec (now i : Z) (db : gmap Z sfsdb) :
  dirlist (fsdb_get db i) ≠ DirFreed →
  ∃ db', getitemss_age now i db = Some db'
         ∧ (db' = db ∨ db' = <[i := sfsdb_zero]> db).
Proof.
  intros Hd. unfold getitemss_age.
  destruct (now - lastused (fsdb_get db i) >? 3600); [| eauto].
  destruct (dirlist (fsdb_get db i)); simpl; eauto. done.
Qed.

(** A scan that starts at or before a slot named [f], with no slot
    named [f] in between, returns that slot. *)
Lemma getitemss_scan_finds (now : Z) (f : list Z) (id : Z) (fuel : nat) :
  ∀ (i : Z) (db : gmap Z sfsdb) (firstfree oldest : Z),
    i ≤ id < i + Z.of_nat fuel →
    name (fsdb_get db id) = Some f →
    (∀ j, i ≤ j < id → name (fsdb_get db j) ≠ Some f) →
    (∀ j, i ≤ j < id → dirlist (fsdb_get db j) ≠ DirFreed) →
    ∃ db', getitemss_scan fuel now f i db firstfree oldest = Some (inl (id, db'))
           ∧ name (fsdb_get db' id) = Some f
           ∧ ∀ j, name (fsdb_get db' j) = name (fsdb_get db j)
                  ∨ name (fsdb_get db' j) = None.
Proof.
  induction fuel as [| fuel IH]; intros i db firstfree oldest Hi Hid Hnone Hdang;
    [lia |].
  simpl. destruct (decide (name (fsdb_get db i) = Some f)) as [Heq | Hne].
  - assert (i = id) as ->.
    { destruct (decide (i = id)); [done |]. exfalso. apply (Hnone i); [lia | done]. }
    eexists. split; [reflexivity |]. split.
    + rewrite fsdb_get_insert. by destruct (decide (id = id)).
    + intros j. rewrite fsdb_get_insert.
      destruct (decide (id = j)) as [-> | ?]; auto.
  - assert (i < id) as Hlt.
    { destruct (decide (i = id)) as [-> | ?]; [done | lia]. }
    destruct (getitemss_age_spec now i db) as (db1 & Hage & Hdb1).
    { apply Hdang. lia. }
    rewrite Hage. simpl.
    destruct (getitemss_pick i db1 firstfree oldest) as [ff' old'].
    assert (Hsame : ∀ j, j ≠ i → fsdb_get db1 j = fsdb_get db j).
    { intros j Hj. destruct Hdb1 as [-> | ->]; [done |].
      rewrite fsdb_get_insert. by destruct (decide (i = j)). }
    destruct (IH (i + 1) db1 ff' old') as (db' & Hscan & Hname & Hshrink).
    + lia.
    + rewrite Hsame by lia. done.
    + intros j Hj. rewrite Hsame by lia. apply Hnone. lia.
    + intros j Hj. rewrite Hsame by lia. apply Hdang. lia.
    + exists db'. split; [done |]. split; [done |].
      intros j. destruct (Hshrink j) as [Hj | Hj]; [| auto].
      destruct (decide (j = i)) as [-> | Hji].
      * rewrite Hj. destruct Hdb1 as [-> | ->]; [auto |].
        right. rewrite fsdb_get_insert. by destruct (decide (i = i)).
      * left. by rewrite Hj, Hsame.
Qed.

(** What a scan that returns a slot says of the database it leaves. *)
Lemma getitemss_scan_found (now : Z) (f : list Z) (fuel : nat) :
  ∀ (i : Z) (db : gmap Z sfsdb) (firstfree oldest id : Z) (db' : gmap Z sfsdb),
    getitemss_scan fuel now f i db firstfree oldest = Some (inl (id, db')) →
    no_dangling db →
    i ≤ id < i + Z.of_nat fuel
    ∧ name (fsdb_get db' id) = Some f
    ∧ (∀ j, i ≤ j < id → name (fsdb_get db' j) ≠ Some f)
    ∧ (∀ j, j < i → fsdb_get db' j = fsdb_get db j)
    ∧ no_dangling db'.
Proof.
  induction fuel as [| fuel IH]; intros i db firstfree oldest id db' Hscan Hdb;
    [done |].
  simpl in Hscan.
  destruct (decide (name (fsdb_get db i) = Some f)) as [Heq | Hne].
  - injection Hscan as <- <-. split; [lia |]. split; [| split; [| split]].
    + rewrite fsdb_get_insert. by destruct (decide (i = i)).
    + intros j Hj. lia.
    + intros j Hj. rewrite fsdb_get_insert. destruct (decide (i = j)); [lia | done].
    + apply no_dangling_insert; [done | apply Hdb].
  - destruct (getitemss_age_spec now i db (Hdb i)) as (db1 & Hage & Hdb1).
    rewrite Hage in Hscan. simpl in Hscan.
    destruct (getitemss_pick i db1 firstfree oldest) as [ff' old'].
    assert (Hdb1' : no_dangling db1).
    { destruct Hdb1 as [-> | ->]; [done |]. by apply no_dangling_insert. }
    assert (Hi : name (fsdb_get db1 i) ≠ Some f).
    { destruct Hdb1 as [-> | ->]; [done |].
      rewrite fsdb_get_insert. by destruct (decide (i = i)). }
    assert (Hsame : ∀ j, j ≠ i → fsdb_get db1 j = fsdb_get db j).
    { intros j Hj. destruct Hdb1 as [-> | ->]; [done |].
      rewrite fsdb_get_insert. by destruct (decide (i = j)). }
    destruct (IH _ _ _ _ _ _ Hscan Hdb1') as (Hid & Hname & Hbefore & Hold & Hdang).
    split; [lia |]. split; [done |]. split; [| split; [| done]].
    + intros j Hj. destruct (decide (j = i)) as [-> | Hji].
      * rewrite Hold by lia. done.
      * apply Hbefore. lia.
    + intros j Hj. rewrite Hold by lia. apply Hsame. lia.
Qed.

(** What a scan that runs to its end says of the database it leaves. *)
Lemma getitemss_scan_absent (now : Z) (f : list Z) (fuel : nat) :
  ∀ (i : Z) (db : gmap Z sfsdb) (firstfree oldest : Z)
    (db' : gmap Z sfsdb) (firstfree' oldest' : Z),
    getitemss_scan fuel now f i db firstfree oldest
      = Some (inr (db', firstfree', oldest')) →
    no_dangling db →
    (∀ j, i ≤ j < i + Z.of_nat fuel → name (fsdb_get db' j) ≠ Some f)
    ∧ no_dangling db'
    ∧ (firstfree' = firstfree ∨ i ≤ firstfree' < i + Z.of_nat fuel)
    ∧ (oldest' = oldest ∨ i ≤ oldest' < i + Z.of_nat fuel)
    ∧ (∀ j, j < i → fsdb_get db' j = fsdb_get db j).
Proof.
  induction fuel as [| fuel IH];
    intros i db firstfree oldest db' firstfree' oldest' Hscan Hdb.
  - injection Hscan as <- <- <-. repeat split; auto. intros j Hj. lia.
  - simpl in Hscan.
    destruct (decide (name (fsdb_get db i) = Some f)) as [Heq | Hne]; [done |].
    destruct (getitemss_age_spec now i db (Hdb i)) as (db1 & Hage & Hdb1).
    rewrite Hage in Hscan. simpl in Hscan.
    destruct (getitemss_pick i db1 firstfree oldest) as [ff1 old1] eqn:Hpick.
    assert (Hdb1' : no_dangling db1).
    { destruct Hdb1 as [-> | ->]; [done |]. by apply no_dangling_insert. }
    assert (Hi : name (fsdb_get db1 i) ≠ Some f).
    { destruct Hdb1 as [-> | ->]; [done |].
      rewrite fsdb_get_insert. by destruct (decide (i = i)). }
    assert (Hsame : ∀ j, j ≠ i → fsdb_get db1 j = fsdb_get db j).
    { intros j Hj. destruct Hdb1 as [-> | ->]; [done |].
      rewrite fsdb_get_insert. by destruct (decide (i = j)). }
    assert (Hp : (ff1 = firstfree ∨ ff1 = i) ∧ (old1 = oldest ∨ old1 = i)).
    { unfold getitemss_pick in Hpick.
      destruct (_ && _); [injection Hpick as <- <-; auto |].
      destruct (_ >? _); injection Hpick as <- <-; auto. }
    destruct (IH _ _ _ _ _ _ _ Hscan Hdb1') as (Hnone & Hdang & Hff & Hold & Hbefore).
    split; [| split; [done | split; [| split]]].
    + intros j Hj. destruct (decide (j = i)) as [-> | Hji].
      * rewrite Hbefore by lia. done.
      * apply Hnone. lia.
    + destruct Hp as [[-> | ->] _]; destruct Hff as [-> | ?]; auto; right; lia.
    + destruct Hp as [_ [-> | ->]]; destruct Hold as [-> | ?]; auto; right; lia.
    + intros j Hj. rewrite Hbefore by lia. apply Hsame. lia.
Qed.

(** C3. When a call of [getitemss] with path [P] has returned an ID
    other than 0xffff, a second call with [P] returns the same ID,
    whatever the clock then shows (within the 3600 seconds in
    particular); the second call gives no slot a name it did not have
    (slots can only lose their name to aging), and [sstoitem] returns
    [P] for the ID after either call. The file database is assumed to
    hold no dangling list pointer, so that the scans are defined. *)
Theorem getitemss_idempotent (E1 E2 : env) (P : list Z)
    (db db1 : gmap Z sfsdb) (id : Z) :
  no_dangling db →
  getitemss E1 P db = Some (id, db1) →
  id ≠ 65535 →
  ∃ db2,
    getitemss E2 P db1 = Some (id, db2)
    ∧ sstoitem db1 id = Some P
    ∧ sstoitem db2 id = Some P
    ∧ ∀ j, sstoitem db2 j = sstoitem db1 j ∨ sstoitem db2 j = None.
Proof.
  intros Hdb Hfirst Hid. unfold getitemss in Hfirst.
  assert (Hinv : 0 ≤ id < 65535
                 ∧ name (fsdb_get db1 id) = Some P
                 ∧ (∀ j, 0 ≤ j < id → name (fsdb_get db1 j) ≠ Some P)
                 ∧ no_dangling db1).
  { destruct (getitemss_scan _ _ _ _ _ _ _) as [[[id' db'] | [[db' ff] old]] |]
      eqn:Hscan; simpl in Hfirst; [| | done].
    - injection Hfirst as -> ->.
      destruct (getitemss_scan_found _ _ _ _ _ _ _ _ _ Hscan Hdb)
        as (Hr & Hn & Hb & _ & Hd).
      split; [lia |]. done.
    - destruct (getitemss_scan_absent _ _ _ _ _ _ _ _ _ _ Hscan Hdb)
        as (Hnone & Hd & Hff & Hold & _).
      assert (Hold' : 0 ≤ old < 65535) by lia.
      set (db'' := if ff =? 65535 then <[old := sfsdb_zero]> db' else db') in *.
      set (ff' := if ff =? 65535 then old else ff) in *.
      assert (Hstep : (if ff =? 65535
                       then freedirlist (dirlist (fsdb_get db' old))
                            ≫= λ _, Some (<[old := sfsdb_zero]> db', old)
                       else Some (db', ff)) = Some (db'', ff')).
      { subst db'' ff'. destruct (ff =? 65535); [| done].
        specialize (Hd old). by destruct (dirlist (fsdb_get db' old)). }
      rewrite Hstep in Hfirst. simpl in Hfirst.
      assert (Hff' : 0 ≤ ff' < 65535).
      { subst ff'. destruct (Z.eqb_spec ff 65535); lia. }
      assert (Hnone' : ∀ j, 0 ≤ j < 65535 → name (fsdb_get db'' j) ≠ Some P).
      { intros j Hj. subst db''. destruct (ff =? 65535).
        - rewrite fsdb_get_insert. destruct (decide (old = j)); [done |].
          apply Hnone. lia.
        - apply Hnone. lia. }
      assert (Hd' : no_dangling db'').
      { subst db''. destruct (ff =? 65535); [by apply no_dangling_insert | done]. }
      destruct (env_strdup_ok E1); injection Hfirst as <- <-; [| lia].
      split; [done |]. split; [| split].
      + rewrite fsdb_get_insert. by destruct (decide (ff' = ff')).
      + intros j Hj. rewrite fsdb_get_insert.
        destruct (decide (ff' = j)); [lia |]. apply Hnone'. lia.
      + apply no_dangling_insert; [done | apply Hd']. }
  destruct Hinv as (Hrange & Hname & Hbefore & Hdang).
  destruct (getitemss_scan_finds (env_now E2) P id (Z.to_nat 65535) 0 db1 65535 0)
    as (db2 & Hscan & Hname2 & Hshrink); [lia | done | done | by intros |].
  exists db2. unfold getitemss. rewrite Hscan. simpl.
  split; [done |]. split; [done |]. split; [done |]. exact Hshrink.
Qed.

End FileDatabase.

(** ** The walk of a directory listing *)

Section FindFile.
Context `{H : Host}.
Variables (fcbtmpl : list Z) (attr flags : Z).

Abbreviation matching := (matching_from fcbtmpl attr flags).
Abbreviation walk := (findfile_walk fcbtmpl attr flags).

Lemma matching_from_bounds (l : list fileprops) :
  ∀ n q x, (q, x) ∈ matching l n → n < q ≤ n + Z.of_nat (length l).
Proof.
  induction l as [| e r IH]; intros n q x Hin; simpl in Hin.
  - by apply elem_of_nil in Hin.
  - apply elem_of_app in Hin. destruct Hin as [Hin | Hin].
    + destruct (entry_match _ _ _ e); [| by apply elem_of_nil in Hin].
      apply list_elem_of_singleton in Hin. injection Hin as -> ->.
      simpl. lia.
    + apply IH in Hin. simpl. lia.
Qed.

(** The positions of the matching entries beyond [p] are all of them
    when [p] is not beyond the start. *)
Lemma matching_filter_all (l : list fileprops) (n p : Z) :
  p ≤ n → filter (λ y, p < y.1) (matching l n) = matching l n.
Proof.
  intros Hp.
  assert (Hall : Forall (λ y, p < y.1) (matching l n)).
  { apply Forall_forall. intros [q x] Hin.
    apply matching_from_bounds in Hin. simpl. lia. }
  induction Hall as [| y t Hy _ IH]; [done |].
  by rewrite filter_cons_True, IH.
Qed.

(** The loop of [findfile] returns the first matching entry beyond the
    start position. *)
Lemma findfile_walk_head (l : list fileprops) :
  ∀ n nth, walk l n nth = head (filter (λ y, nth < y.1) (matching l n)).
Proof.
  induction l as [| e r IH]; intros n nth; simpl; [done |].
  rewrite filter_app. destruct (Z.leb_spec (n + 1) nth) as [Hle | Hgt].
  - rewrite IH. destruct (entry_match _ _ _ e); [| done].
    rewrite filter_cons_False by (simpl; lia). done.
  - destruct (entry_match _ _ _ e).
    + rewrite filter_cons_True by (simpl; lia). done.
    + by rewrite IH.
Qed.

(** The matching entries are the entries of the listing that pass the
    tests, at their positions. *)
Lemma matching_from_elem (l : list fileprops) :
  ∀ n q x,
    (q, x) ∈ matching l n ↔
      n < q ∧ l !! Z.to_nat (q - n - 1) = Some x
      ∧ entry_match fcbtmpl attr flags x = true.
Proof.
  induction l as [| e r IH]; intros n q x; simpl.
  - split; [intros Hin; by apply elem_of_nil in Hin | by intros (_ & ? & _)].
  - rewrite elem_of_app, IH. split.
    + intros [Hin | (Hq & Hl & Hm)].
      * destruct (entry_match _ _ _ e) eqn:He; [| by apply elem_of_nil in Hin].
        apply list_elem_of_singleton in Hin. injection Hin as -> ->.
        replace (Z.to_nat (n + 1 - n - 1)) with 0%nat by lia.
        split; [lia | done].
      * split; [lia |]. split; [| done].
        replace (Z.to_nat (q - n - 1)) with (S (Z.to_nat (q - (n + 1) - 1))) by lia.
        done.
    + intros (Hq & Hl & Hm).
      destruct (decide (q = n + 1)) as [-> | Hne].
      * left. replace (Z.to_nat (n + 1 - n - 1)) with 0%nat in Hl by lia.
        injection Hl as ->. rewrite Hm. by apply list_elem_of_singleton.
      * right. split; [lia |]. split; [| done].
        replace (Z.to_nat (q - n - 1)) with (S (Z.to_nat (q - (n + 1) - 1)))
          in Hl by lia.
        done.
Qed.

Lemma matching_from_nodup (l : list fileprops) :
  ∀ n, NoDup (matching l n).*1.
Proof.
  induction l as [| e r IH]; intros n; simpl; [constructor |].
  rewrite fmap_app. apply NoDup_app. split; [| split; [| apply IH]].
  - destruct (entry_match _ _ _ e); simpl; [| constructor].
    apply NoDup_singleton.
  - intros q Hq Hin. destruct (entry_match _ _ _ e); simpl in Hq;
      [| by apply elem_of_nil in Hq].
    apply list_elem_of_singleton in Hq as ->.
    apply list_elem_of_fmap in Hin as [[q x] [Hq Hin]]. simpl in Hq. subst q.
    apply matching_from_bounds in Hin. lia.
Qed.

(** A FINDNEXT on a slot with a cached listing and a position other
    than 0 does not change the file database. *)
Lemma findfile_next (E : env) (fs0 : hostfs) (db : gmap Z sfsdb) (dss : Z)
    (l : list fileprops) (nth : Z) :
  dirlist (fsdb_get db dss) = DirNodes l →
  nth ≠ 0 →
  findfile E fs0 db dss fcbtmpl attr nth flags =
    Some (match walk l 0 nth with
          | Some (n, e) => (0, Some e, n mod 65536, db)
          | None => (-1, None, nth, db)
          end).
Proof.
  intros Hl Hnth. unfold findfile. rewrite Hl. simpl.
  destruct (Z.eqb_spec nth 0) as [| _]; [done |]. simpl. rewrite Hl.
  by destruct (walk l 0 nth) as [[k e] |].
Qed.

End FindFile.

(** ** FCB names *)

Section FcbNames.

Lemma upchar_idem (c : Z) : upchar (upchar c) = upchar c.
Proof. unfold upchar. zbool. Qed.

Lemma plain_upchar (c : Z) : plain c = true → plain (upchar c) = true.
Proof. unfold plain, upchar, ch_dot, ch_space. zbool. Qed.

Lemma Forall_plain_upchar (l : list Z) :
  Forall (λ c, plain c = true) l → Forall (λ c, plain c = true) (upchar <$> l).
Proof. intros Hl. apply Forall_fmap. eapply Forall_impl; [done |]. apply plain_upchar. Qed.

Lemma while_after_plain (s : list Z) : while_plain s ++ after_plain s = s.
Proof. induction s as [| c r IH]; simpl; [done |]. destruct (plain c); simpl; congruence. Qed.

Lemma while_plain_Forall (s : list Z) : Forall (λ c, plain c = true) (while_plain s).
Proof.
  induction s as [| c r IH]; simpl; [constructor |].
  destruct (plain c) eqn:Hc; by constructor.
Qed.

Lemma while_plain_all (s : list Z) :
  Forall (λ c, plain c = true) s → while_plain s = s.
Proof. induction 1 as [| c r Hc _ IH]; simpl; [done |]. by rewrite Hc, IH. Qed.

Lemma after_plain_head (s : list Z) :
  after_plain s = [] ∨ ∃ c r, after_plain s = c :: r ∧ plain c = false.
Proof.
  induction s as [| c r IH]; simpl; [by left |].
  destruct (plain c) eqn:Hc; [done |]. right. eauto.
Qed.

Lemma rd_app_l (s t : list Z) (j : nat) :
  (j < length s)%nat → rd (s ++ t) j = s !! j.
Proof. intros Hj. unfold rd. rewrite <- app_assoc. by rewrite lookup_app_l. Qed.

Lemma rd_app_r (s t : list Z) : rd (s ++ t) (length s) = Some (default 0 (head t)).
Proof.
  unfold rd. rewrite <- app_assoc, lookup_app_r by lia.
  rewrite Nat.sub_diag. by destruct t.
Qed.

Lemma rd_app_mid (P : list Z) (c : Z) (rest : list Z) :
  rd (P ++ c :: rest) (length P) = Some c.
Proof.
  unfold rd. rewrite <- app_assoc, lookup_app_r by lia.
  by rewrite Nat.sub_diag.
Qed.

Lemma insert_padding (pre : list Z) (c x : Z) (rest : list Z) :
  <[length pre := c]> (pre ++ x :: rest) = (pre ++ [c]) ++ rest.
Proof.
  rewrite insert_app_r_alt by lia. rewrite Nat.sub_diag. simpl.
  by rewrite <- app_assoc.
Qed.

(** The first loop on a name that starts with [k] dots. *)
Lemma fcb_dots_spec (k : nat) :
  ∀ (fuel : nat) (pre s' : list Z) (n : nat),
    (k ≤ fuel)%nat → (k ≤ n)%nat →
    (k = fuel ∨ default 0 (head s') ≠ ch_dot) →
    fcb_dots fuel (replicate (length pre + k) ch_dot ++ s') (length pre)
             (pre ++ replicate n ch_space)
    = Some ((length pre + k)%nat,
            (pre ++ replicate k ch_dot) ++ replicate (n - k) ch_space).
Proof.
  induction k as [| k IH]; intros fuel pre s' n Hf Hn Hstop.
  - rewrite Nat.add_0_r, Nat.sub_0_r, app_nil_r.
    destruct fuel as [| fuel]; [done |]. simpl.
    replace (length pre) with (length (replicate (length pre) ch_dot)) at 2
      by apply length_replicate.
    rewrite rd_app_r. simpl.
    destruct Hstop as [? | Hstop]; [done |].
    by destruct (Z.eqb_spec (default 0 (head s')) ch_dot).
  - destruct fuel as [| fuel]; [lia |]. destruct n as [| n]; [lia |]. simpl.
    rewrite rd_app_l by (rewrite length_replicate; lia).
    rewrite lookup_replicate_2 by lia. simpl.
    rewrite insert_padding.
    replace (length pre + S k)%nat with (length (pre ++ [ch_dot]) + k)%nat
      by (rewrite length_app; simpl; lia).
    replace (S (length pre)) with (length (pre ++ [ch_dot]))
      by (rewrite length_app; simpl; lia).
    rewrite IH by lia. do 2 f_equal.
    rewrite <- !app_assoc. simpl. done.
Qed.

(** The second loop on a run of plain characters. *)
Lemma fcb_base_spec (tl : list Z) :
  (tl = [] ∨ ∃ c r, tl = c :: r ∧ (c = ch_dot ∨ c = 0)) →
  ∀ (fuel : nat) (P body pre : list Z) (n : nat),
    Forall (λ c, plain c = true) body →
    length P = length pre → (fuel ≤ n)%nat →
    fcb_base fuel (P ++ body ++ tl) (length P) (length P)
             (pre ++ replicate n ch_space)
    = Some ((length P + length (take fuel body))%nat,
            (pre ++ (upchar <$> take fuel body))
            ++ replicate (n - length (take fuel body)) ch_space).
Proof.
  intros Htl. induction fuel as [| fuel IH]; intros P body pre n Hbody HP Hn.
  - simpl. by rewrite Nat.add_0_r, Nat.sub_0_r, app_nil_r.
  - simpl. destruct body as [| c body].
    + simpl. rewrite rd_app_r. simpl.
      rewrite Nat.add_0_r, Nat.sub_0_r, app_nil_r.
      destruct Htl as [-> | (c & r & -> & [-> | ->])]; done.
    + inversion Hbody as [| ? ? Hc Hbody']; subst.
      change ((c :: body) ++ tl) with (c :: (body ++ tl)).
      rewrite !rd_app_mid. simpl.
      assert (Hcs : (c =? ch_dot) || (c =? 0) = false ∧ (c =? ch_space) = false).
      { unfold plain in Hc. destruct (c =? ch_dot), (c =? 0), (c =? ch_space); done. }
      destruct Hcs as [-> Hsp]. rewrite Hsp. simpl. rewrite rd_app_mid. simpl.
      destruct n as [| n]; [lia |]. cbn [replicate].
      rewrite HP, insert_padding, <- HP.
      replace (S (length P)) with (length (P ++ [c]))
        by (rewrite length_app; simpl; lia).
      replace (P ++ c :: (body ++ tl)) with ((P ++ [c]) ++ body ++ tl)
        by (by rewrite <- app_assoc).
      rewrite IH; [| done | rewrite !length_app; simpl; lia | lia].
      rewrite length_app. simpl. do 2 f_equal; [lia |].
      rewrite <- !app_assoc. simpl. done.
Qed.

(** The fast forward over plain characters. *)
Lemma fcb_forward_plain (body tl : list Z) :
  Forall (λ c, plain c = true) body →
  (tl = [] ∨ ∃ c r, tl = c :: r ∧ (c = ch_dot ∨ c = 0)) →
  fcb_forward (body ++ tl) = tl.
Proof.
  intros Hbody Htl. induction Hbody as [| c body Hc _ IH]; simpl.
  - destruct Htl as [-> | (c & r & -> & [-> | ->])]; done.
  - unfold plain in Hc.
    by destruct (c =? ch_dot), (c =? 0).
Qed.

(** The last loop: the plain characters that start [s], up to [fuel]. *)
Lemma fcb_ext_spec :
  ∀ (fuel : nat) (s pre : list Z) (n : nat),
    (fuel ≤ n)%nat →
    fcb_ext fuel s (length pre) (pre ++ replicate n ch_space)
    = (pre ++ (upchar <$> take fuel (while_plain s)))
      ++ replicate (n - length (take fuel (while_plain s))) ch_space.
Proof.
  induction fuel as [| fuel IH]; intros s pre n Hn; simpl.
  - by rewrite Nat.sub_0_r, app_nil_r.
  - destruct s as [| c r]; simpl.
    { by rewrite Nat.sub_0_r, app_nil_r. }
    unfold plain.
    destruct ((c =? ch_dot) || (c =? 0) || (c =? ch_space)); simpl.
    { by rewrite Nat.sub_0_r, app_nil_r. }
    destruct n as [| n]; [lia |]. cbn [replicate].
    rewrite insert_padding.
    replace (S (length pre)) with (length (pre ++ [upchar c]))
      by (rewrite length_app; simpl; lia).
    rewrite IH by lia. rewrite <- !app_assoc. done.
Qed.

Lemma pad_short (n : nat) (l : list Z) :
  (length l ≤ n)%nat → pad n l = l ++ replicate (n - length l) ch_space.
Proof.
  intros Hl. unfold pad. rewrite take_app_ge by lia.
  f_equal. apply take_replicate_add' || idtac.
  rewrite take_replicate. f_equal. lia.
Qed.

Lemma length_pad (n : nat) (l : list Z) : length (pad n l) = n.
Proof. unfold pad. rewrite length_take, length_app, length_replicate. lia. Qed.

(** [filename2fcb] on a name of [k] dots, a run of plain characters and
    a rest that is empty or starts with a dot or a NUL. *)
Lemma filename2fcb_shape (k : nat) (body tl : list Z) :
  (k ≤ 8)%nat →
  Forall (λ c, plain c = true) body →
  (tl = [] ∨ ∃ c r, tl = c :: r ∧ (c = ch_dot ∨ c = 0)) →
  (k = 8%nat ∨ default 0 (head (body ++ tl)) ≠ ch_dot) →
  filename2fcb (replicate k ch_dot ++ body ++ tl) = Some (fcb_block k body tl).
Proof.
  intros Hk Hbody Htl Hstop. unfold filename2fcb.
  pose proof (fcb_dots_spec k 8 [] (body ++ tl) 11) as Hd.
  cbn [length app Nat.add] in Hd. rewrite Hd by (lia || done). clear Hd.
  cbn [mbind option_bind].
  pose proof (fcb_base_spec tl Htl (8 - k) (replicate k ch_dot) body
                (replicate k ch_dot) (11 - k) Hbody eq_refl) as Hb.
  rewrite length_replicate in Hb. rewrite Hb by lia. clear Hb.
  cbn [mbind option_bind].
  set (body' := take (8 - k) body).
  assert (Hlen : (length body' ≤ 8 - k)%nat) by (unfold body'; rewrite length_take; lia).
  assert (Hlen' : (length body' ≤ length body)%nat) by (unfold body'; rewrite length_take; lia).
  replace (drop (k + length body') (replicate k ch_dot ++ body ++ tl))
    with (drop (length body') body ++ tl).
  2:{ rewrite drop_app_ge by (rewrite length_replicate; lia).
      rewrite length_replicate.
      replace (k + length body' - k)%nat with (length body') by lia.
      by rewrite drop_app_le. }
  rewrite fcb_forward_plain; [| by apply Forall_drop | done].
  set (Q := replicate k ch_dot ++ (upchar <$> body')).
  assert (HQ : length Q = (k + length body')%nat).
  { unfold Q. by rewrite length_app, length_replicate, length_fmap. }
  assert (Hd : Q ++ replicate (11 - k - length body') ch_space
               = pad 8 Q ++ replicate 3 ch_space).
  { rewrite pad_short by lia. rewrite <- app_assoc, <- replicate_add.
    do 2 f_equal. lia. }
  unfold fcb_block. fold body'. fold Q. rewrite Hd.
  destruct tl as [| c r]; [done |].
  destruct Htl as [? | (c' & r' & [= -> ->] & [-> | ->])]; [done | | done].
  change (ch_dot =? 0) with false. cbv iota.
  change (ext_of (ch_dot :: r')) with (upchar <$> take 3 (while_plain r')).
  pose proof (fcb_ext_spec 3 r' (pad 8 Q) 3) as He.
  rewrite length_pad in He. rewrite He by lia.
  rewrite <- app_assoc. do 2 f_equal.
  rewrite pad_short; [by rewrite length_fmap |].
  rewrite length_fmap, length_take. lia.
Qed.

Lemma count_dots_spec (fuel : nat) :
  ∀ X, let k := count_dots fuel X in
       X = replicate k ch_dot ++ drop k X
       ∧ (k ≤ fuel)%nat
       ∧ (k = fuel ∨ default 0 (head (drop k X)) ≠ ch_dot).
Proof.
  induction fuel as [| fuel IH]; intros X; simpl.
  - split; [done |]. split; [done |]. by left.
  - destruct X as [| c r]; simpl.
    { split; [done |]. split; [lia |]. by right. }
    destruct (Z.eqb_spec c ch_dot) as [-> | Hc]; simpl.
    + destruct (IH r) as (Hr & Hk & Hstop).
      split; [by rewrite <- Hr |]. split; [lia |].
      destruct Hstop as [-> | Hstop]; auto.
    + split; [done |]. split; [lia |]. by right.
Qed.

Lemma until_space_padding (Q : list Z) (m : nat) :
  Forall (λ c, c ≠ ch_space) Q → until_space (Q ++ replicate m ch_space) = Q.
Proof.
  induction 1 as [| c Q Hc _ IH]; simpl.
  - by destruct m.
  - destruct (Z.eqb_spec c ch_space); [done |]. by rewrite IH.
Qed.

Lemma plain_not_space (l : list Z) :
  Forall (λ c, plain c = true) l → Forall (λ c, c ≠ ch_space) l.
Proof.
  intros Hl. eapply Forall_impl; [done |]. intros c Hc ->. done.
Qed.

Lemma ext_of_plain (tl : list Z) :
  Forall (λ c, plain c = true) (ext_of tl) ∧ (length (ext_of tl) ≤ 3)%nat.
Proof.
  destruct tl as [| c r]; simpl; [split; [constructor | lia] |].
  destruct (c =? ch_dot); [| split; [constructor | simpl; lia]].
  split.
  - apply Forall_plain_upchar, Forall_take, while_plain_Forall.
  - rewrite length_fmap, length_take. lia.
Qed.

(** The rendering of the block of a name gives the dots, the base and
    the extension back. *)
Lemma fcb_render_block (k : nat) (body tl : list Z) :
  (k ≤ 8)%nat →
  Forall (λ c, plain c = true) body →
  fcb_render (fcb_block k body tl)
  = replicate k ch_dot ++ (upchar <$> take (8 - k) body)
    ++ match ext_of tl with [] => [] | ext => ch_dot :: ext end.
Proof.
  intros Hk Hbody. unfold fcb_render, fcb_block.
  set (Q := replicate k ch_dot ++ (upchar <$> take (8 - k) body)).
  assert (HQ : (length Q ≤ 8)%nat).
  { unfold Q. rewrite length_app, length_replicate, length_fmap, length_take. lia. }
  assert (HQs : Forall (λ c, c ≠ ch_space) Q).
  { unfold Q. apply Forall_app. split.
    - apply Forall_replicate. done.
    - by apply plain_not_space, Forall_plain_upchar, Forall_take. }
  destruct (ext_of_plain tl) as [HE HEl].
  rewrite take_app_length' by (symmetry; apply length_pad).
  rewrite drop_app_length' by (symmetry; apply length_pad).
  rewrite !pad_short by done.
  rewrite !until_space_padding by (done || by apply plain_not_space).
  unfold Q. by rewrite <- app_assoc.
Qed.

(** The extension of a rendered name is the extension it was rendered
    from. *)
Lemma ext_of_rendered (tl : list Z) :
  ext_of (match ext_of tl with [] => [] | ext => ch_dot :: ext end) = ext_of tl.
Proof.
  destruct (ext_of_plain tl) as [HE HEl].
  assert (Hup : upchar <$> ext_of tl = ext_of tl).
  { destruct tl as [| c r]; simpl; [done |].
    destruct (c =? ch_dot); [| done].
    rewrite <- list_fmap_compose. apply list_fmap_ext. intros _ x _.
    apply upchar_idem. }
  destruct (ext_of tl) as [| e ext] eqn:Hext; [done |].
  change (ext_of (ch_dot :: e :: ext))
    with (upchar <$> take 3 (while_plain (e :: ext))).
  rewrite while_plain_all by done.
  by rewrite take_ge by done.
Qed.

Lemma base_part_rest (s : list Z) : base_part s ++ base_rest s = s.
Proof. induction s as [| c r IH]; simpl; [done |]. destruct (stopc c); simpl; congruence. Qed.

Lemma base_part_Forall (s : list Z) : Forall (λ c, stopc c = false) (base_part s).
Proof.
  induction s as [| c r IH]; simpl; [constructor |].
  destruct (stopc c) eqn:Hc; by constructor.
Qed.

Lemma base_rest_head (s : list Z) :
  base_rest s = [] ∨ ∃ c r, base_rest s = c :: r ∧ (c = ch_dot ∨ c = 0).
Proof.
  induction s as [| c r IH]; simpl; [by left |].
  destruct (stopc c) eqn:Hc; [| done]. right. exists c, r. split; [done |].
  unfold stopc in Hc.
  destruct (Z.eqb_spec c ch_dot); [by left |].
  destruct (Z.eqb_spec c 0); [by right | done].
Qed.

Lemma unspaced_plain (s : list Z) :
  Forall (λ c, stopc c = false) s → Forall (λ c, plain c = true) (unspaced s).
Proof.
  intros Hs. unfold unspaced. apply Forall_forall. intros c Hc.
  apply list_elem_of_filter in Hc as [Hsp Hin].
  rewrite Forall_forall in Hs. specialize (Hs c Hin).
  unfold plain, stopc in *. destruct (c =? ch_dot), (c =? 0); try done.
  by destruct (Z.eqb_spec c ch_space).
Qed.

Lemma unspaced_spaces (m : nat) (s : list Z) :
  unspaced (replicate m ch_space ++ s) = unspaced s.
Proof.
  induction m as [| m IH]; simpl; [done |].
  unfold unspaced in *. by rewrite filter_cons_False by (by intros ?).
Qed.

Lemma spaces_split (s : list Z) :
  ∃ m r, s = replicate m ch_space ++ r
         ∧ (r = [] ∨ ∃ c t, r = c :: t ∧ c ≠ ch_space).
Proof.
  induction s as [| c s IH]; [by exists 0%nat, []; split; [| left] |].
  destruct (decide (c = ch_space)) as [-> | Hc].
  - destruct IH as (m & r & -> & Hr). by exists (S m), r.
  - exists 0%nat, (c :: s). split; [done |]. right. eauto.
Qed.

(** [while (s[j] == ' ') j++] over a run of spaces. *)
Lemma skip_spaces_run (rest : list Z) (m : nat) :
  default 0 (head rest) ≠ ch_space →
  ∀ (P : list Z) (fuel : nat),
    (m < fuel)%nat →
    skip_spaces fuel (P ++ replicate m ch_space ++ rest) (length P)
    = Some (length P + m)%nat.
Proof.
  intros Hrest. induction m as [| m IH]; intros P fuel Hm;
    (destruct fuel as [| fuel]; [lia |]); simpl.
  - rewrite rd_app_r. simpl.
    destruct (Z.eqb_spec (default 0 (head rest)) ch_space); [done |].
    by rewrite Nat.add_0_r.
  - rewrite rd_app_mid. simpl. change (ch_space =? ch_space) with true.
    cbv iota.
    replace (S (length P)) with (length (P ++ [ch_space]))
      by (rewrite length_app; simpl; lia).
    replace (P ++ ch_space :: replicate m ch_space ++ rest)
      with ((P ++ [ch_space]) ++ replicate m ch_space ++ rest)
      by (by rewrite <- app_assoc).
    rewrite IH by lia. f_equal. rewrite length_app. simpl. lia.
Qed.

(** The second loop on a base part: its spaces are skipped. A space
    that ends the base part is only reached when the 8 bytes are not
    full by then. *)
Lemma fcb_base_spaces (tl : list Z) :
  (tl = [] ∨ ∃ c r, tl = c :: r ∧ (c = ch_dot ∨ c = 0)) →
  ∀ (fuel : nat) (P B pre : list Z) (n : nat),
    Forall (λ c, stopc c = false) B →
    (last B ≠ Some ch_space ∨ (fuel ≤ length (unspaced B))%nat) →
    (fuel ≤ n)%nat →
    fcb_base fuel (P ++ B ++ tl) (length pre) (length P)
             (pre ++ replicate n ch_space)
    = Some ((length pre + length (take fuel (unspaced B)))%nat,
            (pre ++ (upchar <$> take fuel (unspaced B)))
            ++ replicate (n - length (take fuel (unspaced B))) ch_space).
Proof.
  intros Htl. induction fuel as [| fuel IH]; intros P B pre n HB Hend Hn.
  - simpl. by rewrite Nat.add_0_r, Nat.sub_0_r, app_nil_r.
  - cbn [fcb_base]. destruct B as [| c0 B0].
    { cbn [app]. rewrite rd_app_r. simpl.
      rewrite Nat.add_0_r, Nat.sub_0_r, app_nil_r.
      destruct Htl as [-> | (c & r & -> & [-> | ->])]; done. }
    change ((c0 :: B0) ++ tl) with (c0 :: (B0 ++ tl)).
    rewrite rd_app_mid. cbn [mbind option_bind].
    assert (Hc0 : (c0 =? ch_dot) || (c0 =? 0) = false)
      by (by inversion HB).
    rewrite Hc0.
    destruct (spaces_split (c0 :: B0)) as (m & B1 & HB1 & Hhead).
    assert (Hun : unspaced (c0 :: B0) = unspaced B1)
      by (rewrite HB1; apply unspaced_spaces).
    destruct Hhead as [-> | (c1 & B2 & -> & Hc1)].
    { exfalso. rewrite app_nil_r in HB1. rewrite Hun in Hend. simpl in Hend.
      destruct Hend as [Hend | Hend]; [| lia]. apply Hend.
      rewrite HB1. destruct m as [| m]; [done |].
      rewrite replicate_S_end. by rewrite last_snoc. }
    assert (HB' : Forall (λ c, stopc c = false) (c1 :: B2)).
    { rewrite HB1 in HB. by apply Forall_app in HB as [_ ?]. }
    assert (Hs : P ++ c0 :: B0 ++ tl
                 = P ++ replicate m ch_space ++ (c1 :: B2 ++ tl)).
    { change (c0 :: B0 ++ tl) with ((c0 :: B0) ++ tl).
      rewrite HB1. by rewrite <- app_assoc. }
    rewrite Hs.
    rewrite skip_spaces_run; [| done | ].
    2:{ rewrite !length_app, length_replicate. simpl. lia. }
    cbn [mbind option_bind].
    replace (P ++ replicate m ch_space ++ c1 :: B2 ++ tl)
      with ((P ++ replicate m ch_space) ++ c1 :: (B2 ++ tl))
      by (by rewrite <- app_assoc).
    replace (length P + m)%nat with (length (P ++ replicate m ch_space))
      by (by rewrite length_app, length_replicate).
    rewrite rd_app_mid. cbn [mbind option_bind].
    destruct n as [| n]; [lia |]. cbn [replicate].
    rewrite insert_padding.
    replace (S (length pre)) with (length (pre ++ [upchar c1]))
      by (rewrite length_app; simpl; lia).
    replace (S (length (P ++ replicate m ch_space)))
      with (length ((P ++ replicate m ch_space) ++ [c1]))
      by (rewrite !length_app; simpl; lia).
    replace ((P ++ replicate m ch_space) ++ c1 :: B2 ++ tl)
      with (((P ++ replicate m ch_space) ++ [c1]) ++ B2 ++ tl)
      by (by rewrite <- !app_assoc).
    assert (Hun1 : unspaced (c1 :: B2) = c1 :: unspaced B2)
      by (unfold unspaced; by rewrite filter_cons_True).
    rewrite IH; [| by inversion HB' | | lia].
    + rewrite Hun, Hun1. simpl. rewrite length_app. simpl.
      do 2 f_equal; [lia |]. rewrite <- !app_assoc. done.
    + rewrite Hun, Hun1 in Hend. simpl in Hend.
      destruct Hend as [Hend | Hend]; [| right; lia].
      left. destruct B2 as [| c2 B3]; [done |].
      intros Hl. apply Hend. rewrite HB1.
      rewrite last_app. by rewrite last_cons, Hl.
Qed.

(** The fast forward over a base part. *)
Lemma fcb_forward_base (B tl : list Z) :
  Forall (λ c, stopc c = false) B →
  (tl = [] ∨ ∃ c r, tl = c :: r ∧ (c = ch_dot ∨ c = 0)) →
  fcb_forward (B ++ tl) = tl.
Proof.
  intros HB Htl. induction HB as [| c B Hc _ IH]; simpl.
  - destruct Htl as [-> | (c & r & -> & [-> | ->])]; done.
  - unfold stopc in Hc. by rewrite Hc.
Qed.

Lemma length_unspaced (s : list Z) : (length (unspaced s) ≤ length s)%nat.
Proof. apply length_filter. Qed.

(** [filename2fcb] on a name of [k] dots, a base part and a rest that is
    empty or starts with a dot or a NUL. *)
Lemma filename2fcb_spaces (k : nat) (B tl : list Z) :
  (k ≤ 8)%nat →
  Forall (λ c, stopc c = false) B →
  (tl = [] ∨ ∃ c r, tl = c :: r ∧ (c = ch_dot ∨ c = 0)) →
  (k = 8%nat ∨ default 0 (head (B ++ tl)) ≠ ch_dot) →
  (last B ≠ Some ch_space ∨ (8 - k ≤ length (unspaced B))%nat) →
  filename2fcb (replicate k ch_dot ++ B ++ tl)
  = Some (fcb_block k (unspaced B) tl).
Proof.
  intros Hk HB Htl Hstop Hend. unfold filename2fcb.
  pose proof (fcb_dots_spec k 8 [] (B ++ tl) 11) as Hd.
  cbn [length app Nat.add] in Hd. rewrite Hd by (lia || done). clear Hd.
  cbn [mbind option_bind].
  pose proof (fcb_base_spaces tl Htl (8 - k) (replicate k ch_dot) B
                (replicate k ch_dot) (11 - k) HB Hend) as Hb.
  rewrite length_replicate in Hb. rewrite Hb by lia. clear Hb.
  cbn [mbind option_bind].
  set (body := unspaced B). set (body' := take (8 - k) body).
  assert (Hlen : (length body' ≤ 8 - k)%nat) by (unfold body'; rewrite length_take; lia).
  assert (Hlen' : (length body' ≤ length B)%nat).
  { unfold body', body. rewrite length_take. pose proof (length_unspaced B). lia. }
  replace (drop (k + length body') (replicate k ch_dot ++ B ++ tl))
    with (drop (length body') B ++ tl).
  2:{ rewrite drop_app_ge by (rewrite length_replicate; lia).
      rewrite length_replicate.
      replace (k + length body' - k)%nat with (length body') by lia.
      by rewrite drop_app_le. }
  rewrite fcb_forward_base; [| by apply Forall_drop | done].
  set (Q := replicate k ch_dot ++ (upchar <$> body')).
  assert (HQ : length Q = (k + length body')%nat).
  { unfold Q. by rewrite length_app, length_replicate, length_fmap. }
  assert (Hd : Q ++ replicate (11 - k - length body') ch_space
               = pad 8 Q ++ replicate 3 ch_space).
  { rewrite pad_short by lia. rewrite <- app_assoc, <- replicate_add.
    do 2 f_equal. lia. }
  unfold fcb_block. fold body'. fold Q. rewrite Hd.
  destruct tl as [| c r]; [done |].
  destruct Htl as [? | (c' & r' & [= -> ->] & [-> | ->])]; [done | | done].
  change (ch_dot =? 0) with false. cbv iota.
  change (ext_of (ch_dot :: r')) with (upchar <$> take 3 (while_plain r')).
  pose proof (fcb_ext_spec 3 r' (pad 8 Q) 3) as He.
  rewrite length_pad in He. rewrite He by lia.
  rewrite <- app_assoc. do 2 f_equal.
  rewrite pad_short; [by rewrite length_fmap |].
  rewrite length_fmap, length_take. lia.
Qed.

(** C5, amended. For a filename whose base part (what follows the
    leading dots, up to the first dot or NUL) does not end with a
    space, or holds enough bytes other than spaces to fill what the
    dots leave of the 8 bytes of the base field, [filename2fcb] gives
    the 11-byte block of the dots, the base part without its spaces and
    the extension, and [filename2fcb] applied to the 8.3 name rendered
    from that block (the base bytes before the padding, then a dot and
    the extension bytes when the extension is not empty) gives the same
    block again. *)
Theorem filename2fcb_idempotent_on_rendered (X : list Z) :
  let k := count_dots 8 X in
  let base := base_part (drop k X) in
  last base ≠ Some ch_space ∨ (8 - k ≤ length (unspaced base))%nat →
  ∃ B, filename2fcb X = Some B
       ∧ B = fcb_block k (unspaced base) (base_rest (drop k X))
       ∧ length B = 11%nat
       ∧ filename2fcb (fcb_render B) = Some B.
Proof.
  intros k base Hend.
  destruct (count_dots_spec 8 X) as (HXk & Hk & Hstop).
  fold k in HXk, Hk, Hstop.
  set (X1 := drop k X) in *.
  set (tl := base_rest X1).
  assert (HX1 : X1 = base ++ tl) by (symmetry; apply base_part_rest).
  assert (HB : Forall (λ c, stopc c = false) base) by apply base_part_Forall.
  assert (Htl : tl = [] ∨ ∃ c r, tl = c :: r ∧ (c = ch_dot ∨ c = 0))
    by apply base_rest_head.
  set (body := unspaced base).
  assert (Hbody : Forall (λ c, plain c = true) body) by by apply unspaced_plain.
  exists (fcb_block k body tl).
  assert (Hfirst : filename2fcb X = Some (fcb_block k body tl)).
  { rewrite HXk at 1. rewrite HX1.
    apply filename2fcb_spaces; try done. by rewrite <- HX1. }
  split; [done |]. split; [done |]. split.
  { unfold fcb_block. by rewrite length_app, !length_pad. }
  rewrite fcb_render_block by done.
  set (body2 := upchar <$> take (8 - k) body).
  set (tl2 := match ext_of tl with [] => [] | ext => ch_dot :: ext end).
  assert (Hbody2 : Forall (λ c, plain c = true) body2)
    by (by apply Forall_plain_upchar, Forall_take).
  assert (Hlen2 : (length body2 ≤ 8 - k)%nat)
    by (unfold body2; rewrite length_fmap, length_take; lia).
  rewrite filename2fcb_shape; try done.
  - f_equal. unfold fcb_block. f_equal.
    + do 2 f_equal. rewrite take_ge by done. unfold body2.
      rewrite <- list_fmap_compose. apply list_fmap_ext. intros _ x _.
      apply upchar_idem.
    + f_equal. apply ext_of_rendered.
  - unfold tl2. destruct (ext_of tl); [by left |]. right. eauto.
  - destruct (decide (k = 8%nat)) as [? | Hk8]; [by left |].
    destruct Hstop as [? | Hstop]; [done |]. right.
    destruct body2 as [| c b2] eqn:Hb2.
    + assert (body = []) as Hb.
      { unfold body2 in Hb2. apply fmap_nil_inv in Hb2.
        destruct body; [done |].
        destruct (8 - k)%nat eqn:?; [lia | done]. }
      assert (Hbase : base = []).
      { destruct Hend as [Hend | Hend]; [| fold body in Hend; rewrite Hb in Hend; simpl in Hend; lia].
        destruct (spaces_split base) as (m & r & Hr & Hhead).
        destruct Hhead as [-> | (c1 & t & -> & Hc1)].
        - rewrite app_nil_r in Hr. destruct m as [| m]; [done |].
          exfalso. apply Hend. rewrite Hr, replicate_S_end. by rewrite last_snoc.
        - exfalso. unfold body in Hb. rewrite Hr, unspaced_spaces in Hb.
          unfold unspaced in Hb. by rewrite filter_cons_True in Hb. }
      rewrite HX1, Hbase in Hstop. simpl in Hstop. unfold tl2.
      destruct tl as [| c r]; [done |]. simpl in *.
      destruct (Z.eqb_spec c ch_dot); done.
    + simpl. apply Forall_cons in Hbody2 as [Hc _]. by intros ->.
Qed.

End FcbNames.

(** ** RENAME and DELETE *)

Section Rename.
Context `{H : Host}.
Variables (E : env) (mymac : list Z) (rootarray : Z → option (list Z))
          (drivesfat : Z → Z).

Lemma handle_query_rename (reqdrv : Z) (root reqbuff : list Z)
    (reqbufflen : Z) (answ : list Z) (st : server) :
  2 < reqbufflen →
  handle_query E drivesfat AL_RENAME reqdrv root reqbuff reqbufflen answ st
  = do_rename root reqbuff reqbufflen answ st.
Proof.
  intros Hlen. unfold handle_query.
  replace (reqbufflen >? 2) with true by (symmetry; apply Z.gtb_lt; lia).
  reflexivity.
Qed.

(** C7, amended. A RENAME request that is dispatched, with a payload of
    more than 2 bytes and more bytes than the source length it states,
    whose source path resolves on the host and whose destination path,
    as the server composes it (the root, a slash and the request's
    bytes in lower case with slashes for backslashes), names an item
    the host can [stat], is answered with 60 bytes and AX = 5, and the
    state (file database and host filesystem) is left as it was. *)
Theorem rename_onto_existing_refused (answer : struct_answcache)
    (reqbuff : list Z) (reqbufflen : Z) (st : server)
    (root fn1 fn2 host_fn1 : list Z) (sb : stat_t) :
  60 ≤ reqbufflen →
  cache_hit answer reqbuff = false →
  2 ≤ Z.land (get reqbuff 58) 31 ≤ 25 →
  rootarray (Z.land (get reqbuff 58) 31) = Some root →
  get reqbuff 59 = AL_RENAME →
  2 < reqbufflen - 60 →
  get reqbuff 60 < reqbufflen - 60 →
  dospath root reqbuff 61 (get reqbuff 60) = Some fn1 →
  dospath root reqbuff (61 + get reqbuff 60)
          (reqbufflen - 60 - (1 + get reqbuff 60)) = Some fn2 →
  shorttolong (fs st) fn1 root = Some (0, host_fn1) →
  h_stat (fs st) fn2 = Some sb →
  ∃ answ,
    process E mymac rootarray drivesfat answer reqbuff reqbufflen st
      = Some (60, answ, st)
    ∧ le16 answ 58 = 5.
Proof.
  intros Hlen Hmiss Hdrv Hroot Hq Hpl Hsrc Hfn1 Hfn2 Hshort Hstat.
  rewrite (process_reaches_query _ _ _ _ _ _ _ _ root) by done.
  rewrite Hq, handle_query_rename by done.
  unfold do_rename.
  replace (reqbufflen - 60 >? get reqbuff 60) with true
    by (symmetry; apply Z.gtb_lt; lia).
  rewrite Hfn1, Hfn2. cbn [mbind option_bind]. rewrite Hshort.
  cbn [mbind option_bind negb Z.eqb].
  assert (Hattr : ∃ attr, getitemattr (fs st) fn2 None 0 = Some (attr, None)
                          ∧ (attr = 16 ∨ attr = 32)).
  { unfold getitemattr. rewrite Hstat. destruct (st_isdir sb); eauto. }
  destruct Hattr as (attr & -> & Hattr). cbn [mbind option_bind].
  replace (attr =? 255) with false by (by destruct Hattr as [-> | ->]).
  cbn [negb]. unfold ret. eexists. split; [reflexivity |].
  unfold set_ax. apply le16_put16; lia.
Qed.

End Rename.

Section Worked.
Import SimHost Sample.

(** C7, as stated, fails. The destination \DIR names the directory Dir
    of the root, as [shorttolong] resolves it, but the file database is
    asked about the path as composed, /srv//dir, which names nothing on
    a host that tells the cases apart: the RENAME of \A1.TXT to \DIR is
    answered with AX = 0 and a1.txt is renamed to dir. And with \B.TXT
    in place and no \A.TXT, the RENAME of \A.TXT to \B.TXT is answered
    with AX = 0, not 5. *)
Lemma rename_onto_existing_not_refused :
  let req1 := request 1 AL_RENAME (7 :: of_string "\A1.TXT\DIR") in
  let req2 := request 1 AL_RENAME (6 :: of_string "\A.TXT\B.TXT") in
  (shorttolong fs0 (of_string "/srv//dir") (of_string "/srv")
     = Some (0, of_string "/srv/Dir")
   ∧ h_stat fs0 (of_string "/srv/Dir") ≠ None
   ∧ h_stat fs0 (of_string "/srv/a1.txt") ≠ None
   ∧ (r ← run answ_zero req1 st0;
      Some (r.1.1, le16 r.1.2 58,
            h_stat (fs r.2) (of_string "/srv/a1.txt"),
            h_stat (fs r.2) (of_string "/srv/dir")))
     = Some (60, 0, None, Some (Stat false 3 0)))
  ∧ (h_stat fs0 (of_string "/srv//b.txt") ≠ None
     ∧ run answ_zero req2 st0
       = Some (60, set_ax (reply_header server_mac (frame answ_zero) req2) 0,
               st0)
     ∧ le16 (set_ax (reply_header server_mac (frame answ_zero) req2) 0) 58 = 0).
Proof. intros req1 req2. subst req1 req2. compute_done. Qed.

(** The RENAME of \A1.TXT to \B.TXT, both in place. *)
Lemma rename_onto_existing_refused_witness :
  let req := request 1 AL_RENAME (7 :: of_string "\A1.TXT\B.TXT") in
  ∃ answ, run answ_zero req st0 = Some (60, answ, st0) ∧ le16 answ 58 = 5.
Proof.
  intros req.
  apply (rename_onto_existing_refused E0 server_mac rootarray drivesfat
           answ_zero req (Z.of_nat (length req)) st0 (of_string "/srv")
           (of_string "/srv//a1.txt") (of_string "/srv//b.txt")
           (of_string "/srv/a1.txt") (Stat false 1 0));
    try (vm_compute; done); compute_done.
Defined.

(** C6. The DELETE of \A?.TXT on a drive whose root holds a1.txt, a
    regular file whose FCB name matches the mask: [delfiles] would
    remove it, but the request is answered with AX = 2 and nothing is
    removed, since no directory entry has the FCB name "A?      TXT"
    and the path is therefore not resolved. *)
Lemma delete_wildcard_removes_nothing :
  let req := request 1 AL_DELETE (of_string "\A?.TXT") in
  filename2fcb (of_string "a?.txt") = Some (of_string "A?      TXT")
  ∧ filename2fcb (of_string "a1.txt") = Some (of_string "A1      TXT")
  ∧ matchfile2mask (of_string "A?      TXT") (of_string "A1      TXT") = 0
  ∧ (r ← delfiles (of_string "/srv/a?.txt") fs0;
     Some (r.1, h_stat r.2 (of_string "/srv/a1.txt"))) = Some (0, None)
  ∧ h_stat fs0 (of_string "/srv/a1.txt") ≠ None
  ∧ run answ_zero req st0
    = Some (60, set_ax (reply_header server_mac (frame answ_zero) req) 2, st0)
  ∧ le16 (set_ax (reply_header server_mac (frame answ_zero) req) 2) 58 = 2.
Proof. intros req. subst req. compute_done. Qed.

End Worked.

Section WorkedNames.
Import SimHost Sample.

(** C5, as stated, fails: [filename2fcb] of the block of a.txt, taken as
    the string it is, is another block; and so is, for a name with a
    space, [filename2fcb] of the 8.3 name rendered from its block. *)
Lemma filename2fcb_not_idempotent_on_block :
  filename2fcb (of_string "a.txt") = Some (of_string "A       TXT")
  ∧ filename2fcb (of_string "A       TXT") = Some (of_string "ATXT       ")
  ∧ filename2fcb (of_string "a .txt") = Some (of_string "A.TXT      ")
  ∧ fcb_render (of_string "A.TXT      ") = of_string "A.TXT"
  ∧ filename2fcb (of_string "A.TXT") = Some (of_string "A       TXT").
Proof. compute_done. Qed.

(** The name "my file.txt": the space of the base is skipped, and the
    name rendered from the block, MYFILE.TXT, gives the block again. *)
Lemma filename2fcb_idempotent_on_rendered_witness :
  ∃ B, filename2fcb (of_string "my file.txt") = Some B
       ∧ B = of_string "MYFILE  TXT"
       ∧ length B = 11%nat
       ∧ filename2fcb (fcb_render B) = Some B.
Proof.
  apply (filename2fcb_idempotent_on_rendered (of_string "my file.txt")).
  left. compute_done.
Defined.


(** The second call for a path that the first one put into slot 1 of
    the file database. *)
Lemma getitemss_idempotent_witness :
  ∃ db2,
    getitemss E0 (of_string "/srv/Dir") db_dir = Some (1, db2)
    ∧ sstoitem db_dir 1 = Some (of_string "/srv/Dir")
    ∧ sstoitem db2 1 = Some (of_string "/srv/Dir")
    ∧ ∀ j, sstoitem db2 j = sstoitem db_dir j ∨ sstoitem db2 j = None.
Proof.
  apply (getitemss_idempotent E0 E0 (of_string "/srv/Dir") db_root db_dir 1).
  - intros j. unfold db_root. rewrite fsdb_get_insert.
    destruct (decide (0 = j)); [done |]. unfold fsdb_get.
    by rewrite lookup_empty.
  - compute_done.
  - done.
Defined.

End WorkedNames.

Section WorkedRequests.
Import SimHost Sample.

(** The DELETE of \A1.TXT arrives a second time, after it was served:
    the turn of the main loop sends the 60 bytes it sent the first time
    and leaves the cache and the state as they were. *)
Lemma cached_reply_returned_as_is_witness :
  let cache := after_delete.1 in
  let st := after_delete.2 in
  let buflen := Z.of_nat (length delete_req) in
  let cacheptr := findcacheentry cache (sub delete_req 6 6) in
  let answer := default answ_zero (cache !! cacheptr) in
  h_stat (fs st0) (of_string "/srv/a1.txt") ≠ None
  ∧ h_stat (fs st) (of_string "/srv/a1.txt") = None
  ∧ (r ← turn rootarray cache0 delete_req st0; length <$> r.2) = Some 60%nat
  ∧ turn rootarray cache delete_req st = turn rootarray cache0 delete_req st0
  ∧ process E0 server_mac rootarray drivesfat answer delete_req buflen st
    = Some (len answer, frame answer, st)
  ∧ dispatch E0 server_mac rootarray drivesfat cache delete_req buflen st
    = Some (len answer, cacheptr,
            <[cacheptr := Answ (frame answer) (env_now E0) (len answer)]> cache,
            st).
Proof.
  intros cache st buflen cacheptr answer.
  split; [subst st; compute_done |]. split; [subst st; compute_done |].
  split; [compute_done |]. split; [subst cache st; compute_done |].
  apply (cached_reply_returned_as_is (H := host) E0 server_mac rootarray
           drivesfat cache delete_req buflen st);
    subst cache buflen; compute_done.
Defined.

(** DISKSPACE on a filesystem of 1 GiB with 256 MiB free. *)
Lemma diskspace_reply_clamped_witness :
  let req := request 1 AL_DISKSPACE [] in
  let total := (diskinfo (fs st_disk) (of_string "/srv") (u64 (env_uninit E0))).1 in
  let free := (diskinfo (fs st_disk) (of_string "/srv") (u64 (env_uninit E0))).2 in
  ∃ answ,
    process E0 server_mac rootarray drivesfat answ_zero req 60 st_disk
      = Some (66, answ, st_disk)
    ∧ le16 answ 58 = 1
    ∧ le16 answ 60 = Z.shiftr (Z.min total (2 ^ 31 - 1)) 15
    ∧ le16 answ 62 = 32768
    ∧ le16 answ 64 = Z.shiftr (Z.min free (2 ^ 31 - 1)) 15
    ∧ le16 answ 60 * 32768 ≤ 2 ^ 31 - 1
    ∧ le16 answ 64 * 32768 ≤ 2 ^ 31 - 1.
Proof.
  intros req.
  apply (diskspace_reply_clamped (H := host) E0 server_mac rootarray drivesfat
           answ_zero req 60 st_disk (of_string "/srv"));
    subst req; compute_done.
Defined.

(** READFILE with a payload of 7 bytes. *)
Lemma readfile_bad_length_ignored_witness :
  let req := request 1 AL_READFIL (replicate 7 0) in
  let cacheptr := findcacheentry cache0 (sub req 6 6) in
  let answer := default answ_zero (cache0 !! cacheptr) in
  ∃ code answ,
    process E0 server_mac rootarray drivesfat answer req 67 st0
      = Some (code, answ, st0)
    ∧ code < 0
    ∧ (2 ≤ Z.land (get req 58) 31 ≤ 25 →
       is_Some (rootarray (Z.land (get req 58) 31)) →
       code = -1
       ∧ answ = set_ax (reply_header server_mac (frame answer) req) 0)
    ∧ dispatch E0 server_mac rootarray drivesfat cache0 req 67 st0
      = Some (code, cacheptr,
              <[cacheptr := Answ answ (timestamp answer) 0]> cache0, st0)
    ∧ (finalize 0 code answ).2 = None.
Proof.
  intros req.
  apply (readfile_bad_length_ignored (H := host) E0 server_mac rootarray
           drivesfat cache0 req 67 st0 0);
    subst req; compute_done.
Defined.

(** WRITEFILE with no data on handle 0, whose file is gone: [truncate]
    fails. *)
Lemma writefile_truncate_result_dropped_witness :
  let req := request 1 AL_WRITEFIL [0; 0; 0; 0; 0; 0] in
  let fname := of_string "/srv/gone.txt" in
  (h_truncate fname 0 (fs st_gone)).1 = -1
  ∧ writefile (sub req 66 0) (fsdb st_gone) (le16 req 64) (le32 req 60) 0
      (fs st_gone)
    = (0, (h_truncate fname (le32 req 60) (fs st_gone)).2)
  ∧ ∃ answ,
      process E0 server_mac rootarray drivesfat answ_zero req 66 st_gone
        = Some (62, answ,
                Server (fsdb st_gone)
                  (h_truncate fname (le32 req 60) (fs st_gone)).2)
      ∧ le16 answ 58 = 0
      ∧ le16 answ 60 = 0.
Proof.
  intros req fname. split; [subst fname; compute_done |].
  apply (writefile_truncate_result_dropped (H := host) E0 server_mac rootarray
           drivesfat answ_zero req st_gone (of_string "/srv") fname);
    subst req fname; compute_done.
Defined.

End WorkedRequests.

(** ** More on bytes *)

Section MoreBytes.

Lemma get_nonneg_list (buf : list Z) (i : nat) :
  get buf (Z.of_nat i) = default 0 (buf !! i).
Proof. rewrite get_lookup by lia. by rewrite Nat2Z.id. Qed.

Lemma get_set (buf : list Z) (i j v : Z) :
  0 ≤ i → 0 ≤ j →
  get (set buf i v) j = if decide (j = i) then v else get buf j.
Proof.
  intros Hi Hj. rewrite !(get_lookup _ j) by lia. unfold set.
  assert (Hij : j = i ↔ Z.to_nat j = Z.to_nat i) by lia.
  destruct (decide (Z.to_nat i < length buf)%nat) as [Hlt | Hge].
  - destruct (decide (j = i)) as [-> | Hne].
    + by rewrite list_lookup_insert_eq.
    + by rewrite list_lookup_insert_ne by lia.
  - destruct (decide (j = i)) as [-> | Hne].
    + rewrite lookup_app_r by lia. rewrite lookup_app_r by (rewrite length_replicate; lia).
      rewrite length_replicate.
      by replace (Z.to_nat i - length buf - (Z.to_nat i - length buf))%nat with 0%nat by lia.
    + destruct (decide (Z.to_nat j < length buf)%nat).
      * by rewrite lookup_app_l by lia.
      * rewrite (lookup_ge_None_2 buf) by lia. rewrite lookup_app_r by lia.
        destruct (decide (Z.to_nat j < Z.to_nat i)%nat).
        -- rewrite lookup_app_l by (rewrite length_replicate; lia).
           by rewrite lookup_replicate_2 by lia.
        -- rewrite lookup_ge_None_2; [done |].
           rewrite length_app, length_replicate. simpl. lia.
Qed.

Lemma length_sub (buf : list Z) (off n : Z) : length (sub buf off n) = Z.to_nat n.
Proof. unfold sub. by rewrite length_fmap, length_seq. Qed.

Lemma lookup_sub (buf : list Z) (off n : Z) (k : nat) :
  (k < Z.to_nat n)%nat → sub buf off n !! k = Some (get buf (off + Z.of_nat k)).
Proof.
  intros Hk. unfold sub. rewrite list_lookup_fmap, lookup_seq_lt by done. done.
Qed.

Lemma get_sub (buf : list Z) (off n k : Z) :
  0 ≤ k < n → get (sub buf off n) k = get buf (off + k).
Proof.
  intros Hk. rewrite get_lookup by lia. rewrite lookup_sub by lia. simpl.
  f_equal. lia.
Qed.

Lemma sub_app (buf : list Z) (off n m : Z) :
  0 ≤ n → 0 ≤ m → sub buf off (n + m) = sub buf off n ++ sub buf (off + n) m.
Proof.
  intros Hn Hm. apply list_eq. intros k.
  destruct (decide (k < Z.to_nat n)%nat) as [Hk | Hk].
  - rewrite lookup_app_l by (rewrite length_sub; lia).
    by rewrite !lookup_sub by lia.
  - rewrite lookup_app_r by (rewrite length_sub; lia). rewrite length_sub.
    destruct (decide (k < Z.to_nat (n + m))%nat) as [Hk' | Hk'].
    + rewrite !lookup_sub by lia. do 2 f_equal. lia.
    + rewrite !lookup_ge_None_2; [done | | ]; rewrite length_sub; lia.
Qed.

Lemma sub_of_list (pre s post : list Z) :
  sub (pre ++ s ++ post) (Z.of_nat (length pre)) (Z.of_nat (length s)) = s.
Proof.
  apply list_eq. intros k.
  destruct (decide (k < length s)%nat) as [Hk | Hk].
  - rewrite lookup_sub by lia. rewrite <- Nat2Z.inj_add, get_nonneg_list.
    rewrite lookup_app_r by lia. rewrite lookup_app_l by lia.
    replace (length pre + k - length pre)%nat with k by lia.
    destruct (lookup_lt_is_Some_2 s k Hk) as [x Hx]. by rewrite Hx.
  - rewrite !lookup_ge_None_2; [done | lia |]. rewrite length_sub. lia.
Qed.

Lemma cstr_no_nul (s : list Z) : 0 ∉ s → cstr s = s.
Proof.
  induction s as [| c r IH]; [done |]. intros Hs. simpl.
  destruct (Z.eqb_spec c 0) as [-> | _]; [exfalso; apply Hs; left |].
  rewrite IH; [done |]. intros Hr. apply Hs. by right.
Qed.

Lemma land_small (x : Z) (k : Z) :
  0 ≤ k → 0 ≤ x < 2 ^ k → Z.land x (Z.ones k) = x.
Proof. intros Hk Hx. rewrite Z.land_ones by lia. by apply Z.mod_small. Qed.

(** Bits that do not overlap add up. *)
Lemma lor_shiftl_small (hi lo k : Z) :
  0 ≤ k → 0 ≤ lo < 2 ^ k → Z.lor (Z.shiftl hi k) lo = hi * 2 ^ k + lo.
Proof.
  intros Hk Hlo. rewrite <- Z.shiftl_mul_pow2 by lia.
  assert (Hd : Z.land (Z.shiftl hi k) lo = 0).
  { apply Z.bits_inj'. intros n Hn. rewrite Z.land_spec, Z.bits_0.
    destruct (Z.ltb_spec n k).
    - by rewrite Z.shiftl_spec_low by lia.
    - destruct (decide (lo = 0)) as [-> | Hne];
        [by rewrite Z.bits_0, andb_false_r |].
      rewrite (Z.bits_above_log2 lo n); [by rewrite andb_false_r | lia |].
      apply Z.log2_lt_pow2; [lia |].
      eapply Z.lt_le_trans; [apply Hlo |]. apply Z.pow_le_mono_r; lia. }
  rewrite <- Z.lxor_lor by done. symmetry. by apply Z.add_nocarry_lxor.
Qed.

Lemma le32_bytes (v : Z) :
  0 ≤ v < 4294967296 →
  Z.land v 255 + 256 * Z.land (Z.shiftr v 8) 255
  + 65536 * Z.land (Z.shiftr v 16) 255 + 16777216 * Z.land (Z.shiftr v 24) 255 = v.
Proof.
  intros Hv. rewrite !land_255, !Z.shiftr_div_pow2 by lia.
  change (2 ^ 8) with 256. change (2 ^ 16) with 65536. change (2 ^ 24) with 16777216.
  Z.div_mod_to_equations. lia.
Qed.

Lemma le32_put32 (buf : list Z) (off v : Z) :
  0 ≤ off → 0 ≤ v < 4294967296 → le32 (write buf off (put32 v)) off = v.
Proof.
  intros Hoff Hv. unfold le32. rewrite !get_write by lia.
  change (Z.of_nat (length (put32 v))) with 4.
  zbool. replace (off - off) with 0 by lia. replace (off + 1 - off) with 1 by lia.
  replace (off + 2 - off) with 2 by lia. replace (off + 3 - off) with 3 by lia.
  by apply le32_bytes.
Qed.

End MoreBytes.

(** ** FCB names and masks *)

Section FcbMore.

Lemma upchar_lochar (c : Z) : upchar (lochar c) = upchar c.
Proof. unfold upchar, lochar. zbool. Qed.

Lemma get_fmap (f : Z → Z) (l : list Z) (i : Z) :
  f 0 = 0 → get (f <$> l) i = f (get l i).
Proof.
  intros Hf. unfold get. destruct (i <? 0); [done |].
  rewrite list_lookup_fmap. by destruct (l !! Z.to_nat i).
Qed.

Lemma get_replicate (n : nat) (x : Z) (i : Z) :
  0 ≤ i < Z.of_nat n → get (replicate n x) i = x.
Proof.
  intros Hi. rewrite get_lookup by lia. by rewrite lookup_replicate_2 by lia.
Qed.

Lemma forallb_below_11 (P : Z → bool) :
  forallb P (Z.of_nat <$> seq 0 11) = true ↔ ∀ i, 0 ≤ i < 11 → P i = true.
Proof.
  rewrite forallb_forall. split.
  - intros HP i Hi. apply HP. apply list_elem_of_In.
    apply list_elem_of_fmap. exists (Z.to_nat i). split; [lia |].
    apply elem_of_seq. lia.
  - intros HP i Hi. apply list_elem_of_In in Hi.
    apply list_elem_of_fmap in Hi as (k & -> & Hk).
    apply elem_of_seq in Hk. apply HP. lia.
Qed.

(** X1. [matchfile2mask] returns 0 exactly when, at each of the 11
    positions, the mask byte is '?' or the file byte and the mask byte
    are the same after [upchar]; every other result is -1. A mask of
    eleven '?' matches every block, and lower-casing the file block does
    not change the result. *)
Theorem matchfile2mask_spec (msk fil : list Z) :
  (matchfile2mask msk fil = 0 ↔
     ∀ i, 0 ≤ i < 11 →
          get msk i = ch_question ∨ upchar (get fil i) = upchar (get msk i))
  ∧ (matchfile2mask msk fil ≠ 0 → matchfile2mask msk fil = -1)
  ∧ matchfile2mask (replicate 11 ch_question) fil = 0
  ∧ matchfile2mask msk (lostring fil) = matchfile2mask msk fil.
Proof.
  assert (Hiff : ∀ m f, matchfile2mask m f = 0 ↔
            ∀ i, 0 ≤ i < 11 →
                 get m i = ch_question ∨ upchar (get f i) = upchar (get m i)).
  { intros m f. unfold matchfile2mask.
    destruct (forallb _ _) eqn:Hall.
    - split; [intros _ | done]. rewrite forallb_below_11 in Hall.
      intros i Hi. specialize (Hall i Hi).
      destruct (Z.eqb_spec (upchar (get f i)) (upchar (get m i))); [by right |].
      destruct (Z.eqb_spec (get m i) ch_question); [by left | done].
    - split; [done |]. intros Hm. exfalso.
      assert (Ht : forallb (λ i, negb (negb (upchar (get f i) =? upchar (get m i))
                                  && negb (get m i =? ch_question)))
                     (Z.of_nat <$> seq 0 11) = true); [| congruence].
      apply forallb_below_11. intros i Hi.
      destruct (Hm i Hi) as [-> | ->].
      + rewrite Z.eqb_refl. by rewrite andb_false_r.
      + by rewrite Z.eqb_refl. }
  split; [apply Hiff |]. split; [| split].
  - unfold matchfile2mask. by destruct (forallb _ _).
  - apply Hiff. intros i Hi. left. by rewrite get_replicate by (simpl; lia).
  - assert (H01 : ∀ m f, matchfile2mask m f = 0 ∨ matchfile2mask m f = -1).
    { intros m f. unfold matchfile2mask. destruct (forallb _ _); auto. }
    assert (Heq : matchfile2mask msk (lostring fil) = 0
                  ↔ matchfile2mask msk fil = 0).
    { rewrite !Hiff. unfold lostring.
      split; intros Hm i Hi; specialize (Hm i Hi);
        rewrite get_fmap, upchar_lochar in * by done; done. }
    destruct (H01 msk fil) as [H1 | H1], (H01 msk (lostring fil)) as [H2 | H2];
      rewrite ?H1, ?H2; try done.
    + apply Heq in H1. congruence.
    + apply Heq in H2. congruence.
Qed.

End FcbMore.

Section FcbShape.

(** X2. For a base name that is not empty and an extension, both made
    of characters other than the dot, NUL and the space, [filename2fcb]
    of the base alone is its first 8 bytes in upper case, padded with
    spaces to 8, and 3 spaces; [filename2fcb] of base.ext is that base
    field followed by the first 3 bytes of the extension in upper case,
    padded with spaces to 3. *)
Theorem filename2fcb_base_ext (base ext : list Z) :
  base ≠ [] →
  Forall (λ c, plain c = true) base →
  Forall (λ c, plain c = true) ext →
  filename2fcb base
    = Some (pad 8 (upchar <$> take 8 base) ++ replicate 3 ch_space)
  ∧ filename2fcb (base ++ [ch_dot] ++ ext)
    = Some (pad 8 (upchar <$> take 8 base) ++ pad 3 (upchar <$> take 3 ext)).
Proof.
  intros Hne Hbase Hext.
  assert (Hhead : ∀ tl, default 0 (head (base ++ tl)) ≠ ch_dot).
  { intros tl. destruct base as [| c r]; [done |]. simpl.
    apply Forall_cons in Hbase as [Hc _]. unfold plain in Hc.
    destruct (Z.eqb_spec c ch_dot); [done | done]. }
  split.
  - pose proof (filename2fcb_shape 0 base [] ltac:(lia) Hbase ltac:(by left)
                  ltac:(right; apply Hhead)) as Hs.
    simpl in Hs. rewrite app_nil_r in Hs. rewrite Hs. done.
  - pose proof (filename2fcb_shape 0 base ([ch_dot] ++ ext) ltac:(lia) Hbase
                  ltac:(right; exists ch_dot, ext; auto)
                  ltac:(right; apply Hhead)) as Hs.
    simpl in Hs. simpl. rewrite Hs. unfold fcb_block. simpl.
    by rewrite while_plain_all by done.
Qed.

Lemma fcb_byte_upchar (c : Z) : fcb_byte (upchar c).
Proof. unfold fcb_byte, upchar. zbool. Qed.

Lemma fcb_inv_insert (d : list Z) (i : nat) (v : Z) :
  fcb_byte v →
  length d = 11%nat ∧ Forall fcb_byte d →
  length (<[i := v]> d) = 11%nat ∧ Forall fcb_byte (<[i := v]> d).
Proof.
  intros Hv [Hl Hd]. split; [by rewrite length_insert |].
  destruct (decide (i < length d)%nat).
  - by apply Forall_insert.
  - by rewrite list_insert_ge by lia.
Qed.

Lemma fcb_dots_inv (fuel : nat) (s : list Z) :
  ∀ (i : nat) (d : list Z) (i' : nat) (d' : list Z),
    fcb_dots fuel s i d = Some (i', d') →
    length d = 11%nat ∧ Forall fcb_byte d →
    length d' = 11%nat ∧ Forall fcb_byte d'.
Proof.
  induction fuel as [| fuel IH]; intros i d i' d' Hf Hd; simpl in Hf.
  - by injection Hf as <- <-.
  - destruct (rd s i) as [c |]; simpl in Hf; [| done].
    destruct (c =? ch_dot).
    + eapply IH; [done |]. apply fcb_inv_insert; [| done].
      unfold fcb_byte, ch_dot. lia.
    + by injection Hf as <- <-.
Qed.

Lemma fcb_base_inv (fuel : nat) (s : list Z) :
  ∀ (i j : nat) (d : list Z) (i' : nat) (d' : list Z),
    fcb_base fuel s i j d = Some (i', d') →
    length d = 11%nat ∧ Forall fcb_byte d →
    length d' = 11%nat ∧ Forall fcb_byte d'.
Proof.
  induction fuel as [| fuel IH]; intros i j d i' d' Hf Hd; cbn [fcb_base] in Hf.
  - by injection Hf as <- <-.
  - remember (S (length s)) as sl eqn:Hsl in Hf. clear Hsl.
    destruct (rd s j) as [c |]; cbn [mbind option_bind] in Hf; [| done].
    destruct ((c =? ch_dot) || (c =? 0)); [by injection Hf as <- <- |].
    destruct (skip_spaces sl s j) as [j' |]; cbn [mbind option_bind] in Hf;
      [| done].
    destruct (rd s j') as [c' |]; cbn [mbind option_bind] in Hf; [| done].
    eapply IH; [done |]. apply fcb_inv_insert; [apply fcb_byte_upchar | done].
Qed.

Lemma fcb_ext_inv (fuel : nat) :
  ∀ (s : list Z) (k : nat) (d : list Z),
    length d = 11%nat ∧ Forall fcb_byte d →
    length (fcb_ext fuel s k d) = 11%nat ∧ Forall fcb_byte (fcb_ext fuel s k d).
Proof.
  induction fuel as [| fuel IH]; intros s k d Hd; simpl; [done |].
  destruct s as [| c r]; [done |].
  destruct ((c =? ch_dot) || (c =? 0) || (c =? ch_space)); [done |].
  apply IH. apply fcb_inv_insert; [apply fcb_byte_upchar | done].
Qed.

(** X3. Every block [filename2fcb] produces has 11 bytes, none of
    which is a lower-case letter 'a'..'z'. *)
Theorem filename2fcb_block (s d : list Z) :
  filename2fcb s = Some d →
  length d = 11%nat ∧ ∀ b, b ∈ d → ¬ (97 ≤ b ≤ 122).
Proof.
  intros Hf. unfold filename2fcb in Hf.
  assert (H0 : length (replicate 11 ch_space) = 11%nat
               ∧ Forall fcb_byte (replicate 11 ch_space)).
  { split; [done |]. apply Forall_replicate. unfold fcb_byte, ch_space. lia. }
  destruct (fcb_dots 8 s 0 _) as [[i d1] |] eqn:Hd1; simpl in Hf; [| done].
  apply fcb_dots_inv in Hd1; [| done].
  destruct (fcb_base _ s i i d1) as [[i2 d2] |] eqn:Hd2; simpl in Hf; [| done].
  apply fcb_base_inv in Hd2; [| done].
  assert (Hd : length d = 11%nat ∧ Forall fcb_byte d).
  { destruct (fcb_forward _) as [| c r]; [by injection Hf as <- |].
    destruct (c =? 0); injection Hf as <-; [done |]. by apply (fcb_ext_inv 3 r 8 d2). }
  destruct Hd as [Hl Hd]. split; [done |].
  intros b Hb. by apply (proj1 (Forall_forall _ _) Hd).
Qed.

(** Lower-casing the name changes nothing for the block. *)
Lemma lochar_test (c x : Z) :
  x = ch_dot ∨ x = 0 ∨ x = ch_space → (lochar c =? x) = (c =? x).
Proof. unfold lochar, ch_dot, ch_space. intros [-> | [-> | ->]]; zbool. Qed.

Lemma rd_lostring (s : list Z) (j : nat) : rd (lostring s) j = lochar <$> rd s j.
Proof.
  unfold rd, lostring. change [0] with (lochar <$> [0]).
  by rewrite <- fmap_app, list_lookup_fmap.
Qed.

Lemma fcb_dots_lostring (fuel : nat) (s : list Z) :
  ∀ (i : nat) (d : list Z),
    fcb_dots fuel (lostring s) i d = fcb_dots fuel s i d.
Proof.
  induction fuel as [| fuel IH]; intros i d; simpl; [done |].
  rewrite rd_lostring. destruct (rd s i) as [c |]; simpl; [| done].
  rewrite lochar_test by auto. by rewrite IH.
Qed.

Lemma skip_spaces_lostring (fuel : nat) (s : list Z) :
  ∀ j, skip_spaces fuel (lostring s) j = skip_spaces fuel s j.
Proof.
  induction fuel as [| fuel IH]; intros j; simpl; [done |].
  rewrite rd_lostring. destruct (rd s j) as [c |]; simpl; [| done].
  rewrite lochar_test by auto. by rewrite IH.
Qed.

Lemma fcb_base_lostring (fuel : nat) (s : list Z) :
  ∀ (i j : nat) (d : list Z),
    fcb_base fuel (lostring s) i j d = fcb_base fuel s i j d.
Proof.
  induction fuel as [| fuel IH]; intros i j d; cbn [fcb_base]; [done |].
  replace (length (lostring s)) with (length s)
    by (unfold lostring; by rewrite length_fmap).
  rewrite (skip_spaces_lostring (S (length s))).
  remember (S (length s)) as sl eqn:Hsl. clear Hsl.
  rewrite rd_lostring. destruct (rd s j) as [c |]; cbn [mbind option_bind fmap option_fmap option_map]; [| done].
  rewrite !lochar_test by auto.
  destruct ((c =? ch_dot) || (c =? 0)); [done |].
  destruct (skip_spaces sl s j) as [j' |]; cbn [mbind option_bind]; [| done].
  rewrite rd_lostring.
  destruct (rd s j') as [c' |]; cbn [mbind option_bind fmap option_fmap option_map]; [| done].
  by rewrite upchar_lochar, IH.
Qed.

Lemma fcb_forward_lostring (s : list Z) :
  fcb_forward (lostring s) = lostring (fcb_forward s).
Proof.
  induction s as [| c r IH]; simpl; [done |].
  rewrite !lochar_test by auto.
  by destruct ((c =? ch_dot) || (c =? 0)).
Qed.

Lemma fcb_ext_lostring (fuel : nat) :
  ∀ (s : list Z) (k : nat) (d : list Z),
    fcb_ext fuel (lostring s) k d = fcb_ext fuel s k d.
Proof.
  induction fuel as [| fuel IH]; intros s k d; simpl; [done |].
  destruct s as [| c r]; simpl; [done |].
  rewrite !lochar_test by auto.
  destruct ((c =? ch_dot) || (c =? 0) || (c =? ch_space)); [done |].
  rewrite upchar_lochar. apply IH.
Qed.

(** X4. [filename2fcb] gives the same block for a name and for the
    name after [lostring]: the lower-casing the handlers apply to a DOS
    path does not change the FCB names of its parts. *)
Theorem filename2fcb_lostring (s : list Z) :
  filename2fcb (lostring s) = filename2fcb s.
Proof.
  unfold filename2fcb. rewrite fcb_dots_lostring.
  destruct (fcb_dots 8 s 0 _) as [[i d] |]; simpl; [| done].
  rewrite fcb_base_lostring.
  destruct (fcb_base _ s i i d) as [[i2 d2] |]; simpl; [| done].
  unfold lostring at 1. rewrite <- fmap_drop. fold (lostring (drop i2 s)).
  rewrite fcb_forward_lostring.
  destruct (fcb_forward (drop i2 s)) as [| c r]; simpl; [done |].
  rewrite lochar_test by auto. destruct (c =? 0); [done |].
  f_equal. apply (fcb_ext_lostring 3 r).
Qed.

End FcbShape.

(** ** DOS time stamps *)

Section Time.
Context `{H : Host}.

Lemma u64_small (x : Z) : 0 ≤ x < 2 ^ 64 → u64 x = x.
Proof.
  intros Hx. unfold u64. change 18446744073709551615 with (Z.ones 64).
  by apply land_small.
Qed.

(** One step of the packing: a shift and the next field. *)
Lemma time2dos_step (res y k : Z) :
  0 ≤ k → 0 ≤ res → 0 ≤ y < 2 ^ k → res * 2 ^ k + y < 2 ^ 64 →
  Z.lor (u64 (Z.shiftl res k)) (u64 y) = res * 2 ^ k + y.
Proof.
  intros Hk Hres Hy Hb.
  assert (0 < 2 ^ k) by (apply Z.pow_pos_nonneg; lia).
  rewrite (u64_small y) by lia.
  rewrite u64_small by (rewrite Z.shiftl_mul_pow2 by lia; nia).
  by apply lor_shiftl_small.
Qed.

(** X5. For a local time in the years 1980..2107 with month, day,
    hour, minute and second in range, [time2dos] is the DOS time stamp:
    year - 1980 in bits 25 and up, month (1..12) in bits 21..24, day in
    16..20, hour in 11..15, minute in 5..10 and half the second in bits
    0..4. It fits 32 bits and every field is read back by a shift and a
    mask. *)
Theorem time2dos_fields (t : Z) :
  let lt := h_localtime t in
  80 ≤ tm_year lt < 208 → 0 ≤ tm_mon lt < 12 → 1 ≤ tm_mday lt ≤ 31 →
  0 ≤ tm_hour lt < 24 → 0 ≤ tm_min lt < 60 → 0 ≤ tm_sec lt < 62 →
  time2dos t = (tm_year lt - 80) * 2 ^ 25 + (tm_mon lt + 1) * 2 ^ 21
               + tm_mday lt * 2 ^ 16 + tm_hour lt * 2 ^ 11
               + tm_min lt * 2 ^ 5 + tm_sec lt / 2
  ∧ 0 ≤ time2dos t < 2 ^ 32
  ∧ Z.shiftr (time2dos t) 25 = tm_year lt - 80
  ∧ Z.land (Z.shiftr (time2dos t) 21) 15 = tm_mon lt + 1
  ∧ Z.land (Z.shiftr (time2dos t) 16) 31 = tm_mday lt
  ∧ Z.land (Z.shiftr (time2dos t) 11) 31 = tm_hour lt
  ∧ Z.land (Z.shiftr (time2dos t) 5) 63 = tm_min lt
  ∧ Z.land (time2dos t) 31 = tm_sec lt / 2.
Proof.
  intros lt Hy Hm Hd Hh Hmi Hs.
  assert (Hs2 : 0 ≤ tm_sec lt / 2 < 31) by (Z.div_mod_to_equations; lia).
  assert (Hv : time2dos t
               = (tm_year lt - 80) * 2 ^ 25 + (tm_mon lt + 1) * 2 ^ 21
                 + tm_mday lt * 2 ^ 16 + tm_hour lt * 2 ^ 11
                 + tm_min lt * 2 ^ 5 + tm_sec lt / 2).
  { unfold time2dos. fold lt.
    rewrite (u64_small (tm_year lt - 80)) by (pow2; lia).
    rewrite (Z.shiftr_div_pow2 (tm_sec lt)) by lia. change (2 ^ 1) with 2.
    rewrite (time2dos_step _ (tm_mon lt + 1) 4) by (pow2; lia).
    rewrite (time2dos_step _ (tm_mday lt) 5) by (pow2; lia).
    rewrite (time2dos_step _ (tm_hour lt) 5) by (pow2; lia).
    rewrite (time2dos_step _ (tm_min lt) 6) by (pow2; lia).
    rewrite (time2dos_step _ (tm_sec lt / 2) 5) by (pow2; lia).
    pow2. lia. }
  split; [exact Hv |]. rewrite Hv.
  change 15 with (Z.ones 4). change 31 with (Z.ones 5). change 63 with (Z.ones 6).
  rewrite !Z.land_ones, !Z.shiftr_div_pow2 by lia.
  generalize dependent (tm_sec lt / 2). intros s2 Hs2.
  pow2. repeat split; try lia; Z.div_mod_to_equations; lia.
Qed.

End Time.

(** ** The checksum *)

Section Checksum.

(** The rotation of a 16-bit value by one bit to the right. *)
Lemma ror16 (r : Z) :
  0 ≤ r < 65536 →
  Z.lor (Z.shiftl r 15) (Z.shiftr r 1) mod 65536 = r / 2 + (r mod 2) * 32768.
Proof.
  intros Hr.
  rewrite Z.shiftr_div_pow2 by lia. change (2 ^ 1) with 2.
  assert (Hq : 0 ≤ r / 2 < 32768) by (Z.div_mod_to_equations; lia).
  assert (Hb : 0 ≤ r mod 2 < 2) by (apply Z.mod_pos_bound; lia).
  replace (Z.shiftl r 15) with (Z.shiftl (r / 2 * 2 + r mod 2) 15)
    by (f_equal; Z.div_mod_to_equations; lia).
  rewrite lor_shiftl_small by (change (2 ^ 15) with 32768; lia).
  change (2 ^ 15) with 32768.
  replace ((r / 2 * 2 + r mod 2) * 32768 + r / 2)
    with (r / 2 + r mod 2 * 32768 + r / 2 * 65536) by lia.
  rewrite Z.mod_add by lia. apply Z.mod_small. lia.
Qed.

Lemma bsdsum_range (l : list Z) : 0 ≤ bsdsum l < 65536.
Proof.
  unfold bsdsum. induction l as [| b l IH] using rev_ind; [simpl; lia |].
  rewrite fold_left_app. simpl. apply Z.mod_pos_bound. lia.
Qed.

(** X6. [bsdsum] of no bytes is 0 and the sum is always below 65536;
    a further byte rotates the sum right by one bit within 16 bits (the
    low bit becomes bit 15) and is then added modulo 65536. *)
Theorem bsdsum_rotate_add (l : list Z) (b : Z) :
  bsdsum [] = 0
  ∧ 0 ≤ bsdsum l < 65536
  ∧ bsdsum (l ++ [b])
    = (bsdsum l / 2 + (bsdsum l mod 2) * 32768 + b) mod 65536.
Proof.
  split; [done |]. split; [apply bsdsum_range |].
  unfold bsdsum at 1. rewrite fold_left_app. simpl.
  fold (bsdsum l). by rewrite ror16 by apply bsdsum_range.
Qed.

End Checksum.

(** ** The answer cache and the path helpers *)

Section CacheEntry.

Lemma findcacheentry_loop_spec (cache : list struct_answcache) (mac : list Z) :
  ∀ (fuel i oldest : nat),
    (oldest ≤ i)%nat → (oldest < i + fuel)%nat →
    (∀ j, (j < i)%nat → mac_of cache j ≠ sub mac 0 6) →
    (∀ j, (j < i)%nat →
          timestamp (cache_entry cache oldest) ≤ timestamp (cache_entry cache j)) →
    let r := findcacheentry_loop fuel cache mac i oldest in
    (r < i + fuel)%nat
    ∧ ((mac_of cache r = sub mac 0 6
        ∧ ∀ j, (j < r)%nat → mac_of cache j ≠ sub mac 0 6)
       ∨ ((∀ j, (j < i + fuel)%nat → mac_of cache j ≠ sub mac 0 6)
          ∧ ∀ j, (j < i + fuel)%nat →
                 timestamp (cache_entry cache r) ≤ timestamp (cache_entry cache j))).
Proof.
  induction fuel as [| fuel IH]; intros i oldest Hold Hpos Hmac Hmin; simpl.
  - split; [lia |]. right. rewrite Nat.add_0_r. auto.
  - fold (cache_entry cache i). fold (cache_entry cache oldest).
    destruct (decide (sub (frame (cache_entry cache i)) 0 6 = sub mac 0 6))
      as [Heq | Hne].
    + rewrite bool_decide_eq_true_2 by done.
      split; [lia |]. left. split; [done |]. exact Hmac.
    + rewrite bool_decide_eq_false_2 by done.
      set (oldest' := if timestamp (cache_entry cache i)
                           <? timestamp (cache_entry cache oldest)
                      then i else oldest).
      assert (Ho : (oldest' ≤ i)%nat) by (unfold oldest'; destruct (_ <? _); lia).
      assert (Hmac' : ∀ j, (j < S i)%nat → mac_of cache j ≠ sub mac 0 6).
      { intros j Hj. destruct (decide (j = i)) as [-> | ?]; [done |].
        apply Hmac. lia. }
      assert (Hmin' : ∀ j, (j < S i)%nat →
                timestamp (cache_entry cache oldest')
                ≤ timestamp (cache_entry cache j)).
      { intros j Hj. unfold oldest'.
        destruct (Z.ltb_spec (timestamp (cache_entry cache i))
                             (timestamp (cache_entry cache oldest))).
        - destruct (decide (j = i)) as [-> | ?]; [lia |].
          specialize (Hmin j ltac:(lia)). lia.
        - destruct (decide (j = i)) as [-> | ?]; [lia |].
          apply Hmin. lia. }
      destruct (IH (S i) oldest' ltac:(lia) ltac:(lia) Hmac' Hmin') as [Hr Hcase].
      replace (i + S fuel)%nat with (S i + fuel)%nat by lia. done.
Qed.

(** X7. [findcacheentry] always returns one of the 16 entries of the
    cache. It is the first entry whose frame starts with the MAC of the
    client, when there is one; otherwise no entry starts with that MAC
    and the returned entry has the least time stamp of all. *)
Theorem findcacheentry_spec (cache : list struct_answcache) (mac : list Z) :
  let r := findcacheentry cache mac in
  (r < ANSWCACHESZ)%nat
  ∧ ((mac_of cache r = sub mac 0 6
      ∧ ∀ j, (j < r)%nat → mac_of cache j ≠ sub mac 0 6)
     ∨ ((∀ j, (j < ANSWCACHESZ)%nat → mac_of cache j ≠ sub mac 0 6)
        ∧ ∀ j, (j < ANSWCACHESZ)%nat →
               timestamp (cache_entry cache r) ≤ timestamp (cache_entry cache j))).
Proof.
  apply (findcacheentry_loop_spec cache mac ANSWCACHESZ 0 0);
    [lia | unfold ANSWCACHESZ; lia | intros j Hj; lia | intros j Hj; lia].
Qed.

End CacheEntry.

Section Paths.

Lemma skip_slashes_replicate (k : nat) (s : list Z) :
  default 0 (head s) ≠ ch_slash →
  skip_slashes (replicate k ch_slash ++ s) = s.
Proof.
  intros Hs. induction k as [| k IH]; simpl.
  - destruct s as [| c r]; [done |]. simpl in Hs. simpl.
    by destruct (Z.eqb_spec c ch_slash).
  - change (ch_slash =? ch_slash) with true. exact IH.
Qed.

(** X8. [isroot] of a NULL directory is undefined (it is read). For a
    directory that is the root followed by any number of slashes and a
    name without slash, the result is 1 (also when the name is not
    empty, so a first-level directory without a trailing slash counts as
    the root); when a slash follows a non-empty name, the result is 0. *)
Theorem isroot_cases (root name rest : list Z) (k : nat) :
  ch_slash ∉ name →
  isroot root None = None
  ∧ isroot root (Some (root ++ replicate k ch_slash ++ name)) = Some 1
  ∧ (name ≠ [] →
     isroot root (Some (root ++ replicate k ch_slash ++ name
                             ++ ch_slash :: rest)) = Some 0).
Proof.
  intros Hname.
  assert (Hhead : ∀ t, name ≠ [] → default 0 (head (name ++ t)) ≠ ch_slash).
  { intros t Hne. destruct name as [| c r]; [done |]. simpl.
    intros ->. apply Hname. left. }
  split; [done |]. split.
  - unfold isroot. simpl. rewrite drop_app_length.
    destruct name as [| c r].
    + rewrite app_nil_r.
      replace (skip_slashes (replicate k ch_slash)) with (@nil Z).
      * by rewrite bool_decide_eq_false_2 by apply not_elem_of_nil.
      * clear. induction k; simpl; done.
    + rewrite skip_slashes_replicate.
      * by rewrite bool_decide_eq_false_2.
      * replace (c :: r) with ((c :: r) ++ []) by apply app_nil_r.
        by apply Hhead.
  - intros Hne. unfold isroot. simpl. rewrite drop_app_length.
    rewrite skip_slashes_replicate by (by apply Hhead).
    rewrite bool_decide_eq_true_2; [done |].
    apply elem_of_app. right. left.
Qed.

Lemma copy_after_last_slash_none (src : list Z) :
  ∀ dst, ch_slash ∉ src → copy_after_last_slash dst src = dst.
Proof.
  induction src as [| c r IH]; intros dst Hs; simpl; [done |].
  destruct (Z.eqb_spec c ch_slash) as [-> | _]; [exfalso; apply Hs; left |].
  apply IH. intros Hr. apply Hs. by right.
Qed.

(** X9. [copy_after_last_slash] leaves the destination as
    it is when the source has no slash, and otherwise sets it to what
    follows the last slash of the source. *)
Theorem copy_after_last_slash_spec (dst src : list Z) :
  (ch_slash ∉ src → copy_after_last_slash dst src = dst)
  ∧ (∀ pre post, src = pre ++ [ch_slash] ++ post → ch_slash ∉ post →
       copy_after_last_slash dst src = post).
Proof.
  split; [apply copy_after_last_slash_none |].
  intros pre post -> Hpost. revert dst.
  induction pre as [| c r IH]; intros dst; simpl.
  - by apply copy_after_last_slash_none.
  - apply IH.
Qed.

End Paths.

Section Explode.

Lemma explodepath_last_spec (buf : list Z) (off : Z) :
  ∀ (fuel : nat) (i last : Z),
    let L := explodepath_last fuel buf off i last in
    (L = last ∨ (i ≤ L < i + Z.of_nat fuel ∧ is_sep (get buf (off + L)) = true))
    ∧ ∀ j, i ≤ j < i + Z.of_nat fuel → L < j →
           is_sep (get buf (off + j)) = false.
Proof.
  induction fuel as [| fuel IH]; intros i last; simpl.
  - split; [by left | intros j Hj; lia].
  - fold (is_sep (get buf (off + i))).
    destruct (IH (i + 1) (if is_sep (get buf (off + i)) then i else last))
      as [Hl Hafter].
    set (L := explodepath_last fuel buf off (i + 1) _) in *.
    split.
    + destruct Hl as [Hl | [Hl Hs]]; [| right; split; [lia | done]].
      destruct (is_sep (get buf (off + i))) eqn:Hc; [| by left].
      right. rewrite Hl. split; [lia | done].
    + intros j Hj HL. destruct (decide (j = i)) as [-> | Hne].
      * destruct Hl as [Hl | [Hl _]]; [| lia].
        destruct (is_sep (get buf (off + i))); [lia | done].
      * apply Hafter; lia.
Qed.

Lemma elem_of_sub (buf : list Z) (off n x : Z) :
  x ∈ sub buf off n → ∃ k, 0 ≤ k < n ∧ x = get buf (off + k).
Proof.
  intros Hx. apply list_elem_of_lookup in Hx as [k Hk].
  assert (Hlt : (k < Z.to_nat n)%nat).
  { apply lookup_lt_Some in Hk. by rewrite length_sub in Hk. }
  rewrite lookup_sub in Hk by done. injection Hk as <-.
  exists (Z.of_nat k). split; [lia | done].
Qed.

(** X10. For a source of at least one byte, without NUL and without
    a drive prefix, [explodepath] splits the source in two: directory and
    file concatenated give the source back, the directory part is never
    empty (it is the first byte when there is no separator), the file
    part holds neither slash nor backslash, and when the source holds a
    separator the directory part ends with one. *)
Theorem explodepath_split (pre source post : list Z) :
  let buf := pre ++ source ++ post in
  let off := Z.of_nat (length pre) in
  source ≠ [] → (0 ∉ source) → get buf (off + 1) ≠ ch_colon →
  ∃ dir file,
    explodepath buf off (Z.of_nat (length source)) = Some (dir, file)
    ∧ dir ++ file = source
    ∧ dir ≠ []
    ∧ (ch_slash ∉ file) ∧ (ch_backslash ∉ file)
    ∧ (ch_slash ∈ source ∨ ch_backslash ∈ source →
       last dir = Some ch_slash ∨ last dir = Some ch_backslash).
Proof.
  intros buf off Hne Hnul Hcolon.
  set (n := Z.of_nat (length source)).
  assert (Hn : 0 < n) by (unfold n; destruct source; [done | simpl; lia]).
  unfold explodepath.
  destruct (Z.eqb_spec (get buf (off + 1)) ch_colon) as [| _]; [done |].
  replace (Z.to_nat n) with (length source) by (unfold n; lia).
  destruct (explodepath_last_spec buf off (length source) 0 0) as [HL Hafter].
  set (L := explodepath_last (length source) buf off 0 0) in *.
  assert (HLn : 0 ≤ L < n) by (unfold n; lia).
  destruct (Z.ltb_spec (n - (L + 1)) 0) as [| _]; [lia |].
  assert (Hsrc : sub buf off n = source) by apply sub_of_list.
  assert (Hsplit : sub buf off (L + 1) ++ sub buf (off + (L + 1)) (n - (L + 1))
                   = source).
  { rewrite <- sub_app by lia. by replace (L + 1 + (n - (L + 1))) with n by lia. }
  replace (off + L + 1) with (off + (L + 1)) by lia.
  set (dir := sub buf off (L + 1)) in *.
  set (file := sub buf (off + (L + 1)) (n - (L + 1))) in *.
  assert (Hd0 : 0 ∉ dir).
  { intros Hd. apply Hnul. rewrite <- Hsplit. apply elem_of_app. by left. }
  assert (Hf0 : 0 ∉ file).
  { intros Hf. apply Hnul. rewrite <- Hsplit. apply elem_of_app. by right. }
  assert (Hfile : ∀ x, x ∈ file → is_sep x = false).
  { intros x Hx. apply elem_of_sub in Hx as (k & Hk & ->).
    replace (off + (L + 1) + k) with (off + (L + 1 + k)) by lia.
    apply Hafter; lia. }
  exists dir, file. rewrite !cstr_no_nul by done.
  split; [done |]. split; [done |]. split; [| split; [| split]].
  - intros Hd. apply (f_equal length) in Hd. unfold dir in Hd.
    rewrite length_sub in Hd. simpl in Hd. lia.
  - intros Hx. apply Hfile in Hx. unfold is_sep in Hx.
    by rewrite Z.eqb_refl, orb_true_r in Hx.
  - intros Hx. apply Hfile in Hx. unfold is_sep in Hx.
    by rewrite Z.eqb_refl in Hx.
  - intros Hsep.
    assert (Hlast : last dir = Some (get buf (off + L))).
    { rewrite last_lookup. unfold dir. rewrite length_sub.
      rewrite lookup_sub by lia. do 2 f_equal. lia. }
    assert (HsepL : is_sep (get buf (off + L)) = true).
    { destruct HL as [HL0 | [_ HsL]]; [| done].
      assert (Hex : ∃ x, x ∈ source ∧ is_sep x = true).
      { destruct Hsep as [Hs | Hs]; eexists; (split; [exact Hs |]);
          unfold is_sep; by rewrite Z.eqb_refl, ?orb_true_r. }
      destruct Hex as (x & Hx & Hxs). rewrite <- Hsrc in Hx.
      apply elem_of_sub in Hx as (k & Hk & ->).
      destruct (decide (k = L)) as [-> | Hkl]; [done |].
      rewrite (Hafter k) in Hxs; [done | lia | lia]. }
    rewrite Hlast. unfold is_sep in HsepL.
    destruct (Z.eqb_spec (get buf (off + L)) ch_backslash) as [-> | _]; [by right |].
    destruct (Z.eqb_spec (get buf (off + L)) ch_slash) as [-> | _]; [by left | done].
Qed.

(** X11. The host path a handler composes from the root and the bytes
    of a request holds no backslash, is at most the root, one slash and
    the copied bytes long, and holds no upper-case letter behind the
    root; when the root itself has no backslash, the path starts with
    the root followed by a slash. *)
Theorem dospath_shape (root buf : list Z) (off n : Z) (p : list Z) :
  dospath root buf off n = Some p →
  0 ≤ n
  ∧ (ch_backslash ∉ p)
  ∧ (length p ≤ length root + 1 + Z.to_nat n)%nat
  ∧ (∀ c, c ∈ drop (length root) p → ¬ (65 ≤ c ≤ 90))
  ∧ (ch_backslash ∉ root →
     take (length root) p = root ∧ p !! length root = Some ch_slash).
Proof.
  unfold dospath. destruct (Z.ltb_spec n 0); [done |].
  intros [= <-]. split; [done |].
  set (tail := lostring (cstr (sub buf off n))).
  assert (Hrepl : ∀ s, ch_backslash ∉ charreplace s ch_backslash ch_slash).
  { intros s Hin. unfold charreplace in Hin.
    apply list_elem_of_fmap in Hin as (c & Hc & _).
    destruct (Z.eqb_spec c ch_backslash); [done | done]. }
  assert (Hid : ∀ s, ch_backslash ∉ s → charreplace s ch_backslash ch_slash = s).
  { intros s Hs. unfold charreplace. rewrite <- (list_fmap_id s) at 2.
    apply list_fmap_ext. intros i c Hc. simpl.
    destruct (Z.eqb_spec c ch_backslash) as [-> | _]; [| done].
    exfalso. apply Hs. by eapply list_elem_of_lookup_2. }
  assert (Hcstr : ∀ s, (length (cstr s) ≤ length s)%nat).
  { induction s as [| c r IH]; simpl; [done |].
    destruct (c =? 0); simpl; lia. }
  assert (Happ : charreplace (root ++ ch_slash :: tail) ch_backslash ch_slash
                 = charreplace root ch_backslash ch_slash
                   ++ ch_slash :: charreplace tail ch_backslash ch_slash).
  { unfold charreplace. by rewrite fmap_app. }
  change (root ++ [ch_slash] ++ tail) with (root ++ ch_slash :: tail).
  split; [apply Hrepl |]. split; [| split].
  - unfold charreplace, tail, lostring.
    rewrite length_fmap, length_app. simpl. rewrite length_fmap.
    pose proof (Hcstr (sub buf off n)) as Hc. rewrite length_sub in Hc. lia.
  - intros c Hc. rewrite Happ in Hc.
    replace (length root) with (length (charreplace root ch_backslash ch_slash))
      in Hc by (unfold charreplace; by rewrite length_fmap).
    rewrite drop_app_length in Hc.
    apply elem_of_cons in Hc as [-> | Hc]; [unfold ch_slash; lia |].
    unfold charreplace, tail, lostring in Hc.
    apply list_elem_of_fmap in Hc as (c1 & -> & Hc1).
    apply list_elem_of_fmap in Hc1 as (c2 & -> & _).
    unfold lochar, ch_backslash, ch_slash. zbool.
  - intros Hroot. rewrite Happ, (Hid root Hroot).
    split; [by rewrite take_app_length |].
    by rewrite lookup_app_r, Nat.sub_diag by lia.
Qed.

End Explode.

(** ** The file database, continued *)

Section FileDatabaseMore.

Lemma getitemss_age_frame (now i : Z) (db db' : gmap Z sfsdb) :
  getitemss_age now i db = Some db' →
  db' = db
  ∨ (db' = <[i := sfsdb_zero]> db ∧ 3600 < now - lastused (fsdb_get db i)).
Proof.
  unfold getitemss_age.
  destruct (Z.gtb_spec (now - lastused (fsdb_get db i)) 3600) as [Hold | _].
  - destruct (freedirlist _); simpl; [| done]. intros [= <-]. right. split; [done | lia].
  - intros [= <-]. by left.
Qed.

(** The scan is defined when no slot it passes holds a dangling pointer. *)
Lemma getitemss_scan_total (now : Z) (f : list Z) (fuel : nat) :
  ∀ (i : Z) (db : gmap Z sfsdb) (firstfree oldest : Z),
    no_dangling db →
    is_Some (getitemss_scan fuel now f i db firstfree oldest).
Proof.
  induction fuel as [| fuel IH]; intros i db firstfree oldest Hdb; simpl; [done |].
  destruct (decide (name (fsdb_get db i) = Some f)); [done |].
  destruct (getitemss_age_spec now i db (Hdb i)) as (db1 & -> & Hdb1). simpl.
  destruct (getitemss_pick i db1 firstfree oldest) as [ff old].
  apply IH. destruct Hdb1 as [-> | ->]; [done |]. by apply no_dangling_insert.
Qed.

(** What a scan leaves of the slots it does not return. *)
Lemma getitemss_scan_frame (now : Z) (f : list Z) (fuel : nat) :
  ∀ (i : Z) (db : gmap Z sfsdb) (firstfree oldest : Z) r,
    getitemss_scan fuel now f i db firstfree oldest = Some r →
    let db' := match r with inl (_, d) => d | inr (d, _, _) => d end in
    ∀ j, (match r with inl (id, _) => j ≠ id | inr _ => True end) →
         fsdb_get db' j = fsdb_get db j
         ∨ (fsdb_get db' j = sfsdb_zero
            ∧ 3600 < now - lastused (fsdb_get db j)).
Proof.
  induction fuel as [| fuel IH]; intros i db firstfree oldest r Hscan;
    simpl in Hscan.
  - injection Hscan as <-. simpl. auto.
  - destruct (decide (name (fsdb_get db i) = Some f)).
    + injection Hscan as <-. simpl. intros j Hj. left.
      rewrite fsdb_get_insert. by destruct (decide (i = j)).
    + destruct (getitemss_age now i db) as [db1 |] eqn:Hage; simpl in Hscan;
        [| done].
      destruct (getitemss_pick i db1 firstfree oldest) as [ff old].
      specialize (IH _ _ _ _ _ Hscan). cbv zeta in IH. intros db' j Hj.
      specialize (IH j Hj). fold db' in IH.
      apply getitemss_age_frame in Hage as [-> | [-> Hold]]; [done |].
      rewrite fsdb_get_insert in IH.
      destruct (decide (i = j)) as [-> | Hne]; [| done].
      right. split; [| done]. by destruct IH as [-> | [-> _]].
Qed.

(** X12. On a file database without dangling list pointers
    [getitemss] is defined and leaves such a database. When [strdup]
    succeeds the id is below 0xffff, [sstoitem] of the id is the name
    that was registered and the slot is stamped with the current time;
    when [strdup] fails the result is 0xffff unless the name was in the
    database already. *)
Theorem getitemss_registers (E : env) (P : list Z) (db : gmap Z sfsdb) :
  no_dangling db →
  ∃ id db',
    getitemss E P db = Some (id, db')
    ∧ no_dangling db'
    ∧ (if env_strdup_ok E
       then 0 ≤ id < 65535 ∧ sstoitem db' id = Some P
            ∧ lastused (fsdb_get db' id) = env_now E
       else id = 65535 ∨ sstoitem db id = Some P).
Proof.
  intros Hdb. unfold getitemss.
  destruct (getitemss_scan_total (env_now E) P (Z.to_nat 65535) 0 db 65535 0 Hdb)
    as [r Hscan].
  rewrite Hscan. simpl. destruct r as [[id db'] | [[db' ff] old]].
  - destruct (getitemss_scan_found _ _ _ _ _ _ _ _ _ Hscan Hdb)
      as (Hid & Hname & _ & _ & Hdb').
    exists id, db'. split; [done |]. split; [done |].
    assert (Hl : lastused (fsdb_get db' id) = env_now E ∧ sstoitem db id = Some P).
    { clear -Hscan. revert Hscan. generalize 0 at 1. generalize 65535 at 2.
      generalize 0 at 1. generalize (Z.to_nat 65535). intros fuel. revert db.
      induction fuel as [| fuel IH]; intros db old ff i Hscan; simpl in Hscan;
        [done |].
      destruct (decide (name (fsdb_get db i) = Some P)) as [Hn | Hn].
      - injection Hscan as <- <-. rewrite fsdb_get_insert.
        by destruct (decide (i = i)).
      - destruct (getitemss_age (env_now E) i db) as [db1 |] eqn:Hage;
          simpl in Hscan; [| done].
        destruct (getitemss_pick i db1 ff old) as [ff' old'].
        apply IH in Hscan as [Hl Hs]. split; [done |].
        apply getitemss_age_frame in Hage as [-> | [-> _]]; [done |].
        unfold sstoitem in *. rewrite fsdb_get_insert in Hs.
        by destruct (decide (i = id)). }
    destruct Hl as [Hl Hs].
    destruct (env_strdup_ok E); [| by right].
    split; [lia |]. by split.
  - destruct (getitemss_scan_absent _ _ _ _ _ _ _ _ _ _ Hscan Hdb)
      as (_ & Hdb' & Hff & Hold & _).
    assert (Hfree : ∃ db2 slot,
              (if ff =? 65535
               then _ ← freedirlist (dirlist (fsdb_get db' old));
                    Some (<[old := sfsdb_zero]> db', old)
               else Some (db', ff)) = Some (db2, slot)
              ∧ no_dangling db2 ∧ 0 ≤ slot < 65535).
    { destruct (Z.eqb_spec ff 65535) as [-> | Hne].
      - pose proof (Hdb' old) as Hd.
        destruct (dirlist (fsdb_get db' old)) eqn:Hdl; [| | done]; simpl;
          (eexists _, _; split; [reflexivity |]);
          (split; [by apply no_dangling_insert | lia]).
      - eexists _, _. split; [reflexivity |]. split; [done | lia]. }
    destruct Hfree as (db2 & slot & -> & Hdb2 & Hslot). simpl.
    destruct (env_strdup_ok E).
    + eexists _, _. split; [reflexivity |]. split.
      * apply no_dangling_insert; [done | apply Hdb2].
      * split; [done |]. unfold sstoitem. rewrite fsdb_get_insert.
        by destruct (decide (slot = slot)).
    + eexists _, _. split; [reflexivity |]. split; [| by left].
      apply no_dangling_insert; [done | apply Hdb2].
Qed.

(** X13. When [getitemss] returns an id other than 0xffff,
    every other slot is either what it was or was cleared because it had
    not been used for more than 3600 seconds. *)
Theorem getitemss_keeps_other_slots (E : env) (P : list Z)
    (db db' : gmap Z sfsdb) (id : Z) :
  getitemss E P db = Some (id, db') →
  id ≠ 65535 →
  ∀ j, j ≠ id →
       fsdb_get db' j = fsdb_get db j
       ∨ (fsdb_get db' j = sfsdb_zero
          ∧ 3600 < env_now E - lastused (fsdb_get db j)).
Proof.
  intros Hget Hid j Hj. unfold getitemss in Hget.
  destruct (getitemss_scan _ _ _ _ _ _ _) as [r |] eqn:Hscan; simpl in Hget;
    [| done].
  pose proof (getitemss_scan_frame _ _ _ _ _ _ _ _ Hscan) as Hframe.
  cbv zeta in Hframe. destruct r as [[id' db1] | [[db1 ff] old]].
  - injection Hget as -> ->. by apply Hframe.
  - specialize (Hframe j I).
    destruct (Z.eqb_spec ff 65535) as [-> | Hne].
    + destruct (freedirlist _); simpl in Hget; [| done].
      destruct (env_strdup_ok E); injection Hget as <- <-; [| done].
      rewrite fsdb_get_insert. destruct (decide (old = j)); [done |].
      rewrite fsdb_get_insert. by destruct (decide (old = j)).
    + simpl in Hget.
      destruct (env_strdup_ok E); injection Hget as <- <-; [| done].
      rewrite fsdb_get_insert. by destruct (decide (ff = j)).
Qed.

End FileDatabaseMore.

(** ** findfile, continued *)

Section FindFileMore.
Context `{H : Host}.

Lemma findfile_walk_result (fcbtmpl : list Z) (attr flags : Z) (nth : Z) :
  ∀ (l : list fileprops) (n p : Z) (e : fileprops),
    findfile_walk fcbtmpl attr flags l n nth = Some (p, e) →
    ∃ k : nat, l !! k = Some e ∧ p = n + Z.of_nat k + 1 ∧ nth < p
               ∧ entry_match fcbtmpl attr flags e = true.
Proof.
  induction l as [| x r IH]; intros n p e Hw; simpl in Hw; [done |].
  assert (Hrec : findfile_walk fcbtmpl attr flags r (n + 1) nth = Some (p, e) →
                 ∃ k : nat, (x :: r) !! k = Some e ∧ p = n + Z.of_nat k + 1
                            ∧ nth < p ∧ entry_match fcbtmpl attr flags e = true).
  { intros Hr. apply IH in Hr as (k & Hk & -> & Hn & He).
    exists (S k). split; [done |]. split; [lia | done]. }
  destruct (Z.leb_spec (n + 1) nth); [by apply Hrec |].
  destruct (entry_match fcbtmpl attr flags x) eqn:Hx; [| by apply Hrec].
  injection Hw as <- <-. exists 0%nat. split; [done |]. split; [lia | done].
Qed.

Lemma gendirlist_slot (E : env) (fs0 : hostfs) (root e : sfsdb) (fatflag count : Z) :
  gendirlist E fs0 root fatflag = Some (count, e) →
  name e = name root ∧ lastused e = lastused root.
Proof.
  unfold gendirlist. destruct (freedirlist _); simpl; [| done].
  destruct (name root) as [nm |] eqn:Hnm; simpl; [| done].
  destruct (h_readdir fs0 nm); [| by intros [= <- <-]].
  destruct (mapM _ _); simpl; [| done]. by intros [= <- <-].
Qed.

(** X14. Whenever [findfile] returns, the slots of the other
    directories are untouched and the slot of the directory keeps its
    name and its time stamp. The result is either -1 with the position
    unchanged, or 0 with an entry of the cached listing that passes the
    mask and attribute tests, lies behind the requested position, and
    whose position (its index plus one, in 16 bits) is handed back. *)
Theorem findfile_outcome (E : env) (fs0 : hostfs) (db db' : gmap Z sfsdb)
    (dss : Z) (fcbtmpl : list Z) (attr nth flags res pos : Z)
    (found : option fileprops) :
  findfile E fs0 db dss fcbtmpl attr nth flags = Some (res, found, pos, db') →
  (∀ j, j ≠ dss → fsdb_get db' j = fsdb_get db j)
  ∧ name (fsdb_get db' dss) = name (fsdb_get db dss)
  ∧ lastused (fsdb_get db' dss) = lastused (fsdb_get db dss)
  ∧ ((res = -1 ∧ found = None ∧ pos = nth)
     ∨ (res = 0
        ∧ ∃ (e : fileprops) (l : list fileprops) (k : nat),
            found = Some e
            ∧ dirlist (fsdb_get db' dss) = DirNodes l
            ∧ l !! k = Some e
            ∧ entry_match fcbtmpl attr flags e = true
            ∧ nth < Z.of_nat k + 1
            ∧ pos = (Z.of_nat k + 1) mod 65536)).
Proof.
  unfold findfile. intros Hf.
  assert (Hstep : ∃ count db1,
            (if (nth =? 0) || dirptr_null (dirlist (fsdb_get db dss))
             then '(count, e) ← gendirlist E fs0 (fsdb_get db dss)
                                  (Z.land flags FFILE_ISFAT mod 256);
                  Some (count, <[dss := e]> db)
             else Some (0, db)) = Some (count, db1)
            ∧ (∀ j, j ≠ dss → fsdb_get db1 j = fsdb_get db j)
            ∧ name (fsdb_get db1 dss) = name (fsdb_get db dss)
            ∧ lastused (fsdb_get db1 dss) = lastused (fsdb_get db dss)).
  { destruct ((nth =? 0) || dirptr_null _).
    - destruct (gendirlist _ _ _ _) as [[count e] |] eqn:Hg; simpl in *; [| done].
      apply gendirlist_slot in Hg as [Hn Hl].
      eexists _, _. split; [reflexivity |].
      split; [| split]; try intros j Hj; rewrite fsdb_get_insert.
      + by destruct (decide (dss = j)).
      + by destruct (decide (dss = dss)).
      + by destruct (decide (dss = dss)).
    - eexists _, _. split; [reflexivity |]. done. }
  destruct Hstep as (count & db1 & Hstep & Hother & Hname & Hlast).
  rewrite Hstep in Hf. simpl in Hf.
  destruct (count <? 0).
  { injection Hf as <- <- <- <-. split; [done |]. split; [done |].
    split; [done |]. by left. }
  destruct (dirlist (fsdb_get db1 dss)) as [| l |] eqn:Hl; [| | done].
  { injection Hf as <- <- <- <-. split; [done |]. split; [done |].
    split; [done |]. by left. }
  destruct (findfile_walk fcbtmpl attr flags l 0 nth) as [[p e] |] eqn:Hw.
  - injection Hf as <- <- <- <-. split; [done |]. split; [done |].
    split; [done |]. right. split; [done |].
    apply findfile_walk_result in Hw as (k & Hk & -> & Hn & He).
    exists e, l, k. repeat split; try done; lia.
  - injection Hf as <- <- <- <-. split; [done |]. split; [done |].
    split; [done |]. by left.
Qed.

(** X15. For a position other than 0 and a slot that holds
    a listing, [findfile] answers from the cached listing alone: the
    file database is unchanged, and the result is the same for any clock
    and any state of the host filesystem (entries created or removed
    since FINDFIRST are not seen). *)
Theorem findfile_reads_cached_listing (E E' : env) (fs0 fs1 : hostfs)
    (db : gmap Z sfsdb) (dss : Z) (l : list fileprops)
    (fcbtmpl : list Z) (attr nth flags : Z) :
  nth ≠ 0 →
  dirlist (fsdb_get db dss) = DirNodes l →
  findfile E fs0 db dss fcbtmpl attr nth flags
    = match findfile_walk fcbtmpl attr flags l 0 nth with
      | Some (n, e) => Some (0, Some e, n mod 65536, db)
      | None => Some (-1, None, nth, db)
      end
  ∧ findfile E' fs1 db dss fcbtmpl attr nth flags
    = findfile E fs0 db dss fcbtmpl attr nth flags.
Proof.
  intros Hn Hl.
  assert (Hf : ∀ E fs, findfile E fs db dss fcbtmpl attr nth flags
            = match findfile_walk fcbtmpl attr flags l 0 nth with
              | Some (n, e) => Some (0, Some e, n mod 65536, db)
              | None => Some (-1, None, nth, db)
              end).
  { intros E1 fs. unfold findfile. rewrite Hl. simpl.
    destruct (Z.eqb_spec nth 0); [done |]. simpl. by rewrite Hl. }
  by rewrite !Hf.
Qed.

(** X16. When a slot holds a listing and the directory can
    no longer be opened, a [findfile] at position 0 fails with -1 after
    the listing was freed, and the slot keeps the pointer to the freed
    nodes: every later [findfile] on that slot reads freed memory
    (modelled as undefined). *)
Theorem findfile_failed_listing_dangles (E E' : env) (fs0 fs1 : hostfs)
    (db : gmap Z sfsdb) (dss : Z) (l : list fileprops) (nm : list Z)
    (fcbtmpl : list Z) (attr flags : Z) :
  name (fsdb_get db dss) = Some nm →
  dirlist (fsdb_get db dss) = DirNodes l →
  h_readdir fs0 nm = None →
  ∃ db',
    findfile E fs0 db dss fcbtmpl attr 0 flags = Some (-1, None, 0, db')
    ∧ dirlist (fsdb_get db' dss) = DirFreed
    ∧ ∀ fcbtmpl' attr' nth' flags',
        findfile E' fs1 db' dss fcbtmpl' attr' nth' flags' = None.
Proof.
  intros Hnm Hl Hrd.
  assert (Hg : ∀ ff, gendirlist E fs0 (fsdb_get db dss) ff
                = Some (-1, Sfsdb (Some nm) (lastused (fsdb_get db dss)) DirFreed)).
  { intros ff. unfold gendirlist. rewrite Hl, Hnm. simpl. by rewrite Hrd. }
  eexists. split; [| split].
  - unfold findfile. simpl. rewrite Hg. simpl. reflexivity.
  - rewrite fsdb_get_insert. by destruct (decide (dss = dss)).
  - intros fcbtmpl' attr' nth' flags'. unfold findfile.
    rewrite fsdb_get_insert. destruct (decide (dss = dss)); [| done]. simpl.
    destruct (nth' =? 0); simpl; [done |].
    rewrite fsdb_get_insert. by destruct (decide (dss = dss)).
Qed.

End FindFileMore.

(** ** Directory listings *)

Section Listing.
Context `{H : Host}.

Lemma filename2fcb_defined (X : list Z) :
  ch_space ∉ X → is_Some (filename2fcb X).
Proof.
  intros HX.
  destruct (count_dots_spec 8 X) as (HXk & Hk & Hstop).
  set (k := count_dots 8 X) in *.
  set (X1 := drop k X) in *.
  set (body := while_plain X1). set (tl := after_plain X1).
  assert (HX1 : X1 = body ++ tl) by (symmetry; apply while_after_plain).
  assert (Htl : tl = [] ∨ ∃ c r, tl = c :: r ∧ (c = ch_dot ∨ c = 0)).
  { destruct (after_plain_head X1) as [? | (c & r & Hc & Hp)]; [by left |].
    right. exists c, r. split; [done |].
    assert (Hin : c ∈ X).
    { rewrite HXk, HX1. fold tl in Hc. rewrite Hc.
      apply elem_of_app. right. apply elem_of_app. right. left. }
    unfold plain in Hp.
    destruct (Z.eqb_spec c ch_dot); [by left |].
    destruct (Z.eqb_spec c 0); [by right |].
    destruct (Z.eqb_spec c ch_space) as [-> | ?]; [done | done]. }
  exists (fcb_block k body tl).
  rewrite HXk at 1. rewrite HX1.
  apply filename2fcb_shape; try done; [apply while_plain_Forall |].
  by rewrite <- HX1.
Qed.

Lemma fname_of_plain (s : list Z) :
  ∀ f, Forall (λ c, c ≠ ch_slash ∧ c ≠ ch_backslash) s → fname_of s f = f.
Proof.
  induction s as [| c r IH]; intros f Hs; simpl; [done |].
  apply Forall_cons in Hs as [[Hc1 Hc2] Hr].
  destruct (Z.eqb_spec c ch_slash); [done |].
  destruct (Z.eqb_spec c ch_backslash); [done |]. simpl. by apply IH.
Qed.

Lemma fname_of_entry (dir nm : list Z) :
  nm ≠ [] → default 0 (head nm) ≠ 0 →
  Forall (λ c, c ≠ ch_slash ∧ c ≠ ch_backslash) nm →
  ∀ f, fname_of (dir ++ [ch_slash] ++ nm) f = nm.
Proof.
  intros Hne Hhd Hnm. induction dir as [| c r IH]; intros f.
  - destruct nm as [| x nm']; [done |]. simpl in Hhd.
    cbn [app fname_of]. change (ch_slash =? ch_slash) with true.
    apply Forall_cons in Hnm as [[Hx1 Hx2] Hnm'].
    destruct (Z.eqb_spec x 0); [done |].
    destruct (Z.eqb_spec x ch_slash); [done |].
    destruct (Z.eqb_spec x ch_backslash); [done |].
    cbn [andb orb negb]. by apply fname_of_plain.
  - cbn [app fname_of]. apply IH.
Qed.

Lemma getitemattr_listed (fs0 : hostfs) (fatflag : Z) (dir nm : list Z) :
  nm ≠ [] → default 0 (head nm) ≠ 0 →
  Forall (λ c, c ≠ ch_slash ∧ c ≠ ch_backslash) nm →
  ch_space ∉ nm →
  ∃ a e, getitemattr fs0 (dir ++ [ch_slash] ++ nm) (Some fileprops_zero) fatflag
           = Some (a, Some e)
         ∧ listed fs0 fatflag (dir ++ [ch_slash] ++ nm) nm e.
Proof.
  intros Hne Hhd Hnm Hsp. unfold getitemattr, listed.
  destruct (h_stat fs0 _) as [sb |]; [| by eexists _, _].
  rewrite fname_of_entry by done.
  destruct (filename2fcb_defined nm Hsp) as [fcb ->].
  destruct (st_isdir sb); [by eexists _, _ |]. simpl.
  destruct (Z.eqb_spec fatflag 0) as [-> | Hff]; [by eexists _, _ |].
  destruct (h_fat_get fs0 _) as [[attr |] |]; by eexists _, _.
Qed.

(** X17. For a directory that can be read, is not empty and
    whose entry names hold no slash, backslash or space, [gendirlist]
    stores one record per directory entry, in the order of [readdir], as
    many as [calloc] delivers. The record of an entry that [stat] does
    not find is all zero; otherwise it holds the FCB name and the DOS
    time, attribute 16 and size 0 for a directory, the size for a file,
    and on a drive that is not FAT the attribute 0 for a file. *)
Theorem gendirlist_lists_entries (E : env) (fs0 : hostfs) (root : sfsdb)
    (fatflag : Z) (nm : list Z) (ents : list dirent) :
  dirlist root ≠ DirFreed →
  name root = Some nm →
  h_readdir fs0 nm = Some ents →
  ents ≠ [] → (0 < env_calloc E)%nat →
  Forall (λ de, d_name de ≠ [] ∧ default 0 (head (d_name de)) ≠ 0
                ∧ Forall (λ c, c ≠ ch_slash ∧ c ≠ ch_backslash) (d_name de)
                ∧ ch_space ∉ d_name de) ents →
  ∃ nodes,
    gendirlist E fs0 root fatflag
      = Some (Z.of_nat (length nodes),
              Sfsdb (Some nm) (lastused root) (DirNodes nodes))
    ∧ length nodes = Nat.min (env_calloc E) (length ents)
    ∧ ∀ k de, (k < length nodes)%nat → ents !! k = Some de →
        ∃ e, nodes !! k = Some e
             ∧ listed fs0 fatflag (nm ++ [ch_slash] ++ d_name de) (d_name de) e.
Proof.
  intros Hdl Hnm Hrd Hne Hmem Hents. unfold gendirlist.
  assert (Hfree : freedirlist (dirlist root) = Some ())
    by (by destruct (dirlist root)).
  rewrite Hfree, Hnm. simpl. rewrite Hrd.
  set (f := λ de : dirent,
         getitemattr fs0 (nm ++ ch_slash :: d_name de) (Some fileprops_zero)
           fatflag ≫= (λ r, r.2)).
  assert (Hf : ∀ de, de ∈ ents →
            ∃ e, f de = Some e
                 ∧ listed fs0 fatflag (nm ++ [ch_slash] ++ d_name de)
                          (d_name de) e).
  { intros de Hde. apply (proj1 (Forall_forall _ _) Hents) in Hde
      as (H1 & H2 & H3 & H4).
    destruct (getitemattr_listed fs0 fatflag nm (d_name de) H1 H2 H3 H4)
      as (a & e & Hg & He).
    exists e. split; [| done]. unfold f. simpl in Hg. by rewrite Hg. }
  destruct (mapM_is_Some_2 f (take (env_calloc E) ents)) as [nodes Hnodes].
  { apply Forall_forall. intros de Hde. apply elem_of_take in Hde as (i & Hde & _).
    apply list_elem_of_lookup_2 in Hde.
    destruct (Hf de Hde) as (e & Hfe & _). unfold compose. by rewrite Hfe. }
  fold f. rewrite Hnodes. simpl.
  apply mapM_Some_1 in Hnodes.
  pose proof (Forall2_length _ _ _ Hnodes) as Hlen.
  rewrite length_take in Hlen.
  exists nodes. split; [| split].
  - destruct nodes as [| e0 nodes']; [| done]. simpl in Hlen.
    destruct ents; [done |]. simpl in Hlen. lia.
  - lia.
  - intros k de Hk Hde.
    assert (Htk : take (env_calloc E) ents !! k = Some de)
      by (rewrite lookup_take_lt by lia; done).
    destruct (Forall2_lookup_l _ _ _ _ _ Hnodes Htk) as (e & He & Hfe).
    exists e. split; [done |].
    destruct (Hf de) as (e' & Hfe' & Hl); [by eapply list_elem_of_lookup_2 |].
    cbv beta in Hfe. rewrite Hfe' in Hfe. by injection Hfe as <-.
Qed.

End Listing.

(** ** delfiles and shorttolong *)

Section DelFiles.
Context `{H : Host}.

Lemma delfiles_scan_app (a b : list Z) :
  ∀ i isp fo,
    delfiles_scan (a ++ b) i isp fo
    = delfiles_scan b (i + Z.of_nat (length a))
        (delfiles_scan a i isp fo).1 (delfiles_scan a i isp fo).2.
Proof.
  induction a as [| c r IH]; intros i isp fo; simpl.
  - by rewrite Z.add_0_r.
  - rewrite IH. f_equal. lia.
Qed.

Lemma delfiles_scan_question (s : list Z) :
  ∀ i isp fo,
    (delfiles_scan s i isp fo).1 = isp || bool_decide (ch_question ∈ s).
Proof.
  induction s as [| c r IH]; intros i isp fo; cbn [delfiles_scan fst].
  - rewrite bool_decide_eq_false_2 by apply not_elem_of_nil. by rewrite orb_false_r.
  - rewrite IH. destruct (Z.eqb_spec c ch_question) as [-> | Hne].
    + rewrite (bool_decide_eq_true_2 (ch_question ∈ ch_question :: r)) by left.
      by rewrite !orb_true_r.
    + rewrite orb_false_r. f_equal. apply bool_decide_ext.
      rewrite elem_of_cons. split; [auto | by intros [? | ?]].
Qed.

Lemma delfiles_scan_no_slash (s : list Z) :
  ∀ i isp fo, ch_slash ∉ s → (delfiles_scan s i isp fo).2 = fo.
Proof.
  induction s as [| c r IH]; intros i isp fo Hs; simpl; [done |].
  apply not_elem_of_cons in Hs as [Hc Hr].
  destruct (Z.eqb_spec c ch_slash); [done |]. by apply IH.
Qed.

Lemma delfiles_loop_spec (dir filfcb : list Z) (ents : list dirent) :
  ∀ fs0 : hostfs,
    Forall (λ de, d_type de ≠ DT_DIR → is_Some (filename2fcb (d_name de))) ents →
    delfiles_loop dir filfcb ents fs0
    = Some (foldl (λ fs1 de, (h_unlink (dir ++ [ch_slash] ++ d_name de) fs1).2)
                  fs0 (filter (λ de, delfiles_victim filfcb de = true) ents)).
Proof.
  induction ents as [| de r IH]; intros fs0 Hents; [done |].
  apply Forall_cons in Hents as [Hde Hr]. cbn [delfiles_loop].
  destruct (Z.eqb_spec (d_type de) DT_DIR) as [Hd | Hd].
  - rewrite filter_cons_False; [by apply IH |].
    unfold delfiles_victim. rewrite Hd. by rewrite Z.eqb_refl.
  - destruct (Hde Hd) as [b Hb]. rewrite Hb. cbn [mbind option_bind].
    assert (Hv : delfiles_victim filfcb de = (matchfile2mask filfcb b =? 0)).
    { unfold delfiles_victim. rewrite Hb.
      by destruct (Z.eqb_spec (d_type de) DT_DIR). }
    destruct (matchfile2mask filfcb b =? 0) eqn:Hm.
    + rewrite filter_cons_True by done. cbn [foldl]. by apply IH.
    + rewrite filter_cons_False by (rewrite Hv; done). by apply IH.
Qed.

(** X18. Without '?' in the pattern [delfiles] is one [unlink], and the
    result is 1 on success and -1 otherwise. With '?' in the file part
    the result is -1 when the directory cannot be read; otherwise every
    entry that is not a directory and whose FCB name matches the mask is
    unlinked, in the order of [readdir], and the result is 0, whatever
    the [unlink] calls returned. *)
Theorem delfiles_spec (pattern dir fil filfcb : list Z) (fs0 : hostfs) :
  (ch_question ∉ pattern →
     delfiles pattern fs0
     = Some (if (h_unlink pattern fs0).1 =? 0 then 1 else -1,
             (h_unlink pattern fs0).2))
  ∧ (ch_question ∈ pattern →
     pattern = dir ++ [ch_slash] ++ fil → (ch_slash ∉ fil) →
     filename2fcb fil = Some filfcb →
     match h_readdir fs0 dir with
     | None => delfiles pattern fs0 = Some (-1, fs0)
     | Some ents =>
         Forall (λ de, d_type de ≠ DT_DIR → is_Some (filename2fcb (d_name de)))
                ents →
         delfiles pattern fs0
         = Some (0, foldl (λ fs1 de,
                            (h_unlink (dir ++ [ch_slash] ++ d_name de) fs1).2)
                          fs0
                          (filter (λ de, delfiles_victim filfcb de = true) ents))
     end).
Proof.
  split.
  - intros Hq. unfold delfiles.
    pose proof (delfiles_scan_question pattern 0 false 0) as Hs.
    destruct (delfiles_scan pattern 0 false 0) as [isp fo]. simpl in Hs.
    rewrite bool_decide_eq_false_2 in Hs by done. subst isp. simpl.
    by destruct (h_unlink pattern fs0).
  - intros Hq -> Hsl Hfcb. unfold delfiles.
    pose proof (delfiles_scan_question (dir ++ [ch_slash] ++ fil) 0 false 0) as Hs1.
    rewrite bool_decide_eq_true_2 in Hs1 by done. simpl in Hs1.
    pose proof (delfiles_scan_app dir ([ch_slash] ++ fil) 0 false 0) as Hs2.
    change ([ch_slash] ++ fil) with (ch_slash :: fil) in *.
    cbn [delfiles_scan] in Hs2. change (ch_slash =? ch_slash) with true in Hs2.
    cbv iota in Hs2.
    pose proof (delfiles_scan_no_slash fil (0 + Z.of_nat (length dir) + 1)
                  ((delfiles_scan dir 0 false 0).1 || (ch_slash =? ch_question))
                  (0 + Z.of_nat (length dir)) Hsl) as Hs3.
    rewrite <- Hs2 in Hs3.
    destruct (delfiles_scan (dir ++ ch_slash :: fil) 0 false 0) as [isp fo].
    simpl in Hs1, Hs3. subst isp fo. simpl negb. cbv iota.
    replace (Z.to_nat (0 + Z.of_nat (length dir))) with (length dir) by lia.
    rewrite take_app_length.
    replace (length dir + 1)%nat with (length (dir ++ [ch_slash]))
      by (rewrite length_app; simpl; lia).
    replace (dir ++ ch_slash :: fil) with ((dir ++ [ch_slash]) ++ fil)
      by (by rewrite <- app_assoc).
    rewrite drop_app_length, Hfcb. simpl.
    destruct (h_readdir fs0 dir) as [ents |]; [| done].
    intros Hents. by rewrite delfiles_loop_spec.
Qed.

End DelFiles.

Section ShortToLong.
Context `{H : Host}.

Lemma shorttolong_find_spec (a : list Z) (last : bool) (ents : list dirent) :
  ∀ nm, shorttolong_find a last ents = Some (Some nm) →
    ∃ de b, de ∈ ents ∧ d_name de = nm
            ∧ nm ≠ [ch_dot] ∧ nm ≠ [ch_dot; ch_dot]
            ∧ filename2fcb nm = Some b ∧ cstr b = cstr a
            ∧ (last = false → d_type de = DT_DIR).
Proof.
  induction ents as [| de r IH]; intros nm Hf; simpl in Hf; [done |].
  assert (Hrec : shorttolong_find a last r = Some (Some nm) →
            ∃ de0 b, de0 ∈ de :: r ∧ d_name de0 = nm
                     ∧ nm ≠ [ch_dot] ∧ nm ≠ [ch_dot; ch_dot]
                     ∧ filename2fcb nm = Some b ∧ cstr b = cstr a
                     ∧ (last = false → d_type de0 = DT_DIR)).
  { intros Hr. destruct (IH _ Hr) as (de0 & b & Hin & Hrest).
    exists de0, b. split; [by right | done]. }
  destruct (decide (d_name de = [ch_dot])) as [Hd1 | Hd1].
  { rewrite bool_decide_eq_true_2 in Hf by done. by apply Hrec. }
  rewrite bool_decide_eq_false_2 in Hf by done.
  destruct (decide (d_name de = [ch_dot; ch_dot])) as [Hd2 | Hd2].
  { rewrite bool_decide_eq_true_2 in Hf by done. by apply Hrec. }
  rewrite bool_decide_eq_false_2 in Hf by done. simpl in Hf.
  destruct (filename2fcb (d_name de)) as [b |] eqn:Hb; simpl in Hf; [| done].
  destruct (decide (cstr b = cstr a)) as [Hc | Hc].
  - rewrite bool_decide_eq_true_2 in Hf by done.
    destruct (negb last && negb (d_type de =? DT_DIR)) eqn:Hl; [by apply Hrec |].
    injection Hf as <-. exists de, b. split; [left |].
    repeat split; try done. intros ->. simpl in Hl.
    destruct (Z.eqb_spec (d_type de) DT_DIR); done.
  - rewrite bool_decide_eq_false_2 in Hf by done. by apply Hrec.
Qed.

Lemma shorttolong_walk_spec (fs0 : hostfs) (toks : list (list Z)) :
  ∀ dst r dst',
    shorttolong_walk fs0 toks dst = Some (r, dst') →
    (r = 0 ∨ r = -1)
    ∧ (∃ t, dst' = dst ++ t)
    ∧ (r = 0 →
       ∃ names, dst' = dst ++ join_slash names
                ∧ Forall2 (λ tok nm, same_fcb tok nm ∧ nm ≠ [ch_dot]
                                     ∧ nm ≠ [ch_dot; ch_dot]) toks names
                ∧ ∀ k nm, names !! k = Some nm →
                    ∃ ents de,
                      h_readdir fs0 (dst ++ dir_of (take k names)) = Some ents
                      ∧ de ∈ ents ∧ d_name de = nm
                      ∧ ((S k < length names)%nat → d_type de = DT_DIR)).
Proof.
  induction toks as [| tok next IH]; intros dst r dst' Hw; simpl in Hw.
  - injection Hw as <- <-. split; [by left |]. split; [by exists []; rewrite app_nil_r |].
    intros _. exists []. split; [by rewrite app_nil_r |]. split; [constructor |].
    intros k nm Hk. done.
  - destruct (filename2fcb tok) as [a |] eqn:Ha; simpl in Hw; [| done].
    destruct (h_readdir fs0 dst) as [ents |] eqn:Hents.
    2:{ injection Hw as <- <-. split; [by right |].
        split; [by exists []; rewrite app_nil_r | done]. }
    destruct (shorttolong_find a _ ents) as [[nm |] |] eqn:Hfind; simpl in Hw;
      [| | done].
    2:{ injection Hw as <- <-. split; [by right |]. split; [by exists tok | done]. }
    apply shorttolong_find_spec in Hfind
      as (de & b & Hin & Hde & Hn1 & Hn2 & Hb & Hc & Hdir).
    apply IH in Hw as (Hr & (t & Ht) & Hok). split; [done |]. split.
    { eexists. rewrite Ht. rewrite <- !app_assoc. reflexivity. }
    intros Hr0. destruct (Hok Hr0) as (names & Hd & Hall & Hents').
    exists (nm :: names). split; [| split].
    + rewrite Hd. rewrite <- !app_assoc. f_equal.
      destruct next as [| n2 next']; inversion Hall; subst; simpl.
      * by rewrite app_nil_r.
      * done.
    + constructor; [| done]. split; [| done]. exists a, b. by rewrite Hc.
    + intros k nm' Hk. destruct k as [| k]; simpl in Hk.
      * injection Hk as <-. exists ents, de. simpl. rewrite app_nil_r.
        split; [done |]. split; [done |]. split; [done |].
        intros Hlen. apply Hdir.
        destruct next as [| n2 next']; [| done].
        inversion Hall; subst. simpl in Hlen. lia.
      * destruct (Hents' k nm' Hk) as (ents' & de' & Hr' & Hin' & Hde' & Hdir').
        exists ents', de'. split; [| split; [done | split; [done |]]].
        -- assert (Hnext : next ≠ []).
           { intros ->. inversion Hall; subst. done. }
           destruct next as [| n2 next']; [done |].
           simpl. rewrite <- Hr'. f_equal. by rewrite <- !app_assoc.
        -- intros Hlen. apply Hdir'. simpl in Hlen. lia.
Qed.

(** X19. Whenever [shorttolong] returns, the source starts with the
    root, the result is 0 or -1 and the destination is the root, a
    slash and a rest. On success the destination is the root followed by
    one name per component of the source, joined by single slashes:
    each name is the name of an entry of the directory the names before
    it lead to, as [readdir] lists it, a directory unless the name is
    the last; it has the FCB name of its component, as C strings, and
    is not "." or "..". *)
Theorem shorttolong_resolves (fs0 : hostfs) (src root : list Z)
    (r : Z) (dst : list Z) :
  shorttolong fs0 src root = Some (r, dst) →
  take (length root) src = root
  ∧ (r = 0 ∨ r = -1)
  ∧ (∃ t, dst = root ++ [ch_slash] ++ t)
  ∧ (r = 0 →
     ∃ names,
       dst = root ++ [ch_slash] ++ join_slash names
       ∧ Forall2 (λ tok nm, same_fcb tok nm ∧ nm ≠ [ch_dot]
                            ∧ nm ≠ [ch_dot; ch_dot])
                 (strtok_slash (drop (S (length root)) src) []) names
       ∧ ∀ k nm, names !! k = Some nm →
           ∃ ents de,
             h_readdir fs0 (root ++ [ch_slash] ++ dir_of (take k names))
               = Some ents
             ∧ de ∈ ents ∧ d_name de = nm
             ∧ ((S k < length names)%nat → d_type de = DT_DIR)).
Proof.
  unfold shorttolong. intros Hs.
  destruct (decide (take (length root) src = root)) as [Hroot | Hroot].
  2:{ by rewrite bool_decide_eq_false_2 in Hs by done. }
  rewrite bool_decide_eq_true_2 in Hs by done. simpl in Hs.
  split; [done |].
  destruct (negb _).
  { injection Hs as <- <-. split; [by right |].
    split; [by exists [] | done]. }
  rewrite drop_drop in Hs.
  apply shorttolong_walk_spec in Hs as (Hr & (t & Ht) & Hok).
  split; [done |]. split.
  { exists t. by rewrite Ht, <- app_assoc. }
  intros Hr0. destruct (Hok Hr0) as (names & Hd & Hall & Hents).
  exists names. split; [by rewrite Hd, <- app_assoc |]. split.
  - by replace (S (length root)) with (length root + 1)%nat by lia.
  - intros k nm Hk. destruct (Hents k nm Hk) as (ents & de & Hr' & Hrest).
    exists ents, de. split; [| done]. by rewrite <- Hr', <- app_assoc.
Qed.

End ShortToLong.

(** ** What every handler keeps *)

Section Handlers.
Context `{H : Host}.
Variables (E : env) (mymac : list Z) (rootarray : Z → option (list Z))
          (drivesfat : Z → Z).

Lemma get_write_below (buf data : list Z) (off i : Z) :
  0 ≤ i < off → get (write buf off data) i = get buf i.
Proof.
  intros Hi. rewrite get_write by lia.
  destruct (Z.leb_spec off i); [lia | done].
Qed.

Lemma getitemss_scan_range (now : Z) (f : list Z) (fuel : nat) :
  ∀ (i : Z) (db : gmap Z sfsdb) (ff old : Z) r,
    getitemss_scan fuel now f i db ff old = Some r →
    match r with
    | inl (id, _) => i ≤ id < i + Z.of_nat fuel
    | inr (_, ff', old') =>
        (ff' = ff ∨ i ≤ ff' < i + Z.of_nat fuel)
        ∧ (old' = old ∨ i ≤ old' < i + Z.of_nat fuel)
    end.
Proof.
  induction fuel as [| fuel IH]; intros i db ff old r Hs; simpl in Hs.
  - injection Hs as <-. auto.
  - destruct (decide (name (fsdb_get db i) = Some f)).
    + injection Hs as <-. lia.
    + destruct (getitemss_age now i db) as [db1 |]; simpl in Hs; [| done].
      destruct (getitemss_pick i db1 ff old) as [ff1 old1] eqn:Hp.
      assert (Hp' : (ff1 = ff ∨ ff1 = i) ∧ (old1 = old ∨ old1 = i)).
      { unfold getitemss_pick in Hp.
        destruct (_ && _); [injection Hp as <- <-; auto |].
        destruct (_ >? _); injection Hp as <- <-; auto. }
      apply IH in Hs. destruct r as [[id d] | [[d ff'] old']]; [lia |].
      destruct Hp' as [[-> | ->] [-> | ->]]; lia.
Qed.

Lemma getitemss_fails_only_without_memory (P : list Z) (db db' : gmap Z sfsdb) :
  getitemss E P db = Some (65535, db') → env_strdup_ok E = false.
Proof.
  unfold getitemss. intros Hg.
  destruct (getitemss_scan _ _ _ _ _ _ _) as [r |] eqn:Hs; simpl in Hg; [| done].
  apply getitemss_scan_range in Hs.
  destruct r as [[id d] | [[d ff] old]].
  - injection Hg as -> ->. lia.
  - destruct (env_strdup_ok E); [| done]. exfalso.
    destruct (Z.eqb_spec ff 65535) as [-> | Hne].
    + destruct (freedirlist _); simpl in Hg; [| done].
      injection Hg as -> _. lia.
    + simpl in Hg. injection Hg as -> _. done.
Qed.

Lemma handled_ret (answ answ' : list Z) (st st' : server) (n : Z) :
  0 ≤ n → (∀ i, 0 ≤ i < 58 → get answ' i = get answ i) →
  handled E answ st (ret n answ' st').
Proof.
  intros Hn Hh code a s. unfold ret. intros [= <- <- <-].
  split; [done | left; lia].
Qed.

Lemma handled_bind {A : Type} (answ : list Z) (st : server) (m : option A)
    (k : A → option (Z * list Z * server)) :
  (∀ x, m = Some x → handled E answ st (k x)) → handled E answ st (m ≫= k).
Proof.
  intros Hk. destruct m as [x |]; simpl; [by apply Hk | done].
Qed.

Lemma handled_none (answ : list Z) (st : server) :
  handled E answ st (Some (-1, answ, st)).
Proof. intros code a s [= <- <- <-]. split; [done |]. right. auto. Qed.

Ltac hdr_same :=
  intros ? ?; repeat case_match; unfold set_ax;
  rewrite ?get_write_below by lia; done.

Ltac handle :=
  repeat first
    [ apply handled_ret; [lia | hdr_same]
    | apply handled_none
    | apply handled_bind; intros ? ?
    | match goal with
      | |- handled _ _ _ (if ?c then _ else _) => destruct c eqn:?
      | |- handled _ _ _ (match ?x with _ => _ end) => destruct x eqn:?
      end ].

Lemma do_diskspace_handled root answ st :
  handled E answ st (do_diskspace E root answ st).
Proof. unfold do_diskspace. handle. Qed.

Lemma do_readfil_handled reqbuff answ st :
  handled E answ st (do_readfil reqbuff answ st).
Proof.
  unfold do_readfil. destruct (readfile _ _ _ _ _) as [readlen bytes].
  destruct (Z.ltb_spec readlen 0); handle. by intros code a s.
Qed.

Lemma do_writefil_handled reqbuff reqbufflen answ st :
  handled E answ st (do_writefil reqbuff reqbufflen answ st).
Proof. unfold do_writefil. handle. Qed.

Lemma do_findfirst_handled reqdrv root reqbuff reqbufflen answ st :
  handled E answ st (do_findfirst E drivesfat reqdrv root reqbuff reqbufflen answ st).
Proof. unfold do_findfirst. handle. Qed.

Lemma do_findnext_handled reqdrv root reqbuff answ st :
  handled E answ st (do_findnext E drivesfat reqdrv root reqbuff answ st).
Proof. unfold do_findnext. handle. Qed.

Lemma do_mkrmdir_handled query root reqbuff reqbufflen answ st :
  handled E answ st (do_mkrmdir query root reqbuff reqbufflen answ st).
Proof. unfold do_mkrmdir. handle. Qed.

Lemma do_chdir_handled root reqbuff reqbufflen answ st :
  handled E answ st (do_chdir root reqbuff reqbufflen answ st).
Proof. unfold do_chdir. handle. Qed.

Lemma do_setattr_handled reqdrv root reqbuff reqbufflen answ st :
  handled E answ st (do_setattr drivesfat reqdrv root reqbuff reqbufflen answ st).
Proof. unfold do_setattr. handle. Qed.

Lemma do_getattr_handled reqdrv root reqbuff reqbufflen answ st :
  handled E answ st (do_getattr E drivesfat reqdrv root reqbuff reqbufflen answ st).
Proof. unfold do_getattr. handle. Qed.

Lemma do_rename_handled root reqbuff reqbufflen answ st :
  handled E answ st (do_rename root reqbuff reqbufflen answ st).
Proof. unfold do_rename. handle. Qed.

Lemma do_delete_handled reqdrv root reqbuff reqbufflen answ st :
  handled E answ st (do_delete drivesfat reqdrv root reqbuff reqbufflen answ st).
Proof. unfold do_delete. handle. Qed.

Lemma do_skfmend_handled reqbuff answ st :
  handled E answ st (do_skfmend E reqbuff answ st).
Proof. unfold do_skfmend. handle. Qed.

Lemma do_open_handled query reqdrv root reqbuff reqbufflen answ st :
  handled E answ st (do_open E drivesfat query reqdrv root reqbuff reqbufflen answ st).
Proof.
  unfold do_open. handle.
  all: intros code a s [= <- <- <-]; (split; [done |]); right; split; [done |];
    right.
  all: match goal with
       | Hx : getitemss _ _ _ = Some _, Hf : (_ =? 65535) = true |- _ =>
           apply Z.eqb_eq in Hf; subst;
           by apply getitemss_fails_only_without_memory in Hx
       end.
Qed.

End Handlers.

Section ProcessMore.
Context `{H : Host}.
Variables (E : env) (mymac : list Z) (rootarray : Z → option (list Z))
          (drivesfat : Z → Z).

Lemma handle_query_handled query reqdrv root reqbuff reqbufflen answ st :
  handled E answ st
    (handle_query E drivesfat query reqdrv root reqbuff reqbufflen answ st).
Proof.
  unfold handle_query.
  repeat match goal with
    | |- handled _ _ _ (if ?c then _ else _) => destruct c
    end;
    eauto using do_diskspace_handled, do_readfil_handled, do_writefil_handled,
      do_findfirst_handled, do_findnext_handled, do_mkrmdir_handled,
      do_chdir_handled, do_setattr_handled, do_getattr_handled,
      do_rename_handled, do_delete_handled, do_open_handled,
      do_skfmend_handled, handled_none.
  - apply handled_ret; [lia | done].
  - apply handled_ret; [lia |]. intros i Hi. unfold set_ax.
    by rewrite get_write_below by lia.
Qed.

Lemma sub_ext (a b : list Z) (o1 o2 n : Z) :
  (∀ k, 0 ≤ k < n → get a (o1 + k) = get b (o2 + k)) → sub a o1 n = sub b o2 n.
Proof.
  intros Hk. apply list_eq. intros k.
  destruct (decide (k < Z.to_nat n)%nat).
  - rewrite !lookup_sub by done. f_equal. apply Hk. lia.
  - rewrite !lookup_ge_None_2; [done | |]; rewrite length_sub; lia.
Qed.

(** The header of the answer, before the handlers run. *)
Lemma reply_header_bytes (answ reqbuff : list Z) (i : Z) :
  0 ≤ i < 60 →
  get (reply_header mymac answ reqbuff) i
  = if i <? 6 then get reqbuff (6 + i)
    else if i <? 12 then get mymac (i - 6)
    else get reqbuff i.
Proof.
  intros Hi. unfold reply_header.
  destruct (Z.ltb_spec i 6); [| destruct (Z.ltb_spec i 12)];
    repeat (rewrite get_write by lia; rewrite length_sub;
            change (Z.of_nat (Z.to_nat 6)) with 6;
            change (Z.of_nat (Z.to_nat 60)) with 60;
            repeat match goal with
              | |- context [Z.leb ?u ?v] => destruct (Z.leb_spec u v); try lia
              | |- context [Z.ltb ?u ?v] => destruct (Z.ltb_spec u v); try lia
              end;
            cbn [andb]; rewrite ?get_sub by lia);
    f_equal; lia.
Qed.

(** X20. On a request that is not answered from the cache, with
    [strdup] working, [process] returns -1, -3 or a length of at least
    60. A negative result leaves the file database and the host
    filesystem untouched, and -3 is returned exactly for a frame of at
    least 60 bytes whose drive is outside C..Z or is not mapped. *)
Theorem process_outcome (answer : struct_answcache) (reqbuff : list Z)
    (reqbufflen : Z) (st st' : server) (code : Z) (answ' : list Z) :
  cache_hit answer reqbuff = false →
  env_strdup_ok E = true →
  process E mymac rootarray drivesfat answer reqbuff reqbufflen st
    = Some (code, answ', st') →
  (code = -1 ∨ code = -3 ∨ 60 ≤ code)
  ∧ (code < 0 → st' = st)
  ∧ (code = -3 ↔
     60 ≤ reqbufflen
     ∧ ¬ (2 ≤ Z.land (get reqbuff 58) 31 ≤ 25
          ∧ is_Some (rootarray (Z.land (get reqbuff 58) 31)))).
Proof.
  intros Hmiss Hmem. unfold process. rewrite Hmiss.
  destruct (Z.ltb_spec reqbufflen 60).
  { intros [= <- <- <-]. split; [auto |]. split; [done |]. split; [done | lia]. }
  rewrite Z.gtb_ltb.
  destruct (Z.ltb_spec (Z.land (get reqbuff 58) 31) 2);
    destruct (Z.ltb_spec 25 (Z.land (get reqbuff 58) 31)); simpl;
    try (intros [= <- <- <-]; split; [auto |]; split; [done |];
         split; [intros _; split; [done | lia] | done]).
  destruct (rootarray _) as [root |].
  2:{ intros [= <- <- <-]. split; [auto |]. split; [done |].
      split; [intros _; split; [done |]; by intros [_ [? ?]] | done]. }
  intros Hq. apply handle_query_handled in Hq as [_ Hc].
  split; [destruct Hc as [? | [? _]]; auto |]. split.
  - intros Hneg. destruct Hc as [? | [_ [? | ?]]]; [lia | done | congruence].
  - split; [destruct Hc as [? | [? _]]; lia |]. intros [_ Hno]. exfalso.
    apply Hno. split; [lia | done].
Qed.

(** Below offset 58 the answer is the header [process] prepared. *)
Lemma process_header (answer : struct_answcache) (reqbuff : list Z)
    (reqbufflen : Z) (st st' : server) (code : Z) (answ' : list Z) :
  60 ≤ reqbufflen →
  cache_hit answer reqbuff = false →
  process E mymac rootarray drivesfat answer reqbuff reqbufflen st
    = Some (code, answ', st') →
  ∀ i, 0 ≤ i < 58 →
       get answ' i = get (reply_header mymac (frame answer) reqbuff) i.
Proof.
  intros Hlen Hmiss Hp. unfold process in Hp. rewrite Hmiss in Hp.
  destruct (Z.ltb_spec reqbufflen 60); [lia |].
  destruct (_ || _); [by injection Hp as <- <- <- |].
  destruct (rootarray _) as [root |]; [| by injection Hp as <- <- <-].
  apply handle_query_handled in Hp as [Hh _].
  intros i Hi. rewrite Hh by done. unfold set_ax.
  by rewrite get_write_below by lia.
Qed.

(** X21. Whatever the request, the answer frame [process] builds
    starts with the MAC of the client (bytes 6..11 of the request), then
    the MAC of the server, and its bytes 12..57 are those of the
    request. *)
Theorem reply_keeps_header (answer : struct_answcache) (reqbuff : list Z)
    (reqbufflen : Z) (st st' : server) (code : Z) (answ' : list Z) :
  60 ≤ reqbufflen →
  cache_hit answer reqbuff = false →
  process E mymac rootarray drivesfat answer reqbuff reqbufflen st
    = Some (code, answ', st') →
  sub answ' 0 6 = sub reqbuff 6 6
  ∧ sub answ' 6 6 = sub mymac 0 6
  ∧ ∀ i, 12 ≤ i < 58 → get answ' i = get reqbuff i.
Proof.
  intros Hlen Hmiss Hp.
  pose proof (process_header _ _ _ _ _ _ _ Hlen Hmiss Hp) as Hh.
  split; [| split].
  - apply sub_ext. intros k Hk. rewrite Hh, reply_header_bytes by lia.
    destruct (Z.ltb_spec (0 + k) 6); [done | lia].
  - apply sub_ext. intros k Hk. rewrite Hh, reply_header_bytes by lia.
    destruct (Z.ltb_spec (6 + k) 6); [lia |].
    destruct (Z.ltb_spec (6 + k) 12); [| lia]. f_equal. lia.
  - intros i Hi. rewrite Hh, reply_header_bytes by lia.
    destruct (Z.ltb_spec i 6); [lia |]. destruct (Z.ltb_spec i 12); [lia | done].
Qed.

End ProcessMore.

Section Retransmission.
Context `{H : Host}.
Variables (mymac : list Z) (rootarray : Z → option (list Z))
          (drivesfat : Z → Z).

Lemma sub_sub (buf : list Z) (off n : Z) :
  sub (sub buf off n) 0 n = sub buf off n.
Proof. apply sub_ext. intros k Hk. by rewrite get_sub by lia. Qed.

Lemma findcacheentry_first (cache : list struct_answcache) (mac : list Z)
    (r : nat) :
  (r < ANSWCACHESZ)%nat →
  mac_of cache r = sub mac 0 6 →
  (∀ j, (j < r)%nat → mac_of cache j ≠ sub mac 0 6) →
  findcacheentry cache mac = r.
Proof.
  intros Hr Hm Hbefore.
  destruct (findcacheentry_loop_spec cache mac ANSWCACHESZ 0 0)
    as [Hlt [[Hm' Hb'] | [Hnone _]]];
    [lia | unfold ANSWCACHESZ; lia | intros j Hj; lia | intros j Hj; lia | |].
  - fold (findcacheentry cache mac) in *.
    destruct (Nat.lt_trichotomy (findcacheentry cache mac) r) as [Hc | [Hc | Hc]];
      [| done |].
    + by apply Hbefore in Hc.
    + by apply Hb' in Hc.
  - exfalso. by apply (Hnone r).
Qed.

Lemma findcacheentry_none_before (cache : list struct_answcache) (mac : list Z) :
  (findcacheentry cache mac < ANSWCACHESZ)%nat
  ∧ ∀ j, (j < findcacheentry cache mac)%nat → mac_of cache j ≠ sub mac 0 6.
Proof.
  destruct (findcacheentry_loop_spec cache mac ANSWCACHESZ 0 0)
    as [Hlt [[Hm' Hb'] | [Hnone _]]];
    [lia | unfold ANSWCACHESZ; lia | intros j Hj; lia | intros j Hj; lia | |].
  - done.
  - split; [done |]. intros j Hj. apply Hnone.
    fold (findcacheentry cache mac) in Hlt. lia.
Qed.

(** X22. After a request was served with a positive
    length, the same frame arriving again is answered from the cache: the
    cache entry holds the answer and its length, [process] returns that
    frame and length without touching the state, whatever the time, and
    the main loop only renews the time stamp of the entry. *)
Theorem retransmission_answered_from_cache (E E2 : env)
    (cache cache' : list struct_answcache) (reqbuff : list Z)
    (reqbufflen code : Z) (ptr : nat) (st st' : server) :
  length cache = ANSWCACHESZ →
  60 ≤ reqbufflen →
  dispatch E mymac rootarray drivesfat cache reqbuff reqbufflen st
    = Some (code, ptr, cache', st') →
  0 < code < 65536 →
  ∃ f t,
    cache' !! ptr = Some (Answ f t code)
    ∧ process E2 mymac rootarray drivesfat (Answ f t code) reqbuff reqbufflen st'
      = Some (code, f, st')
    ∧ dispatch E2 mymac rootarray drivesfat cache' reqbuff reqbufflen st'
      = Some (code, ptr, <[ptr := Answ f (env_now E2) code]> cache', st').
Proof.
  intros Hlen Hbuf Hd Hcode. unfold dispatch in Hd.
  set (mac := sub reqbuff 6 6) in *.
  destruct (findcacheentry_none_before cache mac) as [Hptr Hbefore].
  set (p := findcacheentry cache mac) in *.
  set (answer := default answ_zero (cache !! p)) in *.
  destruct (process E _ _ _ answer reqbuff reqbufflen st)
    as [[[c a] s] |] eqn:Hp; simpl in Hd; [| done].
  injection Hd as -> <- <- ->.
  destruct (Z.geb_spec code 0) as [_ | ?]; [| lia].
  rewrite Z.mod_small by lia.
  assert (Hfr : sub a 0 6 = mac ∧ get a 57 = get reqbuff 57).
  { destruct (cache_hit answer reqbuff) eqn:Hhit.
    - assert (a = frame answer) as ->.
      { unfold process in Hp. rewrite Hhit in Hp.
        destruct (Z.ltb_spec reqbufflen 60); [lia |]. by injection Hp as _ <- _. }
      unfold cache_hit in Hhit.
      apply andb_true_iff in Hhit as [Hhit _].
      apply andb_true_iff in Hhit as [H57 Hmac].
      apply Z.eqb_eq in H57. by apply bool_decide_eq_true in Hmac.
    - pose proof (process_header _ _ _ _ _ _ _ _ _ _ _ Hbuf Hhit Hp) as Hh.
      split.
      + apply sub_ext. intros k Hk. rewrite Hh by lia.
        rewrite reply_header_bytes by lia.
        destruct (Z.ltb_spec (0 + k) 6); [done | lia].
      + rewrite Hh by lia. rewrite reply_header_bytes by lia. done. }
  destruct Hfr as [Hmac H57].
  set (new := Answ a (env_now E) code).
  assert (Hnew : <[p := new]> cache !! p = Some new).
  { apply list_lookup_insert_eq. lia. }
  assert (Hfind : findcacheentry (<[p := new]> cache) mac = p).
  { apply findcacheentry_first; [done | |].
    - unfold mac_of, cache_entry. rewrite Hnew. simpl.
      rewrite Hmac. unfold mac. by rewrite sub_sub.
    - intros j Hj. specialize (Hbefore j Hj). unfold mac_of, cache_entry in *.
      by rewrite list_lookup_insert_ne by lia. }
  assert (Hproc : process E2 mymac rootarray drivesfat new reqbuff reqbufflen st'
                  = Some (code, a, st')).
  { unfold process, cache_hit. simpl.
    destruct (Z.ltb_spec reqbufflen 60); [lia |].
    rewrite H57, Z.eqb_refl, bool_decide_eq_true_2 by done.
    rewrite Z.gtb_ltb. destruct (Z.ltb_spec 0 code); [done | lia]. }
  exists a, (env_now E). split; [done |]. split; [done |].
  unfold dispatch. fold mac. rewrite Hfind, Hnew. simpl. fold new.
  rewrite Hproc. simpl.
  destruct (Z.geb_spec code 0) as [_ | ?]; [| lia].
  by rewrite Z.mod_small by lia.
Qed.

End Retransmission.

(** ** Replies *)

Section Requests.
Context `{H : Host}.
Variables (E : env) (mymac : list Z) (rootarray : Z → option (list Z))
          (drivesfat : Z → Z).

Lemma ax_after_payload (answ data : list Z) (v : Z) :
  0 ≤ v < 65536 → le16 (write (set_ax answ v) 60 data) 58 = v.
Proof.
  intros Hv. unfold set_ax. rewrite le16_write_other by lia.
  by apply le16_put16.
Qed.

Lemma ax_set (answ : list Z) (v : Z) :
  0 ≤ v < 65536 → le16 (set_ax answ v) 58 = v.
Proof. intros Hv. unfold set_ax. by apply le16_put16. Qed.

Lemma ax_set_twice (answ : list Z) (u v : Z) :
  0 ≤ v < 65536 → le16 (set_ax (set_ax answ u) v) 58 = v.
Proof. intros Hv. by apply ax_set. Qed.

(** X23. READFILE, WRITEFILE and SKFMEND on a file id whose slot
    has no name are answered with 60 bytes, AX = 5 (AX = 2 for SKFMEND),
    and change nothing. *)
Theorem invalid_handle_refused (answer : struct_answcache) (reqbuff : list Z)
    (reqbufflen : Z) (st : server) (root : list Z) :
  cache_hit answer reqbuff = false →
  2 ≤ Z.land (get reqbuff 58) 31 ≤ 25 →
  rootarray (Z.land (get reqbuff 58) 31) = Some root →
  name (fsdb_get (fsdb st) (le16 reqbuff 64)) = None →
  (get reqbuff 59 = AL_READFIL ∧ reqbufflen = 68
   ∨ get reqbuff 59 = AL_WRITEFIL ∧ 66 ≤ reqbufflen
   ∨ get reqbuff 59 = AL_SKFMEND ∧ reqbufflen = 66) →
  ∃ answ,
    process E mymac rootarray drivesfat answer reqbuff reqbufflen st
      = Some (60, answ, st)
    ∧ le16 answ 58 = (if get reqbuff 59 =? AL_SKFMEND then 2 else 5).
Proof.
  intros Hmiss Hdrv Hroot Hname Hq.
  rewrite (process_reaches_query _ _ _ _ _ _ _ _ root) by (done || lia).
  unfold handle_query.
  destruct Hq as [[Hq Hl] | [[Hq Hl] | [Hq Hl]]]; rewrite Hq.
  - subst reqbufflen. query_tests. unfold do_readfil, readfile.
    rewrite Hname. simpl. eexists. split; [reflexivity |].
    by apply ax_set_twice.
  - query_tests. destruct (Z.geb_spec (reqbufflen - 60) 6); [| lia].
    unfold do_writefil, writefile. rewrite Hname. simpl.
    destruct st. eexists. split; [reflexivity |]. by apply ax_set_twice.
  - subst reqbufflen. query_tests. unfold do_skfmend, getfopsize.
    rewrite Hname. simpl. eexists. split; [reflexivity |].
    by apply ax_set_twice.
Qed.

(** The payload of an answer, read back. *)
Lemma sub_payload (buf data rest : list Z) :
  sub (write buf 60 (data ++ rest)) 60 (Z.of_nat (length data)) = data.
Proof.
  apply list_eq. intros k.
  destruct (decide (k < length data)%nat) as [Hk | Hk].
  - rewrite lookup_sub by lia. rewrite get_write by lia.
    rewrite length_app.
    destruct (Z.leb_spec 60 (60 + Z.of_nat k)); [| lia].
    destruct (Z.ltb_spec (60 + Z.of_nat k)
                (60 + Z.of_nat (length data + length rest))); [| lia].
    simpl. replace (60 + Z.of_nat k - 60) with (Z.of_nat k) by lia.
    rewrite get_nonneg_list. rewrite lookup_app_l by done.
    destruct (lookup_lt_is_Some_2 data k Hk) as [x Hx]. by rewrite Hx.
  - rewrite !lookup_ge_None_2; [done | lia |]. rewrite length_sub. lia.
Qed.

(** X24. READFILE on a valid handle, when the host reads the bytes: if
    they are at most 1460, the answer has AX = 0 and exactly those
    bytes behind the 60-byte header, and the state is unchanged; if
    they are more (the request may ask for up to 65535), the server
    writes past the 1520 bytes of the frame of the cache entry, which
    is undefined. *)
Theorem readfile_reply (answer : struct_answcache) (reqbuff : list Z)
    (st : server) (root fname bytes : list Z) :
  cache_hit answer reqbuff = false →
  2 ≤ Z.land (get reqbuff 58) 31 ≤ 25 →
  rootarray (Z.land (get reqbuff 58) 31) = Some root →
  get reqbuff 59 = AL_READFIL →
  name (fsdb_get (fsdb st) (le16 reqbuff 64)) = Some fname →
  h_read (fs st) fname (le32 reqbuff 60) (le16 reqbuff 66) = Some bytes →
  ((length bytes ≤ 1460)%nat →
   ∃ answ,
     process E mymac rootarray drivesfat answer reqbuff 68 st
       = Some (60 + Z.of_nat (length bytes), answ, st)
     ∧ le16 answ 58 = 0
     ∧ sub answ 60 (Z.of_nat (length bytes)) = bytes)
  ∧ ((1460 < length bytes)%nat →
     process E mymac rootarray drivesfat answer reqbuff 68 st = None).
Proof.
  intros Hmiss Hdrv Hroot Hq Hname Hread.
  rewrite (process_reaches_query _ _ _ _ _ _ _ _ root) by (done || lia).
  unfold handle_query. rewrite Hq. query_tests.
  unfold do_readfil, readfile. rewrite Hname, Hread.
  destruct (Z.ltb_spec (Z.of_nat (length bytes)) 0); [lia |].
  change (1520 - 60) with 1460.
  destruct (Z.gtb_spec (Z.of_nat (length bytes)) 1460) as [Hbig | Hfit].
  { split; [lia | done]. }
  split; [| lia]. intros _.
  unfold ret. eexists. split; [f_equal; f_equal; f_equal; lia |].
  split; [by apply ax_after_payload |].
  rewrite <- (app_nil_r bytes) at 1. apply sub_payload.
Qed.

Lemma u32_range (x : Z) : 0 ≤ u32 x < 4294967296.
Proof.
  unfold u32. change 4294967295 with (Z.ones 32).
  rewrite Z.land_ones by lia. apply Z.mod_pos_bound. lia.
Qed.

Lemma int32_small (x : Z) : -2147483648 ≤ x < 2147483648 → int32 x = x.
Proof.
  intros Hx. unfold int32, u32. change 4294967295 with (Z.ones 32).
  rewrite Z.land_ones by lia. rewrite Z.mod_small; lia.
Qed.

Lemma int32_range (x : Z) : -2147483648 ≤ int32 x < 2147483648.
Proof. unfold int32. pose proof (u32_range (x + 2147483648)). lia. Qed.

(** X25. SKFMEND on a file of size below 2^31 is answered with 64 bytes
    and AX = 0, and the position it reports is the size plus the offset
    of the request when that offset is negative, the size itself for an
    offset that is not negative, and 0 when the sum would be negative. *)
Theorem skfmend_reply (answer : struct_answcache) (reqbuff : list Z)
    (st : server) (root : list Z) (fsize : Z) :
  cache_hit answer reqbuff = false →
  2 ≤ Z.land (get reqbuff 58) 31 ≤ 25 →
  rootarray (Z.land (get reqbuff 58) 31) = Some root →
  get reqbuff 59 = AL_SKFMEND →
  getfopsize (fs st) (fsdb st) (le16 reqbuff 64) (uninit_props E) = Some fsize →
  0 ≤ fsize < 2147483648 →
  ∃ answ,
    process E mymac rootarray drivesfat answer reqbuff 66 st
      = Some (64, answ, st)
    ∧ le16 answ 58 = 0
    ∧ le32 answ 60 = Z.max 0 (fsize + Z.min 0 (int32 (le32 reqbuff 60))).
Proof.
  intros Hmiss Hdrv Hroot Hq Hsize Hrange.
  rewrite (process_reaches_query _ _ _ _ _ _ _ _ root) by (done || lia).
  unfold handle_query. rewrite Hq. query_tests.
  unfold do_skfmend. rewrite Hsize. simpl.
  destruct (Z.ltb_spec fsize 0); [lia |].
  pose proof (int32_range (le32 reqbuff 60)) as Ho.
  set (offs := int32 (le32 reqbuff 60)) in *.
  rewrite Z.gtb_ltb.
  assert (Hmin : (if 0 <? offs then 0 else offs) = Z.min 0 offs)
    by (destruct (Z.ltb_spec 0 offs); lia).
  rewrite Hmin. rewrite int32_small by lia.
  assert (Hmax : (if Z.min 0 offs + fsize <? 0 then 0 else Z.min 0 offs + fsize)
                 = Z.max 0 (fsize + Z.min 0 offs))
    by (destruct (Z.ltb_spec (Z.min 0 offs + fsize) 0); lia).
  rewrite Hmax. unfold ret. eexists. split; [reflexivity |].
  split; [by apply ax_after_payload |].
  unfold set_ax. apply le32_put32; lia.
Qed.

Lemma get_payload (buf pre data rest : list Z) (j : Z) :
  0 ≤ j < Z.of_nat (length data) →
  get (write buf 60 (pre ++ data ++ rest)) (60 + Z.of_nat (length pre) + j)
  = get data j.
Proof.
  intros Hj. rewrite get_write by lia. rewrite !length_app.
  destruct (Z.leb_spec 60 (60 + Z.of_nat (length pre) + j)); [| lia].
  destruct (Z.ltb_spec (60 + Z.of_nat (length pre) + j)
              (60 + Z.of_nat (length pre + (length data + length rest))));
    [| lia].
  cbn [andb].
  replace (60 + Z.of_nat (length pre) + j - 60)
    with (Z.of_nat (length pre + Z.to_nat j)) by lia.
  rewrite get_nonneg_list. rewrite lookup_app_r by lia.
  rewrite lookup_app_l by lia. rewrite get_lookup by lia. do 2 f_equal. lia.
Qed.

Lemma le32_payload (buf pre rest : list Z) (v : Z) :
  0 ≤ v < 4294967296 →
  le32 (write buf 60 (pre ++ put32 v ++ rest)) (60 + Z.of_nat (length pre)) = v.
Proof.
  intros Hv. unfold le32.
  rewrite <- (Z.add_0_r (60 + Z.of_nat (length pre))) at 1.
  rewrite !get_payload by (change (length (put32 v)) with 4%nat; lia).
  by apply le32_bytes.
Qed.

(** X26. GETATTR on a drive that is not FAT, for a path that resolves:
    AX = 2 and 60 bytes when [stat] fails; otherwise 69 bytes with AX =
    0, the DOS time, the size (0 for a directory) and the attribute
    byte, which is 16 for a directory and 0 for a file (not the 0x20
    that [getitemattr] returns). *)
Theorem getattr_reply (answer : struct_answcache) (reqbuff : list Z)
    (reqbufflen : Z) (st : server) (root path host_path : list Z) :
  60 < reqbufflen →
  cache_hit answer reqbuff = false →
  2 ≤ Z.land (get reqbuff 58) 31 ≤ 25 →
  rootarray (Z.land (get reqbuff 58) 31) = Some root →
  get reqbuff 59 = AL_GETATTR →
  drivesfat (Z.land (get reqbuff 58) 31) = 0 →
  dospath root reqbuff 60 (reqbufflen - 60) = Some path →
  shorttolong (fs st) path root = Some (0, host_path) →
  is_Some (filename2fcb (fname_of host_path host_path)) →
  match h_stat (fs st) host_path with
  | None =>
      ∃ answ,
        process E mymac rootarray drivesfat answer reqbuff reqbufflen st
          = Some (60, answ, st)
        ∧ le16 answ 58 = 2
  | Some sb =>
      ∃ answ,
        process E mymac rootarray drivesfat answer reqbuff reqbufflen st
          = Some (69, answ, st)
        ∧ le16 answ 58 = 0
        ∧ le32 answ 60 = u32 (time2dos (st_mtime sb))
        ∧ le32 answ 64 = (if st_isdir sb then 0 else u32 (st_size sb))
        ∧ get answ 68 = (if st_isdir sb then 16 else 0)
  end.
Proof.
  intros Hlen Hmiss Hdrv Hroot Hq Hfat Hpath Hshort [fcb Hfcb].
  rewrite (process_reaches_query _ _ _ _ _ _ _ _ root) by (done || lia).
  unfold handle_query. rewrite Hq. query_tests.
  destruct (Z.gtb_spec (reqbufflen - 60) 0); [| lia].
  unfold do_getattr. rewrite Hpath. cbn [mbind option_bind].
  rewrite Hshort. cbn [mbind option_bind]. query_tests.
  unfold getitemattr. rewrite Hfat.
  destruct (h_stat (fs st) host_path) as [sb |].
  2:{ cbn [mbind option_bind]. query_tests. eexists.
      split; [reflexivity |]. by apply ax_set_twice. }
  rewrite Hfcb. pose proof (u32_range (time2dos (st_mtime sb))) as Ht.
  pose proof (u32_range (st_size sb)) as Hs.
  set (t := u32 (time2dos (st_mtime sb))) in *.
  set (sz := u32 (st_size sb)) in *.
  assert (Hrep : ∀ a s v,
            0 ≤ s < 4294967296 → 0 ≤ v →
            let answ := write (set_ax a 0) 60 (put32 t ++ put32 s ++ [v]) in
            le16 answ 58 = 0 ∧ le32 answ 60 = t ∧ le32 answ 64 = s
            ∧ get answ 68 = v).
  { intros a s v Hs' Hv answ. subst answ. split; [by apply ax_after_payload |].
    split; [| split].
    - apply (le32_payload _ [] (put32 s ++ [v]) t Ht).
    - pose proof (le32_payload (set_ax a 0) (put32 t) [v] s Hs') as Hl.
      change (60 + Z.of_nat (length (put32 t))) with 64 in Hl. exact Hl.
    - pose proof (get_payload (set_ax a 0) (put32 t ++ put32 s) [v] [] 0
                    ltac:(simpl; lia)) as Hg.
      rewrite app_nil_r, <- app_assoc in Hg.
      change (60 + Z.of_nat (length (put32 t ++ put32 s)) + 0) with 68 in Hg.
      rewrite Hg. done. }
  destruct (st_isdir sb); cbn [mbind option_bind with_props fst snd default
                                 ftime fsize fattr fcbname];
    query_tests; unfold ret; (eexists; split; [reflexivity |]);
    unfold id; cbn [ftime fsize fattr default from_option].
  - change (16 mod 256) with 16. apply Hrep; lia.
  - change (0 mod 256) with 0. apply Hrep; lia.
Qed.

End Requests.

Section OpenMore.
Context `{H : Host}.
Variables (E : env) (mymac : list Z) (rootarray : Z → option (list Z))
          (drivesfat : Z → Z).

(** The slot a scan returns holds the name that was looked for. *)
Lemma getitemss_scan_inl (now : Z) (f : list Z) (fuel : nat) :
  ∀ (i : Z) (db : gmap Z sfsdb) (ff old id : Z) (db' : gmap Z sfsdb),
    getitemss_scan fuel now f i db ff old = Some (inl (id, db')) →
    name (fsdb_get db' id) = Some f.
Proof.
  induction fuel as [| fuel IH]; intros i db ff old id db' Hs; simpl in Hs;
    [done |].
  destruct (decide (name (fsdb_get db i) = Some f)) as [Hn | Hn].
  - injection Hs as <- <-. rewrite fsdb_get_insert.
    by destruct (decide (i = i)).
  - destruct (getitemss_age now i db) as [db1 |]; simpl in Hs; [| done].
    destruct (getitemss_pick i db1 ff old) as [ff' old']. by eapply IH.
Qed.

(** An id other than [0xffff] is the id of a slot that holds the name. *)
Lemma getitemss_named (P : list Z) (db db' : gmap Z sfsdb) (id : Z) :
  getitemss E P db = Some (id, db') → id ≠ 65535 →
  0 ≤ id < 65535 ∧ sstoitem db' id = Some P.
Proof.
  unfold getitemss, sstoitem. intros Hg Hid.
  destruct (getitemss_scan _ _ _ _ _ _ _) as [r |] eqn:Hs; simpl in Hg; [| done].
  pose proof (getitemss_scan_range _ _ _ _ _ _ _ _ Hs) as Hr.
  destruct r as [[id1 d] | [[d ff] old]].
  - injection Hg as -> ->. split; [lia |]. by eapply getitemss_scan_inl.
  - assert (Hslot : ∀ slot d2, 0 ≤ slot < 65535 →
              (if env_strdup_ok E
               then Some (slot, <[slot := Sfsdb (Some P) (env_now E)
                                            (dirlist (fsdb_get d2 slot))]> d2)
               else Some (65535, <[slot := Sfsdb None (lastused (fsdb_get d2 slot))
                                             (dirlist (fsdb_get d2 slot))]> d2))
              = Some (id, db') →
              0 ≤ id < 65535 ∧ name (fsdb_get db' id) = Some P).
    { intros slot d2 Hslot Hx. destruct (env_strdup_ok E); [| congruence].
      injection Hx as <- <-. split; [done |]. rewrite fsdb_get_insert.
      by destruct (decide (slot = slot)). }
    destruct (Z.eqb_spec ff 65535) as [-> | Hne].
    + destruct (freedirlist _); simpl in Hg; [| done].
      eapply Hslot; [| exact Hg]. lia.
    + simpl in Hg. eapply Hslot; [| exact Hg]. lia.
Qed.

(** The id that follows the 20 bytes of the record in a reply. *)
Lemma handle_field (b : list Z) (p : fileprops) (id : Z) (rest : list Z) :
  0 ≤ id < 65536 →
  le16 (write b 60 (put_props p ++ put16 id ++ rest)) 80 = id.
Proof.
  intros Hid.
  assert (Hlen : Z.of_nat (length (put_props p)) = 20).
  { unfold put_props. rewrite !length_app, length_sub. done. }
  unfold le16.
  replace 80 with (60 + Z.of_nat (length (put_props p)) + 0) at 1 by lia.
  replace (80 + 1) with (60 + Z.of_nat (length (put_props p)) + 1) by lia.
  rewrite !get_payload by (change (length (put16 id)) with 2%nat; lia).
  by apply le16_bytes.
Qed.

(** X27. Whenever OPEN, CREATE or SPOPNFIL is answered with more
    than 60 bytes, the answer has 85 bytes and AX = 0, and the file id
    at offset 80 is below 0xffff and is the id of a slot of the file
    database that holds a name, so that a READFILE, WRITEFILE or SKFMEND
    on it is not refused as an invalid handle. *)
Theorem open_reply_names_slot (answer : struct_answcache) (reqbuff : list Z)
    (reqbufflen : Z) (st st' : server) (code : Z) (answ' : list Z) :
  cache_hit answer reqbuff = false →
  get reqbuff 59 = AL_OPEN ∨ get reqbuff 59 = AL_CREATE
  ∨ get reqbuff 59 = AL_SPOPNFIL →
  process E mymac rootarray drivesfat answer reqbuff reqbufflen st
    = Some (code, answ', st') →
  60 < code →
  code = 85
  ∧ le16 answ' 58 = 0
  ∧ 0 ≤ le16 answ' 80 < 65535
  ∧ ∃ host_path, sstoitem (fsdb st') (le16 answ' 80) = Some host_path.
Proof.
  intros Hmiss Hq Hp Hcode. unfold process in Hp. rewrite Hmiss in Hp.
  destruct (reqbufflen <? 60); [injection Hp as <- _ _; lia |].
  destruct (_ || _); [injection Hp as <- _ _; lia |].
  destruct (rootarray _) as [root |]; [| injection Hp as <- _ _; lia].
  unfold handle_query in Hp.
  assert (Hopen : do_open E drivesfat (get reqbuff 59)
                    (Z.land (get reqbuff 58) 31) root reqbuff (reqbufflen - 60)
                    (set_ax (reply_header mymac (frame answer) reqbuff) 0) st
                  = Some (code, answ', st')).
  { destruct Hq as [Hq | [Hq | Hq]]; rewrite Hq in Hp |- *; exact Hp. }
  clear Hp Hq. unfold do_open in Hopen.
  repeat match type of Hopen with
    | context [mbind _ ?x] =>
        destruct x as [?v |] eqn:?; cbn [mbind option_bind] in Hopen; [| done]
    | context [let '(_, _) := ?x in _] => destruct x
    | (if ?c then _ else _) = _ => destruct c eqn:?
    end.
  all: try (injection Hopen as <- _ _; lia).
  match type of Hopen with ret _ ?a _ = _ => remember a as w eqn:Hw end.
  unfold ret in Hopen. injection Hopen as <- <- <-. subst w.
  match goal with
  | Hg : getitemss _ _ _ = Some (?id, _), Hne : (?id =? 65535) = false |- _ =>
      apply Z.eqb_neq in Hne; apply getitemss_named in Hg as [Hid Hname];
      [| done]
  end.
  split; [done |]. split; [by apply ax_after_payload |].
  rewrite handle_field by lia. split; [done |]. eauto.
Qed.

End OpenMore.

(** ** FINDFIRST and the FINDNEXT requests that follow it *)

Section FindSession.
Context `{H : Host}.
Variables (E : env) (mymac : list Z) (rootarray : Z → option (list Z))
          (drivesfat : Z → Z).

(** The matching entries are the entries that pass the tests, in the
    order of the listing. *)
Lemma matching_from_entries (fcbtmpl : list Z) (attr flags : Z)
    (l : list fileprops) :
  ∀ n, (matching_from fcbtmpl attr flags l n).*2
       = filter (λ x, entry_match fcbtmpl attr flags x = true) l.
Proof.
  induction l as [| e r IH]; intros n; simpl; [done |].
  rewrite fmap_app, IH. destruct (entry_match fcbtmpl attr flags e) eqn:He.
  - by rewrite filter_cons_True.
  - rewrite filter_cons_False; [done |]. by rewrite He.
Qed.

(** Their positions ascend. *)
Lemma matching_from_sorted (fcbtmpl : list Z) (attr flags : Z)
    (l : list fileprops) :
  ∀ n, StronglySorted Z.lt (matching_from fcbtmpl attr flags l n).*1.
Proof.
  induction l as [| e r IH]; intros n; simpl; [constructor |].
  rewrite fmap_app. destruct (entry_match fcbtmpl attr flags e); simpl;
    [| apply IH].
  constructor; [apply IH |]. apply Forall_forall. intros q Hq.
  apply list_elem_of_fmap in Hq as [[q' x] [-> Hin]].
  apply matching_from_bounds in Hin. simpl. lia.
Qed.

(** In a list with ascending positions, the entries behind the position
    of entry [i] are the entries after entry [i]. *)
Lemma sorted_filter_drop (M : list (Z * fileprops)) :
  StronglySorted Z.lt M.*1 →
  ∀ (i : nat) (p : Z) (e : fileprops),
    M !! i = Some (p, e) → filter (λ y, p < y.1) M = drop (S i) M.
Proof.
  induction M as [| [q x] t IH]; intros Hs i p e Hi; [done |].
  simpl in Hs. apply StronglySorted_inv in Hs as [Hs Hq].
  destruct i as [| i]; simpl in Hi.
  - injection Hi as -> ->. rewrite filter_cons_False by (simpl; lia).
    simpl. rewrite drop_0.
    assert (Hall : Forall (λ y, p < y.1) t).
    { apply Forall_forall. intros [q' x'] Hin. simpl.
      rewrite Forall_forall in Hq. apply Hq.
      apply list_elem_of_fmap. by exists (q', x'). }
    clear -Hall. induction Hall as [| y t Hy _ IH]; [done |].
    by rewrite filter_cons_True, IH.
  - assert (Hqp : q < p).
    { rewrite Forall_forall in Hq. apply Hq. apply list_elem_of_fmap.
      exists (p, e). split; [done |]. by eapply list_elem_of_lookup_2. }
    rewrite filter_cons_False by (simpl; lia). simpl. by apply (IH Hs i p e).
Qed.

(** A successful first search returns the first matching entry of the
    listing it leaves. *)
Lemma findfile_first (fs0 : hostfs) (db db1 : gmap Z sfsdb) (dss : Z)
    (fcbtmpl : list Z) (attr flags : Z) (l : list fileprops)
    (found : option fileprops) (p1 : Z) :
  findfile E fs0 db dss fcbtmpl attr 0 flags = Some (0, found, p1, db1) →
  dirlist (fsdb_get db1 dss) = DirNodes l →
  Z.of_nat (length l) < 65536 →
  ∃ e1 t, found = Some e1
          ∧ matching_from fcbtmpl attr flags l 0 = (p1, e1) :: t.
Proof.
  intros Hfirst Hl Hlen. unfold findfile in Hfirst. simpl in Hfirst.
  destruct (gendirlist E fs0 (fsdb_get db dss) _) as [[count e] |];
    simpl in Hfirst; [| done].
  destruct (count <? 0); [done |].
  destruct (dirlist (fsdb_get (<[dss := e]> db) dss)) as [| l' |] eqn:Hl';
    [done | | done].
  destruct (findfile_walk fcbtmpl attr flags l' 0 0) as [[n e'] |] eqn:Hw;
    [| done].
  injection Hfirst as <- <- <-. rewrite Hl in Hl'. injection Hl' as <-.
  rewrite findfile_walk_head, matching_filter_all in Hw by lia.
  destruct (matching_from fcbtmpl attr flags l 0) as [| y t] eqn:Hm; [done |].
  simpl in Hw. injection Hw as ->.
  assert (Hin : (n, e') ∈ matching_from fcbtmpl attr flags l 0)
    by (rewrite Hm; left).
  apply matching_from_bounds in Hin.
  exists e', t. split; [done |]. by rewrite Z.mod_small by lia.
Qed.

(** The position that follows the record and the id in a reply. *)
Lemma pos_field (b : list Z) (p : fileprops) (id pos : Z) :
  0 ≤ pos < 65536 →
  le16 (write b 60 (put_props p ++ put16 id ++ put16 pos)) 82 = pos.
Proof.
  intros Hpos.
  assert (Hlen : Z.of_nat (length (put_props p ++ put16 id)) = 22).
  { unfold put_props. rewrite !length_app, length_sub. done. }
  replace (put_props p ++ put16 id ++ put16 pos)
    with ((put_props p ++ put16 id) ++ put16 pos ++ [])
    by (by rewrite app_nil_r, <- app_assoc).
  unfold le16.
  replace 82 with (60 + Z.of_nat (length (put_props p ++ put16 id)) + 0) at 1
    by lia.
  replace (82 + 1) with (60 + Z.of_nat (length (put_props p ++ put16 id)) + 1)
    by lia.
  rewrite !get_payload by (change (length (put16 pos)) with 2%nat; lia).
  by apply le16_bytes.
Qed.

(** The record at the start of the payload of a reply. *)
Lemma props_field (b : list Z) (p : fileprops) (rest : list Z) :
  sub (write b 60 (put_props p ++ rest)) 60 20 = put_props p.
Proof.
  assert (Hlen : Z.of_nat (length (put_props p)) = 20).
  { unfold put_props. rewrite !length_app, length_sub. done. }
  rewrite <- Hlen. apply sub_payload.
Qed.


End FindSession.

(** ** The main loop *)

Section MainLoop.
Context `{H : Host}.
Variables (E : env) (mymac : list Z) (rootarray : Z → option (list Z))
          (drivesfat : Z → Z).

(** X28. The main loop drops, without an answer and without touching
    the cache or the state, a frame that is shorter than 60 bytes, is
    addressed neither to the server nor to the broadcast address, has an
    ethertype other than 0xEDF5, a protocol version other than 2, a
    length field that exceeds the received length or is below 60, or a
    checksum flag with a checksum that is not the BSD sum of the bytes
    from offset 56. *)
Theorem serve_ignores (cache : list struct_answcache) (buff : list Z)
    (buflen : Z) (st : server) :
  let framelen := if le16 buff 52 =? 0 then buflen else le16 buff 52 in
  buflen < 60
  ∨ (sub mymac 0 6 ≠ sub buff 0 6 ∧ replicate 6 255 ≠ sub buff 0 6)
  ∨ get buff 12 ≠ 237 ∨ get buff 13 ≠ 245
  ∨ Z.land (get buff 56) 127 ≠ 2
  ∨ (le16 buff 52 ≠ 0 ∧ (buflen < le16 buff 52 ∨ le16 buff 52 < 60))
  ∨ (Z.shiftr (get buff 56) 7 ≠ 0
     ∧ bsdsum (sub buff 56 ((framelen - 56) mod 65536)) ≠ le16 buff 54) →
  serve E mymac rootarray drivesfat cache buff buflen st = Some (cache, st, None).
Proof.
  intros framelen Hbad. unfold serve.
  destruct (Z.ltb_spec buflen 60); [done |].
  destruct (decide (sub mymac 0 6 = sub buff 0 6)) as [Hme | Hme];
    destruct (decide (replicate 6 255 = sub buff 0 6)) as [Hbc | Hbc];
    rewrite ?(bool_decide_eq_true_2 _ Hme), ?(bool_decide_eq_false_2 _ Hme),
      ?(bool_decide_eq_true_2 _ Hbc), ?(bool_decide_eq_false_2 _ Hbc);
    cbn [negb andb]; [| | | done].
  all: destruct (Z.eqb_spec (get buff 12) 237) as [H12 | H12]; [| done].
  all: destruct (Z.eqb_spec (get buff 13) 245) as [H13 | H13]; [| done].
  all: cbn [negb andb].
  all: destruct (Z.eqb_spec (Z.land (get buff 56) 127) 2) as [Hv | Hv]; [| done].
  all: cbn [negb andb].
  all: fold framelen.
  all: destruct (Z.eqb_spec (le16 buff 52) 0) as [Hz | Hz]; cbn [negb andb].
  all: try (destruct (Z.gtb_spec (le16 buff 52) buflen);
            destruct (Z.ltb_spec (le16 buff 52) 60); cbn [orb]; try done).
  all: destruct (Z.eqb_spec (Z.shiftr (get buff 56) 7) 0) as [Hc | Hc];
    cbn [negb andb].
  all: try (destruct (Z.eqb_spec (bsdsum (sub buff 56 ((framelen - 56) mod 65536)))
                       (le16 buff 54)) as [Hs | Hs]; cbn [negb]; try done).
  all: exfalso; destruct Hbad as [? | [[? ?] | [? | [? | [? | [[? ?] | [? ?]]]]]]];
    try done; try lia.
Qed.

(** A store inside a buffer keeps its length. *)
Lemma length_set (buf : list Z) (i v : Z) (n : nat) :
  length buf = n → (Z.to_nat i < n)%nat → length (set buf i v) = n.
Proof.
  intros Hn Hi. unfold set. destruct (decide _); [| lia].
  by rewrite length_insert.
Qed.

(** The first bytes of a buffer that holds them. *)
Lemma sub_take (buf : list Z) (n : Z) :
  0 ≤ n ≤ Z.of_nat (length buf) → sub buf 0 n = take (Z.to_nat n) buf.
Proof.
  intros Hn. apply list_eq. intros k.
  destruct (decide (k < Z.to_nat n)%nat) as [Hk | Hk].
  - rewrite lookup_sub by done. rewrite lookup_take_lt by done.
    rewrite Z.add_0_l, get_nonneg_list.
    destruct (lookup_lt_is_Some_2 buf k) as [x Hx]; [lia |]. by rewrite Hx.
  - rewrite !lookup_ge_None_2; [done | |].
    + rewrite length_take. lia.
    + rewrite length_sub. lia.
Qed.

(** X29. For an answer frame of 1520 bytes and a length of 56 to 1520
    the main loop sends the first [len] bytes of the frame, with [len]
    in bytes 52..53 and all bytes outside 52..56 as [process] left
    them. Without the checksum flag bytes 54..55 are 0 and bit 7 of
    byte 56 is cleared. With it bit 7 is set, and bytes 54..55 hold the
    BSD sum of the bytes from offset 56 as they were before the bit was
    set: that is the sum of the bytes sent from offset 56 when byte 56
    had the bit already, as it has in the answer to a request that
    carried the flag. *)
Theorem finalize_frame (cksumflag len : Z) (answ : list Z) :
  length answ = 1520%nat →
  56 ≤ len ≤ 1520 →
  let f := (finalize cksumflag len answ).1 in
  length f = 1520%nat
  ∧ (finalize cksumflag len answ).2 = Some (take (Z.to_nat len) f)
  ∧ le16 f 52 = len
  ∧ (∀ i, 0 ≤ i → ¬ (52 ≤ i ≤ 56) → get f i = get answ i)
  ∧ (cksumflag = 0 →
     le16 f 54 = 0 ∧ get f 56 = Z.land (get answ 56) 127)
  ∧ (cksumflag ≠ 0 →
     get f 56 = Z.lor (get answ 56) 128
     ∧ le16 f 54 = bsdsum (sub answ 56 (len - 56))
     ∧ (Z.lor (get answ 56) 128 = get answ 56 →
        le16 f 54 = bsdsum (drop 56 (take (Z.to_nat len) f)))).
Proof.
  intros Hsize Hlen f. unfold finalize in f.
  destruct (Z.gtb_spec len 0) as [_ | ?]; [| lia].
  unfold finalize. destruct (Z.gtb_spec len 0) as [_ | ?]; [| lia].
  set (a1 := set (set answ 52 (Z.land len 255)) 53 (Z.land (Z.shiftr len 8) 255))
    in *.
  assert (Ha1 : ∀ i, 0 ≤ i →
            get a1 i = if decide (i = 53) then Z.land (Z.shiftr len 8) 255
                       else if decide (i = 52) then Z.land len 255
                       else get answ i).
  { intros i Hi. unfold a1. rewrite !get_set by lia. done. }
  assert (Hl1 : length a1 = 1520%nat).
  { unfold a1. repeat (apply length_set; [| lia]). done. }
  assert (Hf : length f = 1520%nat).
  { subst f. destruct (negb _); cbn [fst];
      repeat (apply length_set; [| lia]); done. }
  split; [done |]. clear Hf.
  assert (Hsent : ∀ g : list Z, length g = 1520%nat →
            sub g 0 len = take (Z.to_nat len) g).
  { intros g Hg. apply sub_take. lia. }
  destruct (Z.eqb_spec cksumflag 0) as [Hck | Hck]; cbn [negb] in *.
  - subst f. cbn [fst snd] in *.
    split; [by rewrite Hsent by (repeat (apply length_set; [| lia]); done) |].
    split; [| split; [| split; [| done]]].
    + unfold le16. rewrite !get_set by lia. rewrite !Ha1 by lia.
      repeat case_decide; try lia; apply le16_bytes; lia.
    + intros i Hi Hout. rewrite !get_set by lia. rewrite !Ha1 by lia.
      repeat case_decide; try lia; done.
    + intros _. split.
      * unfold le16. rewrite !get_set by lia. repeat case_decide; lia.
      * rewrite !get_set by lia. repeat case_decide; try lia.
        rewrite !Ha1 by lia. repeat case_decide; try lia; done.
  - subst f. cbn [fst snd] in *. rewrite (Z.mod_small (len - 56)) by lia.
    set (ck := bsdsum (sub a1 56 (len - 56))).
    assert (Hckr : 0 ≤ ck < 65536) by apply bsdsum_range.
    set (f := set (set (set a1 54 (Z.land ck 255)) 55
                     (Z.land (Z.shiftr ck 8) 255)) 56 _) in *.
    assert (Hf56 : get f 56 = Z.lor (get answ 56) 128).
    { unfold f. rewrite !get_set by lia. repeat case_decide; try lia.
      rewrite !Ha1 by lia. repeat case_decide; try lia; done. }
    assert (H54 : le16 f 54 = ck).
    { unfold le16, f. rewrite !get_set by lia.
      repeat case_decide; try lia; apply le16_bytes; lia. }
    assert (Hf : length f = 1520%nat)
      by (unfold f; repeat (apply length_set; [| lia]); done).
    split; [by rewrite Hsent by exact Hf |].
    split; [| split; [| split; [done |]]].
    + unfold le16, f. rewrite !get_set by lia. rewrite !Ha1 by lia.
      repeat case_decide; try lia; apply le16_bytes; lia.
    + intros i Hi Hout. unfold f. rewrite !get_set by lia. rewrite !Ha1 by lia.
      repeat case_decide; try lia; done.
    + intros _. split; [done |]. split.
      * rewrite H54. unfold ck. f_equal. apply sub_ext. intros k Hk.
        rewrite Ha1 by lia. repeat case_decide; try lia; done.
      * intros Hbit. rewrite H54. unfold ck. f_equal.
        transitivity (sub f 56 (len - 56)).
        -- apply sub_ext. intros k Hk.
           destruct (decide (k = 0)) as [-> | Hk0].
           ++ rewrite Z.add_0_r, Hf56, Hbit. rewrite !Ha1 by lia.
              repeat case_decide; try lia; done.
           ++ unfold f. rewrite !get_set by lia.
              repeat case_decide; try lia; done.
        -- apply list_eq. intros k.
           rewrite lookup_drop.
           destruct (decide (k < Z.to_nat (len - 56))%nat) as [Hk | Hk].
           ++ rewrite lookup_sub by done. rewrite lookup_take_lt by lia.
              replace (56 + Z.of_nat k) with (Z.of_nat (56 + k)) by lia.
              rewrite get_nonneg_list.
              destruct (lookup_lt_is_Some_2 f (56 + k)) as [x Hx]; [lia |].
              by rewrite Hx.
           ++ rewrite lookup_ge_None_2 by (rewrite length_sub; lia).
              symmetry. apply lookup_ge_None_2. rewrite length_take. lia.
Qed.

End MainLoop.

(** ** Worked instances *)

Section WorkedMore.
Import SimHost Sample.

(** The file database of the sample server has no dangling pointer. *)
Lemma no_dangling_db_root : no_dangling db_root.
Proof.
  intros j. unfold db_root. rewrite fsdb_get_insert.
  destruct (decide (0 = j)); [done |]. unfold fsdb_get.
  by rewrite lookup_empty.
Qed.

(** The names a1 and a1.txt. *)
Lemma filename2fcb_base_ext_witness :
  filename2fcb (of_string "a1") = Some (of_string "A1         ")
  ∧ filename2fcb (of_string "a1.txt") = Some (of_string "A1      TXT").
Proof.
  apply (filename2fcb_base_ext (of_string "a1") (of_string "txt"));
    [done | repeat constructor ..].
Defined.

(** The block of Read.me. *)
Lemma filename2fcb_block_witness :
  length (of_string "READ    ME ") = 11%nat
  ∧ ∀ b, b ∈ of_string "READ    ME " → ¬ (97 ≤ b ≤ 122).
Proof.
  apply (filename2fcb_block (of_string "Read.me") (of_string "READ    ME ")).
  reflexivity.
Defined.

(** A time stamp of the year 104 of [struct tm], which is 24 years
    after 1980. *)
Lemma time2dos_fields_witness :
  let t := 1000000000 in
  h_localtime (Host := host) t = Tm 104 5 11 1 46 40
  ∧ time2dos (H := host) t = 818613716
  ∧ Z.shiftr (time2dos (H := host) t) 25 = 24
  ∧ Z.land (Z.shiftr (time2dos (H := host) t) 21) 15 = 6
  ∧ Z.land (Z.shiftr (time2dos (H := host) t) 16) 31 = 11
  ∧ Z.land (Z.shiftr (time2dos (H := host) t) 11) 31 = 1
  ∧ Z.land (Z.shiftr (time2dos (H := host) t) 5) 63 = 46
  ∧ Z.land (time2dos (H := host) t) 31 = 20.
Proof.
  intros t. split; [reflexivity |].
  destruct (time2dos_fields (H := host) t) as (Hv & _ & Hy & Hmo & Hd & Hh & Hmi & Hs);
    [compute_done .. |].
  split; [exact Hv |]. split; [exact Hy |]. split; [exact Hmo |].
  split; [exact Hd |]. split; [exact Hh |]. split; [exact Hmi | exact Hs].
Defined.

(** The directory /srv/dir and what is below it. *)
Lemma isroot_cases_witness :
  isroot (of_string "/srv") None = None
  ∧ isroot (of_string "/srv") (Some (of_string "/srv//dir")) = Some 1
  ∧ isroot (of_string "/srv") (Some (of_string "/srv//dir/x.txt")) = Some 0.
Proof.
  destruct (isroot_cases (of_string "/srv") (of_string "dir")
              (of_string "x.txt") 2) as (Hn & H1 & H0); [compute_done |].
  split; [exact Hn |]. split; [exact H1 |]. by apply H0.
Defined.

(** The path \DIR\X.TXT after the attribute byte of a FINDFIRST. *)
Lemma explodepath_split_witness :
  ∃ dir file,
    explodepath ([16] ++ of_string "\DIR\X.TXT" ++ []) 1 10 = Some (dir, file)
    ∧ dir ++ file = of_string "\DIR\X.TXT"
    ∧ dir ≠ []
    ∧ (ch_slash ∉ file) ∧ (ch_backslash ∉ file)
    ∧ (ch_slash ∈ of_string "\DIR\X.TXT" ∨ ch_backslash ∈ of_string "\DIR\X.TXT" →
       last dir = Some ch_slash ∨ last dir = Some ch_backslash).
Proof.
  apply (explodepath_split [16] (of_string "\DIR\X.TXT") []); compute_done.
Defined.

(** The path \DIR\X.TXT on the drive of /srv. *)
Lemma dospath_shape_witness :
  let root := of_string "/srv" in
  let p := of_string "/srv//dir/x.txt" in
  0 ≤ 10
  ∧ (ch_backslash ∉ p)
  ∧ (length p ≤ length root + 1 + Z.to_nat 10)%nat
  ∧ (∀ c, c ∈ drop (length root) p → ¬ (65 ≤ c ≤ 90))
  ∧ (ch_backslash ∉ root →
     take (length root) p = root ∧ p !! length root = Some ch_slash).
Proof.
  intros root p.
  apply (dospath_shape root (of_string "\DIR\X.TXT") 0 10 p). reflexivity.
Defined.

(** /srv/Dir is registered in a file database that holds /srv/. *)
Lemma getitemss_registers_witness :
  ∃ id db',
    getitemss E0 (of_string "/srv/Dir") db_root = Some (id, db')
    ∧ no_dangling db'
    ∧ 0 ≤ id < 65535 ∧ sstoitem db' id = Some (of_string "/srv/Dir")
    ∧ lastused (fsdb_get db' id) = env_now E0.
Proof.
  destruct (getitemss_registers E0 (of_string "/srv/Dir") db_root
              no_dangling_db_root) as (id & db' & Hg & Hd & Hr).
  exists id, db'. split; [exact Hg |]. split; [exact Hd |]. exact Hr.
Defined.

(** Slot 0 when /srv/Dir is put into slot 1. *)
Lemma getitemss_keeps_other_slots_witness :
  fsdb_get db_dir 0 = fsdb_get db_root 0
  ∨ (fsdb_get db_dir 0 = sfsdb_zero
     ∧ 3600 < env_now E0 - lastused (fsdb_get db_root 0)).
Proof.
  apply (getitemss_keeps_other_slots E0 (of_string "/srv/Dir") db_root db_dir 1);
    [vm_compute; reflexivity | done | done].
Defined.

(** The first search of the root directory: a1.txt, at position 3. *)
Lemma findfile_outcome_witness :
  (∀ j, j ≠ 0 → fsdb_get root_db1 j = fsdb_get db_root j)
  ∧ name (fsdb_get root_db1 0) = name (fsdb_get db_root 0)
  ∧ lastused (fsdb_get root_db1 0) = lastused (fsdb_get db_root 0)
  ∧ ((0 = -1 ∧ Some root_e1 = None ∧ 3 = 0)
     ∨ (0 = 0
        ∧ ∃ (e : fileprops) (l : list fileprops) (k : nat),
            Some root_e1 = Some e
            ∧ dirlist (fsdb_get root_db1 0) = DirNodes l
            ∧ l !! k = Some e
            ∧ entry_match mask_all 16 FFILE_ISROOT e = true
            ∧ 0 < Z.of_nat k + 1
            ∧ 3 = (Z.of_nat k + 1) mod 65536)).
Proof.
  apply (findfile_outcome (H := host) E0 fs0 db_root root_db1 0 mask_all 16 0
           FFILE_ISROOT 0 3 (Some root_e1)).
  vm_compute. reflexivity.
Defined.

(** The search that follows it reads the listing of the file database,
    whatever the filesystem holds by then. *)
Lemma findfile_reads_cached_listing_witness :
  findfile (H := host) E0 fs0 root_db1 0 mask_all 16 3 FFILE_ISROOT
    = match findfile_walk mask_all 16 FFILE_ISROOT root_listing 0 3 with
      | Some (n, e) => Some (0, Some e, n mod 65536, root_db1)
      | None => Some (-1, None, 3, root_db1)
      end
  ∧ findfile (H := host) E0 empty root_db1 0 mask_all 16 3 FFILE_ISROOT
    = findfile (H := host) E0 fs0 root_db1 0 mask_all 16 3 FFILE_ISROOT.
Proof.
  apply (findfile_reads_cached_listing (H := host) E0 E0 fs0 empty root_db1 0
           root_listing mask_all 16 3 FFILE_ISROOT);
    [done | vm_compute; reflexivity].
Defined.

(** A new search of /srv/ after the directory is gone. *)
Lemma findfile_failed_listing_dangles_witness :
  ∃ db',
    findfile (H := host) E0 empty root_db1 0 mask_all 16 0 FFILE_ISROOT
      = Some (-1, None, 0, db')
    ∧ dirlist (fsdb_get db' 0) = DirFreed
    ∧ ∀ fcbtmpl' attr' nth' flags',
        findfile (H := host) E0 fs0 db' 0 fcbtmpl' attr' nth' flags' = None.
Proof.
  apply (findfile_failed_listing_dangles (H := host) E0 E0 empty fs0 root_db1 0
           root_listing (of_string "/srv/") mask_all 16 FFILE_ISROOT);
    vm_compute; reflexivity.
Defined.

(** The listing of /srv/. *)
Lemma gendirlist_lists_entries_witness :
  let root := Sfsdb (Some (of_string "/srv/")) 1000 DirNull in
  let ents := [Dirent [ch_dot] DT_DIR; Dirent [ch_dot; ch_dot] DT_DIR;
               Dirent (of_string "a1.txt") DT_REG;
               Dirent (of_string "b.txt") DT_REG;
               Dirent (of_string "Dir") DT_DIR] in
  ∃ nodes,
    gendirlist (H := host) E0 fs0 root 0
      = Some (Z.of_nat (length nodes),
              Sfsdb (Some (of_string "/srv/")) 1000 (DirNodes nodes))
    ∧ length nodes = Nat.min (env_calloc E0) (length ents)
    ∧ ∀ k de, (k < length nodes)%nat → ents !! k = Some de →
        ∃ e, nodes !! k = Some e
             ∧ listed (H := host) fs0 0
                 (of_string "/srv/" ++ [ch_slash] ++ d_name de) (d_name de) e.
Proof.
  intros root ents.
  apply (gendirlist_lists_entries (H := host) E0 fs0 root 0 (of_string "/srv/")
           ents);
    [done | reflexivity | vm_compute; reflexivity | done
    | unfold E0; cbn [env_calloc]; lia |].
  repeat (apply Forall_cons; split;
          [split; [done |]; split; [done |]; split;
           [repeat constructor; done | compute_done] |]).
  apply Forall_nil. done.
Defined.

(** The pattern /srv/a?.txt: of the five entries of /srv only a1.txt
    is unlinked, and 0 is returned. *)
Lemma delfiles_spec_witness :
  let ents := [Dirent [ch_dot] DT_DIR; Dirent [ch_dot; ch_dot] DT_DIR;
               Dirent (of_string "a1.txt") DT_REG;
               Dirent (of_string "b.txt") DT_REG;
               Dirent (of_string "Dir") DT_DIR] in
  let victims :=
    filter (λ de, delfiles_victim (of_string "A?      TXT") de = true) ents in
  h_readdir fs0 (of_string "/srv") = Some ents
  ∧ victims = [Dirent (of_string "a1.txt") DT_REG]
  ∧ delfiles (H := host) (of_string "/srv/a?.txt") fs0
    = Some (0, foldl (λ fs1 de,
                       (h_unlink (of_string "/srv" ++ [ch_slash] ++ d_name de)
                          fs1).2)
                     fs0 victims).
Proof.
  intros ents victims.
  assert (Hr : h_readdir fs0 (of_string "/srv") = Some ents)
    by (vm_compute; reflexivity).
  split; [exact Hr |]. split; [vm_compute; reflexivity |].
  destruct (delfiles_spec (H := host) (of_string "/srv/a?.txt") (of_string "/srv")
              (of_string "a?.txt") (of_string "A?      TXT") fs0) as [_ Hw].
  specialize (Hw ltac:(compute_done) eq_refl ltac:(compute_done) eq_refl).
  rewrite Hr in Hw. apply Hw.
  repeat (apply Forall_cons; split; [intros _; compute_done |]).
  apply Forall_nil. done.
Defined.

(** \DIR\X.TXT names x.txt of the directory Dir: Dir is an entry of
    /srv/ and a directory, x.txt an entry of /srv/Dir/. *)
Lemma shorttolong_resolves_witness :
  let root := of_string "/srv" in
  let src := of_string "/srv//dir/x.txt" in
  let dst := of_string "/srv/Dir/x.txt" in
  shorttolong fs0 src root = Some (0, dst)
  ∧ ∃ names,
      dst = root ++ [ch_slash] ++ join_slash names
      ∧ Forall2 (λ tok nm, same_fcb tok nm ∧ nm ≠ [ch_dot]
                           ∧ nm ≠ [ch_dot; ch_dot])
                (strtok_slash (drop (S (length root)) src) []) names
      ∧ ∀ k nm, names !! k = Some nm →
          ∃ ents de,
            h_readdir fs0 (root ++ [ch_slash] ++ dir_of (take k names))
              = Some ents
            ∧ de ∈ ents ∧ d_name de = nm
            ∧ ((S k < length names)%nat → d_type de = DT_DIR).
Proof.
  intros root src dst.
  assert (Hs : shorttolong fs0 src root = Some (0, dst))
    by (vm_compute; reflexivity).
  split; [exact Hs |].
  destruct (shorttolong_resolves (H := host) fs0 src root 0 dst Hs)
    as (_ & _ & _ & Hok).
  exact (Hok eq_refl).
Defined.

(** The DELETE of \A?.TXT, which names nothing: 60 bytes with AX = 2,
    the state as it was. *)
Lemma process_outcome_witness :
  let req := request 1 AL_DELETE (of_string "\A?.TXT") in
  let len := Z.of_nat (length req) in
  let answ := set_ax (reply_header server_mac (frame answ_zero) req) 2 in
  run answ_zero req st0 = Some (60, answ, st0)
  ∧ (60 = -1 ∨ 60 = -3 ∨ 60 ≤ 60)
  ∧ (60 < 0 → st0 = st0)
  ∧ (60 = -3 ↔
     60 ≤ len
     ∧ ¬ (2 ≤ Z.land (get req 58) 31 ≤ 25
          ∧ is_Some (rootarray (Z.land (get req 58) 31)))).
Proof.
  intros req len answ.
  assert (Hr : run answ_zero req st0 = Some (60, answ, st0))
    by compute_done.
  split; [exact Hr |].
  apply (process_outcome (H := host) E0 server_mac rootarray drivesfat answ_zero
           req len st0 st0 60 answ);
    [reflexivity | reflexivity | exact Hr].
Defined.

(** The header of the reply to that DELETE. *)
Lemma reply_keeps_header_witness :
  let req := request 1 AL_DELETE (of_string "\A?.TXT") in
  let answ := set_ax (reply_header server_mac (frame answ_zero) req) 2 in
  sub answ 0 6 = sub req 6 6
  ∧ sub answ 6 6 = sub server_mac 0 6
  ∧ ∀ i, 12 ≤ i < 58 → get answ i = get req i.
Proof.
  intros req answ.
  apply (reply_keeps_header (H := host) E0 server_mac rootarray drivesfat
           answ_zero req (Z.of_nat (length req)) st0 st0 60 answ);
    [vm_compute; congruence | reflexivity | compute_done].
Defined.

(** That DELETE arrives again, at a later time. *)
Lemma retransmission_answered_from_cache_witness :
  let req := request 1 AL_DELETE (of_string "\A?.TXT") in
  let len := Z.of_nat (length req) in
  let E2 := Env 2000 true (Z.to_nat 100000) 0 ([], 0, 0, 0) in
  let answ := set_ax (reply_header server_mac (frame answ_zero) req) 2 in
  let cache' := <[0%nat := Answ answ 1000 60]> cache0 in
  dispatch E0 server_mac rootarray drivesfat cache0 req len st0
    = Some (60, 0%nat, cache', st0)
  ∧ ∃ f t,
      cache' !! 0%nat = Some (Answ f t 60)
      ∧ process E2 server_mac rootarray drivesfat (Answ f t 60) req len st0
        = Some (60, f, st0)
      ∧ dispatch E2 server_mac rootarray drivesfat cache' req len st0
        = Some (60, 0%nat, <[0%nat := Answ f (env_now E2) 60]> cache', st0).
Proof.
  intros req len E2 answ cache'.
  assert (Hd : dispatch E0 server_mac rootarray drivesfat cache0 req len st0
               = Some (60, 0%nat, cache', st0))
    by compute_done.
  split; [exact Hd |].
  apply (retransmission_answered_from_cache (H := host) server_mac rootarray
           drivesfat E0 E2 cache0 cache' req len 60 0%nat st0 st0);
    [reflexivity | vm_compute; congruence | exact Hd | lia].
Defined.

(** READFILE, WRITEFILE and SKFMEND on the handle 0 of a server that has
    opened nothing. *)
Lemma invalid_handle_refused_witness :
  let req := request 1 AL_READFIL (replicate 8 0) in
  ∃ answ,
    process E0 server_mac rootarray drivesfat answ_zero req 68 st0
      = Some (60, answ, st0)
    ∧ le16 answ 58 = 5.
Proof.
  intros req.
  apply (invalid_handle_refused (H := host) E0 server_mac rootarray drivesfat
           answ_zero req 68 st0 (of_string "/srv"));
    [reflexivity | compute_done | reflexivity | reflexivity |].
  left. split; reflexivity.
Defined.

(** READFILE of 2 bytes at offset 1 of a1.txt, which holds abc; and
    READFILE of 1461 bytes of a file of 2000 bytes. *)
Lemma readfile_reply_witness :
  let st := Server (<[0 := Sfsdb (Some (of_string "/srv/a1.txt")) 1000 DirNull]> ∅)
              fs0 in
  let req := request 1 AL_READFIL [1; 0; 0; 0; 0; 0; 2; 0] in
  let big := SimFs (<[ [of_string "srv"; of_string "a1.txt"]
                       := NFile FAT_ARC 0 (replicate 2000 7) ]> (nodes fs0))
               false (0, 0, 0, 0) in
  let req_big := request 1 AL_READFIL [0; 0; 0; 0; 0; 0; 181; 5] in
  (∃ answ,
     process E0 server_mac rootarray drivesfat answ_zero req 68 st
       = Some (62, answ, st)
     ∧ le16 answ 58 = 0
     ∧ sub answ 60 2 = of_string "bc")
  ∧ le16 req_big 66 = 1461
  ∧ process E0 server_mac rootarray drivesfat answ_zero req_big 68
      (@Server host (fsdb st) big) = None.
Proof.
  intros st req big req_big. split; [| split; [reflexivity |]].
  - apply (readfile_reply (H := host) E0 server_mac rootarray drivesfat
             answ_zero req st (of_string "/srv") (of_string "/srv/a1.txt")
             (of_string "bc"));
      [reflexivity | compute_done | reflexivity | reflexivity
      | vm_compute; reflexivity | vm_compute; reflexivity | simpl; lia].
  - apply (readfile_reply (H := host) E0 server_mac rootarray drivesfat
             answ_zero req_big (@Server host (fsdb st) big) (of_string "/srv")
             (of_string "/srv/a1.txt") (replicate 1461 7));
      [reflexivity | compute_done | reflexivity | reflexivity
      | vm_compute; reflexivity | vm_compute; reflexivity
      | rewrite length_replicate; lia].
Defined.

(** SKFMEND with the offset -1 on a1.txt, of 3 bytes: position 2. *)
Lemma skfmend_reply_witness :
  let st := Server (<[0 := Sfsdb (Some (of_string "/srv/a1.txt")) 1000 DirNull]> ∅)
              fs0 in
  let req := request 1 AL_SKFMEND [255; 255; 255; 255; 0; 0] in
  ∃ answ,
    process E0 server_mac rootarray drivesfat answ_zero req 66 st
      = Some (64, answ, st)
    ∧ le16 answ 58 = 0
    ∧ le32 answ 60 = 2.
Proof.
  intros st req.
  apply (skfmend_reply (H := host) E0 server_mac rootarray drivesfat answ_zero
           req st (of_string "/srv") 3);
    [reflexivity | compute_done | reflexivity | reflexivity
    | compute_done | lia].
Defined.

(** GETATTR of \A1.TXT, a file of 3 bytes, on a drive that is not FAT:
    the attribute byte is 0. *)
Lemma getattr_reply_witness :
  let req := request 1 AL_GETATTR (of_string "\A1.TXT") in
  ∃ answ,
    process E0 server_mac rootarray drivesfat answ_zero req 67 st0
      = Some (69, answ, st0)
    ∧ le16 answ 58 = 0
    ∧ le32 answ 60 = u32 (time2dos (H := host) 0)
    ∧ le32 answ 64 = 3
    ∧ get answ 68 = 0.
Proof.
  intros req.
  apply (getattr_reply (H := host) E0 server_mac rootarray drivesfat answ_zero
           req 67 st0 (of_string "/srv") (of_string "/srv//a1.txt")
           (of_string "/srv/a1.txt"));
    [lia | reflexivity | compute_done | reflexivity | reflexivity | reflexivity
    | compute_done | compute_done | compute_done].
Defined.

(** OPEN of \A1.TXT: the reply of 85 bytes carries the id 0, and slot 0
    of the file database then holds /srv/a1.txt. *)
Lemma open_reply_names_slot_witness :
  let req := request 1 AL_OPEN ([0; 0; 0; 0; 0; 0] ++ of_string "\A1.TXT") in
  let st' := Server (<[0 := Sfsdb (Some (of_string "/srv/a1.txt")) 1000 DirNull]> ∅)
               fs0 in
  let answ' :=
    Bytes.write (set_ax (reply_header server_mac (frame answ_zero) req) 0) 60
      (put_props (Fileprops (of_string "A1      TXT") 3 3961585664 0)
       ++ put16 0 ++ put16 0 ++ [0]) in
  run answ_zero req st0 = Some (85, answ', st')
  ∧ sstoitem (fsdb st') 0 = Some (of_string "/srv/a1.txt")
  ∧ 85 = 85
  ∧ le16 answ' 58 = 0
  ∧ 0 ≤ le16 answ' 80 < 65535
  ∧ ∃ host_path, sstoitem (fsdb st') (le16 answ' 80) = Some host_path.
Proof.
  intros req st' answ'.
  assert (Hr : run answ_zero req st0 = Some (85, answ', st'))
    by compute_done.
  split; [exact Hr |]. split; [compute_done |].
  apply (open_reply_names_slot (H := host) E0 server_mac rootarray drivesfat
           answ_zero req (Z.of_nat (length req)) st0 st' 85 answ');
    [reflexivity | by left | exact Hr | lia].
Defined.

(** A frame for another station, and one with a checksum that is not the
    sum of its bytes. *)
Lemma serve_ignores_witness :
  let other := mkframe client_mac client_mac 1 2 AL_DISKSPACE [] in
  serve E0 server_mac rootarray drivesfat cache0 other 60 st0
  = Some (cache0, st0, None).
Proof.
  intros other.
  apply (serve_ignores (H := host) E0 server_mac rootarray drivesfat cache0 other
           60 st0).
  right. left. split; compute_done.
Defined.

(** A reply of 60 bytes to a request that carried the checksum flag:
    byte 56 of the frame is 0x82 already. *)
Lemma finalize_frame_witness :
  let answ := replicate 56 0 ++ [130] ++ replicate 1463 1 in
  let f := (finalize 1 60 answ).1 in
  length f = 1520%nat
  ∧ (finalize 1 60 answ).2 = Some (take 60 f)
  ∧ le16 f 52 = 60
  ∧ get f 56 = 130
  ∧ le16 f 54 = bsdsum [130; 1; 1; 1]
  ∧ le16 f 54 = bsdsum (drop 56 (take 60 f)).
Proof.
  intros answ f.
  destruct (finalize_frame 1 60 answ) as (Hl & Hs & H52 & _ & _ & Hck);
    [reflexivity | lia |].
  destruct (Hck ltac:(done)) as (H56 & H54 & Hsent).
  split; [exact Hl |]. split; [exact Hs |]. split; [exact H52 |].
  split; [exact H56 |]. split; [exact H54 |]. exact (Hsent eq_refl).
Defined.


End WorkedMore.
